(** * outlook2gcal: the synchronisation state machine

    A shallow embedding of [src/outlook2gcal.py]: the identifier derivation of
    [OutlookReader.get_events], the [GoogleSync] wrappers around the calendar
    API, the [SyncMonitor] ledger and the [sync_events] cycle of [main].

    Python values are modelled as follows.
    - [str] is [string], the UTF-8 bytes of the text: [strip] and [isdigit]
      decode them and work on the code points, as [str] does;
    - [datetime] (naive) is a record of its seven fields;
    - a [dict] is an association list in insertion order, with the update
      and deletion behaviour of Python dictionaries;
    - JSON data read from the state file is a value of type [json];
    - the clock, the calendar service and the iteration order of a [set]
      are the operations of a class [Platform] over an abstract world. *)

From Stdlib Require Import List String Ascii ZArith Lia Bool Arith.
From Stdlib Require Import Permutation DecimalString.
Import ListNotations.

Local Open Scope string_scope.
Local Open Scope Z_scope.

Set Implicit Arguments.

(** ** Code points

    A text is held as its UTF-8 bytes; the methods of [str] that look at
    characters ([strip], [isdigit]) work on its code points. *)

Module Utf8.

Definition byte (a : ascii) : Z := Z.of_nat (nat_of_ascii a).

(** the six bits a continuation byte carries *)
Definition continuation (a : ascii) : option Z :=
  let x := byte a in
  if ((128 <=? x) && (x <=? 191))%bool then Some (x - 128) else None.

(** the code point at the head of a text, and the text after it *)
Definition head (s : string) : option (Z * string) :=
  match s with
  | EmptyString => None
  | String a s1 =>
      let x := byte a in
      if x <? 128 then Some (x, s1)
      else if ((194 <=? x) && (x <=? 223))%bool then
        match s1 with
        | String b s2 =>
            match continuation b with
            | Some y => Some ((x - 192) * 64 + y, s2)
            | None => None
            end
        | EmptyString => None
        end
      else if ((224 <=? x) && (x <=? 239))%bool then
        match s1 with
        | String b (String c s3) =>
            match continuation b, continuation c with
            | Some y, Some z => Some (((x - 224) * 64 + y) * 64 + z, s3)
            | _, _ => None
            end
        | _ => None
        end
      else if ((240 <=? x) && (x <=? 244))%bool then
        match s1 with
        | String b (String c (String d s4)) =>
            match continuation b, continuation c, continuation d with
            | Some y, Some z, Some u =>
                Some ((((x - 240) * 64 + y) * 64 + z) * 64 + u, s4)
            | _, _, _ => None
            end
        | _ => None
        end
      else None
  end.

Definition in_ranges (ranges : list (Z * Z)) (c : Z) : bool :=
  existsb (fun r => ((fst r <=? c) && (c <=? snd r))%bool) ranges.

(** the code points [str.isspace] accepts; [str.strip()] removes them *)
Definition is_space (c : Z) : bool :=
  in_ranges
  [
    (9, 13); (28, 32); (133, 133); (160, 160); (5760, 5760); (8192, 8202);
    (8232, 8233); (8239, 8239); (8287, 8287); (12288, 12288)
  ] c.

(** the code points [str.isdigit] accepts: the decimal digits of every
    script and the other characters with a digit value (Unicode 14.0, the
    data of Python 3.11) *)
Definition is_digit (c : Z) : bool :=
  in_ranges
  [
    (48, 57); (178, 179); (185, 185); (1632, 1641); (1776, 1785);
    (1984, 1993); (2406, 2415); (2534, 2543); (2662, 2671); (2790, 2799);
    (2918, 2927); (3046, 3055); (3174, 3183); (3302, 3311); (3430, 3439);
    (3558, 3567); (3664, 3673); (3792, 3801); (3872, 3881); (4160, 4169);
    (4240, 4249); (4969, 4977); (6112, 6121); (6160, 6169); (6470, 6479);
    (6608, 6618); (6784, 6793); (6800, 6809); (6992, 7001); (7088, 7097);
    (7232, 7241); (7248, 7257); (8304, 8304); (8308, 8313); (8320, 8329);
    (9312, 9320); (9332, 9340); (9352, 9360); (9450, 9450); (9461, 9469);
    (9471, 9471); (10102, 10110); (10112, 10120); (10122, 10130);
    (42528, 42537); (43216, 43225); (43264, 43273); (43472, 43481);
    (43504, 43513); (43600, 43609); (44016, 44025); (65296, 65305);
    (66720, 66729); (68160, 68163); (68912, 68921); (69216, 69224);
    (69714, 69722); (69734, 69743); (69872, 69881); (69942, 69951);
    (70096, 70105); (70384, 70393); (70736, 70745); (70864, 70873);
    (71248, 71257); (71360, 71369); (71472, 71481); (71904, 71913);
    (72016, 72025); (72784, 72793); (73040, 73049); (73120, 73129);
    (92768, 92777); (92864, 92873); (93008, 93017); (120782, 120831);
    (123200, 123209); (123632, 123641); (125264, 125273); (127232, 127242);
    (130032, 130041)
  ] c.

(** every code point of the text satisfies [p]; [n] bounds their number *)
Fixpoint all (p : Z -> bool) (n : nat) (s : string) : bool :=
  match s with
  | EmptyString => true
  | String _ _ =>
      match n with
      | O => false
      | S n' =>
          match head s with
          | Some (c, rest) => (p c && all p n' rest)%bool
          | None => false
          end
      end
  end.

End Utf8.

(** ** Strings *)

Module Str.

  (** [s[n:]] *)
Fixpoint drop (n : nat) (s : string) : string :=
    match n, s with
    | O, _ => s
    | S _, EmptyString => EmptyString
    | S n', String _ s' => drop n' s'
    end.

  (** [s[:n]] *)
Definition take (n : nat) (s : string) : string := substring 0 n s.

  (** [s.startswith(p)] *)
Fixpoint startswith (p s : string) : bool :=
  match p with
  | EmptyString => true
  | String a p' =>
      match s with
      | String b s' => (Ascii.eqb a b && startswith p' s')%bool
      | EmptyString => false
      end
  end.

  (** [s.lstrip(c)] for a one-character argument *)
Fixpoint lstrip_char (c : ascii) (s : string) : string :=
    match s with
    | String a s' => if Ascii.eqb a c then lstrip_char c s' else s
    | EmptyString => EmptyString
    end.

Definition is_digit (a : ascii) : bool :=
    let n := nat_of_ascii a in (Nat.leb 48 n && Nat.leb n 57)%bool.

Fixpoint all_digits (s : string) : bool :=
    match s with
    | EmptyString => true
    | String a s' => (is_digit a && all_digits s')%bool
    end.

  (** only the digits [0-9] and the letters [a-f] *)
Definition is_hex_digit (a : ascii) : bool :=
  let n := nat_of_ascii a in
  ((Nat.leb 48 n && Nat.leb n 57) || (Nat.leb 97 n && Nat.leb n 102))%bool.

Fixpoint all_hex (s : string) : bool :=
  match s with
  | EmptyString => true
  | String a s' => (is_hex_digit a && all_hex s')%bool
  end.

(** [s.isdigit()]: at least one character, all of them digits *)
Definition isdigit (s : string) : bool :=
    match s with
    | EmptyString => false
    | _ => Utf8.all Utf8.is_digit (String.length s) s
    end.

  (** [s.isspace()], or [s] is empty *)
Definition blank (s : string) : bool := Utf8.all Utf8.is_space (String.length s) s.

Fixpoint lstrip_upto (n : nat) (s : string) : string :=
    match n with
    | O => s
    | S n' =>
        match Utf8.head s with
        | Some (c, rest) => if Utf8.is_space c then lstrip_upto n' rest else s
        | None => s
        end
    end.

  (** [s.lstrip()] *)
Definition lstrip (s : string) : string := lstrip_upto (String.length s) s.

  (** [s.rstrip()]: the text is cut where only white space follows *)
Fixpoint rstrip (s : string) : string :=
    match s with
    | EmptyString => EmptyString
    | String a s' => if blank s then EmptyString else String a (rstrip s')
    end.

  (** [s.strip()] *)
Definition strip (s : string) : string := rstrip (lstrip s).

  (** [s.replace(old, '')] for a non-empty [old]: every occurrence, scanning
      left to right; [skip] counts the characters of a match still to drop *)
Fixpoint remove_all_from (old : string) (skip : nat) (s : string) : string :=
    match s with
    | EmptyString => EmptyString
    | String a s' =>
        match skip with
        | S k => remove_all_from old k s'
        | O =>
            if startswith old s
            then remove_all_from old (String.length old - 1) s'
            else String a (remove_all_from old 0 s')
        end
    end.

Definition remove_all (old s : string) : string :=
    match old with
    | EmptyString => s
    | _ => remove_all_from old 0 s
    end.

  (** [str(n).zfill(width)] for a natural number, as [%0<width>d] prints it *)
Fixpoint zeros (n : nat) : string :=
    match n with
    | O => EmptyString
    | S n' => String "0" (zeros n')
    end.

Definition decimal (n : Z) : string :=
    NilZero.string_of_uint (N.to_uint (Z.to_N n)).

Definition zfill (width : nat) (n : Z) : string :=
    let d := decimal n in
    zeros (width - String.length d) ++ d.

End Str.

(** ** [datetime] *)

Record datetime : Type := mk_datetime {
  year : Z;
  month : Z;
  day : Z;
  hour : Z;
  minute : Z;
  second : Z;
  microsecond : Z
}.

(** [d.isoformat()] of a naive [datetime]: the fraction is printed only when
    the microseconds are not zero *)
Definition isoformat (d : datetime) : string :=
  Str.zfill 4 (year d) ++ "-" ++ Str.zfill 2 (month d) ++ "-" ++ Str.zfill 2 (day d)
  ++ "T" ++ Str.zfill 2 (hour d) ++ ":" ++ Str.zfill 2 (minute d) ++ ":"
  ++ Str.zfill 2 (second d)
  ++ (if microsecond d =? 0 then "" else "." ++ Str.zfill 6 (microsecond d)).

(** Comparison of naive datetimes: field by field, most significant first. *)
Fixpoint lex_lt (a b : list Z) : bool :=
  match a, b with
  | x :: a', y :: b' => (x <? y) || ((x =? y) && lex_lt a' b')
  | _, _ => false
  end.

Definition fields (d : datetime) : list Z :=
  [year d; month d; day d; hour d; minute d; second d; microsecond d].

Definition datetime_lt (a b : datetime) : bool := lex_lt (fields a) (fields b).

(** The proleptic Gregorian ordinal of a date and its inverse, as the
    [datetime] module computes them for [d - timedelta(days=n)]. *)
Module Ordinal.

Definition is_leap (y : Z) : bool :=
    ((y mod 4 =? 0) && (negb (y mod 100 =? 0) || (y mod 400 =? 0)))%bool.

Definition days_before_year (y : Z) : Z :=
    let p := y - 1 in p * 365 + p / 4 - p / 100 + p / 400.

Definition days_in_month (y m : Z) : Z :=
    if m =? 2 then (if is_leap y then 29 else 28)
    else if (m =? 4) || (m =? 6) || (m =? 9) || (m =? 11) then 30
    else 31.

Definition days_before_month (y m : Z) : Z :=
    fold_left (fun acc k => acc + days_in_month y (Z.of_nat k))
              (seq 1 (Z.to_nat (m - 1))) 0.

Definition ymd2ord (y m d : Z) : Z :=
    days_before_year y + days_before_month y m + d.

Definition ord2ymd (ord : Z) : Z * Z * Z :=
    let n := ord - 1 in
    let n400 := n / 146097 in
    let n := n mod 146097 in
    let n100 := n / 36524 in
    let n := n mod 36524 in
    let n4 := n / 1461 in
    let n := n mod 1461 in
    let n1 := n / 365 in
    let n := n mod 365 in
    let y := n400 * 400 + 1 + n100 * 100 + n4 * 4 + n1 in
    if (n1 =? 4) || (n100 =? 4) then (y - 1, 12, 31)
    else
      let m := Z.shiftr (n + 50) 5 in
      let preceding := days_before_month y m in
      if preceding >? n
      then (y, m - 1, n - (preceding - days_in_month y (m - 1)) + 1)
      else (y, m, n - preceding + 1).

End Ordinal.

(** [d - timedelta(days=n)]: the date moves, the time of day stays *)
Definition minus_days (d : datetime) (n : Z) : datetime :=
  let '(y, m, dd) := Ordinal.ord2ymd (Ordinal.ymd2ord (year d) (month d) (day d) - n) in
  mk_datetime y m dd (hour d) (minute d) (second d) (microsecond d).

(** ** MD5 ([hashlib.md5]) over 32-bit words held in [Z] *)

Module MD5.

Definition mask32 (x : Z) : Z := Z.land x 4294967295.

Definition add32 (x y : Z) : Z := mask32 (x + y).

Definition not32 (x : Z) : Z := Z.lxor x 4294967295.

Definition rotl32 (x : Z) (c : Z) : Z :=
    mask32 (Z.lor (Z.shiftl x c) (Z.shiftr x (32 - c))).

  (** floor(2^32 * |sin(i + 1)|), i = 0 .. 63 *)
Definition K : list Z :=
    [3614090360; 3905402710; 606105819; 3250441966; 4118548399; 1200080426;
     2821735955; 4249261313; 1770035416; 2336552879; 4294925233; 2304563134;
     1804603682; 4254626195; 2792965006; 1236535329; 4129170786; 3225465664;
     643717713; 3921069994; 3593408605; 38016083; 3634488961; 3889429448;
     568446438; 3275163606; 4107603335; 1163531501; 2850285829; 4243563512;
     1735328473; 2368359562; 4294588738; 2272392833; 1839030562; 4259657740;
     2763975236; 1272893353; 4139469664; 3200236656; 681279174; 3936430074;
     3572445317; 76029189; 3654602809; 3873151461; 530742520; 3299628645;
     4096336452; 1126891415; 2878612391; 4237533241; 1700485571; 2399980690;
     4293915773; 2240044497; 1873313359; 4264355552; 2734768916; 1309151649;
     4149444226; 3174756917; 718787259; 3951481745].

Definition shifts : list Z :=
    [7; 12; 17; 22; 7; 12; 17; 22; 7; 12; 17; 22; 7; 12; 17; 22;
     5; 9; 14; 20; 5; 9; 14; 20; 5; 9; 14; 20; 5; 9; 14; 20;
     4; 11; 16; 23; 4; 11; 16; 23; 4; 11; 16; 23; 4; 11; 16; 23;
     6; 10; 15; 21; 6; 10; 15; 21; 6; 10; 15; 21; 6; 10; 15; 21].

  (** little-endian bytes of a word, and back *)
Fixpoint le_bytes (n : nat) (x : Z) : list Z :=
    match n with
    | O => []
    | S n' => Z.land x 255 :: le_bytes n' (Z.shiftr x 8)
    end.

Fixpoint le_word (bs : list Z) : Z :=
    match bs with
    | [] => 0
    | b :: bs' => b + 256 * le_word bs'
    end.

Fixpoint words (n : nat) (bs : list Z) : list Z :=
    match n with
    | O => []
    | S n' => le_word (firstn 4 bs) :: words n' (skipn 4 bs)
    end.

  (** the message followed by 0x80, zeros up to 56 mod 64, and the bit
      length on eight bytes *)
Definition pad (msg : list Z) : list Z :=
    let len := Z.of_nat (List.length msg) in
    let zeros := Z.to_nat ((55 - len) mod 64) in
    msg ++ [128] ++ repeat 0 zeros ++ le_bytes 8 ((8 * len) mod 2 ^ 64).

Definition round (M : list Z) (i : nat) (st : Z * Z * Z * Z) : Z * Z * Z * Z :=
    let '(A, B, C, D) := st in
    let zi := Z.of_nat i in
    let '(F, g) :=
      if zi <? 16 then (Z.lor (Z.land B C) (Z.land (not32 B) D), zi)
      else if zi <? 32 then (Z.lor (Z.land D B) (Z.land (not32 D) C), (5 * zi + 1) mod 16)
      else if zi <? 48 then (Z.lxor (Z.lxor B C) D, (3 * zi + 5) mod 16)
      else (Z.lxor C (Z.lor B (not32 D)), (7 * zi) mod 16) in
    let F := add32 (add32 (add32 F A) (nth i K 0)) (nth (Z.to_nat g) M 0) in
    (D, add32 B (rotl32 F (nth i shifts 0)), B, C).

Definition block (chunk : list Z) (h : Z * Z * Z * Z) : Z * Z * Z * Z :=
    let M := words 16 chunk in
    let '(A, B, C, D) := fold_left (fun st i => round M i st) (seq 0 64) h in
    let '(a0, b0, c0, d0) := h in
    (add32 a0 A, add32 b0 B, add32 c0 C, add32 d0 D).

Fixpoint blocks (n : nat) (bs : list Z) (h : Z * Z * Z * Z) : Z * Z * Z * Z :=
    match n with
    | O => h
    | S n' => blocks n' (skipn 64 bs) (block (firstn 64 bs) h)
    end.

  (** the sixteen bytes of the digest *)
Definition digest (msg : list Z) : list Z :=
    let p := pad msg in
    let '(a, b, c, d) :=
      blocks (Nat.div (List.length p) 64) p
             (1732584193, 4023233417, 2562383102, 271733878) in
    le_bytes 4 a ++ le_bytes 4 b ++ le_bytes 4 c ++ le_bytes 4 d.

Definition hex_digit (n : Z) : ascii :=
    if n <? 10 then ascii_of_nat (Z.to_nat (48 + n))
    else ascii_of_nat (Z.to_nat (87 + n)).

Fixpoint hex (bs : list Z) : string :=
    match bs with
    | [] => EmptyString
    | b :: bs' => String (hex_digit (b / 16 mod 16)) (String (hex_digit (b mod 16)) (hex bs'))
    end.

  (** [s.encode()]: the bytes of the text *)
Definition encode (s : string) : list Z :=
    map (fun a => Z.of_nat (nat_of_ascii a)) (list_ascii_of_string s).

  (** [hashlib.md5(s.encode()).hexdigest()] *)
Definition hexdigest (s : string) : string := hex (digest (encode s)).

End MD5.

(** ** Events of the snapshot ([OutlookReader.get_events]) *)

(** The identifier built for a parsed line: [outlook-] and the first sixteen
    digits of the MD5 of [title-start-organizer]. *)
Definition hash_input (title : string) (start_date : datetime) (organizer : string) : string :=
  title ++ "-" ++ isoformat start_date ++ "-" ++ organizer.

Definition unique_id (title : string) (start_date : datetime) (organizer : string) : string :=
  "outlook-" ++ Str.take 16 (MD5.hexdigest (hash_input title start_date organizer)).

(** The dictionary appended to [events].  Its ['id'] is [unique_id] of three
    of the other entries and is never reassigned, so it is computed here
    rather than stored; ['all_day'], ['notes'], ['is_invited'] are constants
    and ['last_modified'] is only printed. *)
Record Event : Type := mk_event {
  title : string;
  start_date : datetime;
  end_date : datetime;
  location : string;
  calendar_title : string;
  organizer : string;
  content : string;
  importance : string;
  raw_start : string;
  raw_end : string
}.

Definition event_id (e : Event) : string :=
  unique_id (title e) (start_date e) (organizer e).

(** ** JSON values and Python dictionaries *)

#[local] Unset Elimination Schemes.

Inductive json : Type :=
| JNull
| JBool (b : bool)
| JNum (n : Z)
| JStr (s : string)
| JList (l : list json)
| JDict (d : list (string * json)).

#[local] Set Elimination Schemes.

(** [bool(v)] *)
Definition py_truthy (v : json) : bool :=
  match v with
  | JNull => false
  | JBool b => b
  | JNum n => negb (n =? 0)
  | JStr s => negb (s =? "")%string
  | JList l => match l with [] => false | _ => true end
  | JDict d => match d with [] => false | _ => true end
  end.

(** [bool(x)] for an [Optional[str]] *)
Definition truthy (x : option string) : bool :=
  match x with
  | Some s => negb (s =? "")%string
  | None => false
  end.

Definition json_of_id (x : option string) : json :=
  match x with
  | Some s => JStr s
  | None => JNull
  end.

(** A [dict] with [str] keys: association list in insertion order. *)
Module Dict.

Definition t (V : Type) : Type := list (string * V).

(** [d.get(k)] *)
Fixpoint get {V : Type} (k : string) (d : t V) : option V :=
  match d with
  | [] => None
  | (k', v) :: d' => if (k' =? k)%string then Some v else get k d'
  end.

(** [k in d] *)
Definition mem {V : Type} (k : string) (d : t V) : bool :=
  match get k d with
  | Some _ => true
  | None => false
  end.

(** [d[k] = v]: an existing key keeps its place, a new one goes last *)
Fixpoint set {V : Type} (k : string) (v : V) (d : t V) : t V :=
  match d with
  | [] => [(k, v)]
  | (k', v') :: d' => if (k' =? k)%string then (k', v) :: d' else (k', v') :: set k v d'
  end.

(** [del d[k]] *)
Definition del {V : Type} (k : string) (d : t V) : t V :=
  filter (fun p => negb (fst p =? k)%string) d.

(** [d.keys()] *)
Definition keys {V : Type} (d : t V) : list string := map fst d.

(** [d.update(other)] *)
Definition update {V : Type} (other d : t V) : t V :=
  fold_left (fun acc p => set (fst p) (snd p) acc) other d.

End Dict.

(** ** Exceptions *)

Inductive exn : Type := AttributeError | TypeError | ValueError | PermissionError.

Inductive outcome (A : Type) : Type :=
| Ret (a : A)
| Raise (e : exn).

Arguments Ret {A} a.
Arguments Raise {A} e.

(** [v.get(k, default)]: only a dictionary has the method *)
Definition json_get (v : json) (k : string) (default : json) : outcome json :=
  match v with
  | JDict d => Ret (match Dict.get k d with Some x => x | None => default end)
  | _ => Raise AttributeError
  end.

(** ** The platform: clock, date parser, calendar service, set order *)

(** What [datetime.fromisoformat] returns: a naive datetime, or an aware one
    with its UTC offset. *)
Inductive parsed_datetime : Type :=
| Naive (d : datetime)
| Aware (d : datetime) (utcoffset : Z).

(** A request to the calendar API either returns or raises [HttpError],
    the one failure the wrappers of [GoogleSync] handle. *)
Inductive api_result (A : Type) : Type :=
| ApiOk (a : A)
| HttpError (status : Z).

Arguments ApiOk {A} a.
Arguments HttpError {A} status.

(** body of [events().insert] *)
Record google_event : Type := mk_google_event {
  summary : string;
  description : string;
  g_location : string;
  start_dateTime : string;
  start_timeZone : string;
  end_dateTime : string;
  end_timeZone : string
}.

(** an element of ['items'] in the answer of [events().list] *)
Record calendar_item : Type := mk_item {
  item_summary : option string;
  item_id : option string
}.

Class Platform (W : Type) : Type := {
  (** [datetime.now()] *)
  now : W -> datetime * W;
  (** [datetime.fromisoformat(s)]; [None] is [ValueError] *)
  fromisoformat : string -> option parsed_datetime;
  (** [service.events().insert(calendarId, body).execute()['id']] *)
  events_insert : string -> google_event -> W -> api_result string * W;
  (** [service.events().list(calendarId, timeMin, timeMax, ...).execute().get('items', [])] *)
  events_list : string -> string -> string -> W -> api_result (list calendar_item) * W;
  (** [service.events().delete(calendarId, eventId).execute()] *)
  events_delete : string -> json -> W -> api_result unit * W;
  (** the order in which a [for] loop visits a [set] of strings *)
  set_iter : W -> list string -> list string;
  (** the empty string is no date *)
  fromisoformat_empty : fromisoformat "" = None;
  (** a loop over a set visits every element once *)
  set_iter_perm : forall w l, Permutation (set_iter w l) l
}.

(** ** [GoogleSync] *)

Record GoogleSync : Type := mk_google {
  service : bool;          (** [self.service] is not [None] *)
  calendar_id : string
}.

Definition envelope : string := String (ascii_of_nat 240) (String (ascii_of_nat 159)
  (String (ascii_of_nat 147) (String (ascii_of_nat 167) " "))).

Definition bust : string := String (ascii_of_nat 240) (String (ascii_of_nat 159)
  (String (ascii_of_nat 145) (String (ascii_of_nat 164) " Organizer: "))).

Definition target : string := String (ascii_of_nat 240) (String (ascii_of_nat 159)
  (String (ascii_of_nat 142) (String (ascii_of_nat 175)
  " Invited Event from Outlook Calendar: "))).

Definition newline : string := String (ascii_of_nat 10) EmptyString.

Definition build_google_event (e : Event) : google_event :=
  let description_parts :=
    (target ++ calendar_title e)
      ++ (if negb (organizer e =? "")%string then newline ++ bust ++ organizer e else "") in
  mk_google_event (envelope ++ title e) description_parts (location e)
    (isoformat (start_date e)) "Asia/Seoul" (isoformat (end_date e)) "Asia/Seoul".

Section Google.

Context {W : Type} `{Platform W}.

Definition create_event (g : GoogleSync) (outlook_event : Event) (w : W)
  : option string * W :=
  if negb (service g) then (None, w)
  else
    match events_insert (calendar_id g) (build_google_event outlook_event) w with
    | (ApiOk id, w') => (Some id, w')
    | (HttpError _, w') => (None, w')
    end.

(** the first listed event whose title, without the cosmetic prefix, is the
    title looked for *)
Fixpoint first_same_title (target_title : string) (events : list calendar_item)
  : option string :=
  match events with
  | [] => None
  | event :: rest =>
      let event_title := match item_summary event with Some t => t | None => "" end in
      let clean_title := Str.remove_all envelope event_title in
      if (clean_title =? target_title)%string then item_id event
      else first_same_title target_title rest
  end.

Definition check_event_exists (g : GoogleSync) (outlook_event : Event) (w : W)
  : option string * W :=
  if negb (service g) then (None, w)
  else
    let start_time := start_date outlook_event in
    let same_day_start :=
      mk_datetime (year start_time) (month start_time) (day start_time) 0 0 0 0 in
    let same_day_end :=
      mk_datetime (year start_time) (month start_time) (day start_time) 23 59 59 0 in
    let time_min := isoformat same_day_start ++ "+09:00" in
    let time_max := isoformat same_day_end ++ "+09:00" in
    match events_list (calendar_id g) time_min time_max w with
    | (ApiOk events, w') => (first_same_title (title outlook_event) events, w')
    | (HttpError _, w') => (None, w')
    end.

Definition delete_event (g : GoogleSync) (google_event_id : json) (w : W) : bool * W :=
  if negb (service g) then (false, w)
  else
    match events_delete (calendar_id g) google_event_id w with
    | (ApiOk _, w') => (true, w')
    | (HttpError status, w') => (status =? 404, w')
    end.

End Google.

(** ** [SyncMonitor] *)

(** [self.synced_events] *)
Definition ledger : Type := Dict.t json.

(** [old_id.startswith('outlook--') and old_id[9:].lstrip('-').isdigit()] *)
Definition is_old_style_id (old_id : string) : bool :=
  Str.startswith "outlook--" old_id
  && Str.isdigit (Str.lstrip_char "-" (Str.drop 9 old_id)).

(** What [migrate_old_ids] holds in its local variables when it returns. *)
Record migration_locals : Type := mk_locals {
  migrated_events : ledger;
  migration_count : nat
}.

Fixpoint migrate_loop (items : ledger) (acc : migration_locals) : outcome migration_locals :=
  match items with
  | [] => Ret acc
  | (old_id, event_info) :: rest =>
      if is_old_style_id old_id then
        match json_get event_info "title" (JStr ""),
              json_get event_info "event_date" (JStr "") with
        | Ret _, Ret _ =>
            migrate_loop rest (mk_locals (migrated_events acc) (S (migration_count acc)))
        | Raise x, _ => Raise x
        | _, Raise x => Raise x
        end
      else
        migrate_loop rest
          (mk_locals (Dict.set old_id event_info (migrated_events acc)) (migration_count acc))
  end.

(** [migrate_old_ids]: the mapping of the monitor after the call, with the
    locals; nothing is assigned to [self.synced_events]. *)
Definition migrate_old_ids (synced_events : ledger) : outcome (ledger * migration_locals) :=
  match migrate_loop synced_events (mk_locals [] 0) with
  | Ret locals => Ret (synced_events, locals)
  | Raise x => Raise x
  end.

(** [is_synced] *)
Definition is_synced (event : Event) (synced_events : ledger) : bool :=
  Dict.mem (event_id event) synced_events.

(** [get_synced_event_ids] *)
Definition get_synced_event_ids (synced_events : ledger) : list string :=
  nodup string_dec (Dict.keys synced_events).

(** [remove_synced_event] *)
Definition remove_synced_event (event_id : string) (synced_events : ledger) : ledger :=
  if Dict.mem event_id synced_events then Dict.del event_id synced_events
  else synced_events.

(** [x.strip()] of a value read from an entry *)
Definition json_strip (v : json) : outcome string :=
  match v with
  | JStr s => Ret (Str.strip s)
  | _ => Raise AttributeError
  end.

(** [v == s] for a string [s] *)
Definition json_eq_str (v : json) (s : string) : bool :=
  match v with
  | JStr s' => (s' =? s)%string
  | _ => false
  end.

(** the test of lines 502-503: stripped titles equal, and stored
    [event_date] equal to the start of the new event *)
Definition old_entry_matches (old_info : json) (new_event : Event) : outcome bool :=
  match json_get old_info "title" (JStr "") with
  | Raise x => Raise x
  | Ret t =>
      match json_strip t with
      | Raise x => Raise x
      | Ret stripped =>
          if (stripped =? Str.strip (title new_event))%string then
            match json_get old_info "event_date" (JStr "") with
            | Raise x => Raise x
            | Ret d => Ret (json_eq_str d (isoformat (start_date new_event)))
            end
          else Ret false
      end
  end.

(** [find_matching_old_event] *)
Fixpoint find_matching_old_event (synced_events : ledger) (new_event : Event)
  : outcome (option string) :=
  match synced_events with
  | [] => Ret None
  | (old_id, old_info) :: rest =>
      if is_old_style_id old_id then
        match old_entry_matches old_info new_event with
        | Raise x => Raise x
        | Ret true => Ret (Some old_id)
        | Ret false => find_matching_old_event rest new_event
        end
      else find_matching_old_event rest new_event
  end.

Section Monitor.

Context {W : Type} `{Platform W}.

(** Whether [cleanup_old_events] lists an entry: [Raise] is the
    [AttributeError] of [event_info.get] on a value that is no dictionary,
    which the [except (ValueError, TypeError)] clause lets through. *)
Definition is_old_event (cutoff_date : datetime) (event_info : json) : outcome bool :=
  match json_get event_info "synced_date" (JStr "") with
  | Raise x => Raise x
  | Ret (JStr s) =>
      match fromisoformat s with
      | Some (Naive synced_date) => Ret (datetime_lt synced_date cutoff_date)
      | Some (Aware _ _) => Ret true      (* TypeError: naive against aware *)
      | None => Ret true                  (* ValueError *)
      end
  | Ret _ => Ret true                     (* TypeError: not a string *)
  end.

Fixpoint old_events_of (cutoff_date : datetime) (items : ledger) : outcome (list string) :=
  match items with
  | [] => Ret []
  | (event_id, event_info) :: rest =>
      match is_old_event cutoff_date event_info with
      | Raise x => Raise x
      | Ret b =>
          match old_events_of cutoff_date rest with
          | Raise x => Raise x
          | Ret old_events => Ret (if b then event_id :: old_events else old_events)
          end
      end
  end.

(** [cleanup_old_events] *)
Definition cleanup_old_events (synced_events : ledger) (w : W) : outcome ledger * W :=
  let (t, w1) := now w in
  let cutoff_date := minus_days t 60 in
  match old_events_of cutoff_date synced_events with
  | Raise x => (Raise x, w1)
  | Ret old_events =>
      (Ret (fold_left (fun d event_id => Dict.del event_id d) old_events synced_events), w1)
  end.

(** [mark_synced] *)
Definition mark_synced (event : Event) (google_event_id : option string)
  (synced_events : ledger) (w : W) : ledger * W :=
  let (t, w1) := now w in
  (Dict.set (event_id event)
     (JDict [("synced_date", JStr (isoformat t));
             ("event_date", JStr (isoformat (start_date event)));
             ("title", JStr (title event));
             ("google_event_id", json_of_id google_event_id)])
     synced_events, w1).

(** [update_event_id] *)
Definition update_event_id (old_id new_id : string) (new_event : Event)
  (synced_events : ledger) (w : W) : outcome ledger * W :=
  match Dict.get old_id synced_events with
  | None => (Ret synced_events, w)
  | Some (JDict old_data) =>
      let (t, w1) := now w in
      let old_data :=
        Dict.update [("synced_date", JStr (isoformat t));
                     ("event_date", JStr (isoformat (start_date new_event)));
                     ("title", JStr (title new_event))] old_data in
      (Ret (Dict.del old_id (Dict.set new_id (JDict old_data) synced_events)), w1)
  | Some _ => (Raise AttributeError, w)
  end.

(** The persisted file as [load_state] finds it. *)
Inductive state_file : Type :=
| FileStatFails              (** [self.state_file.exists()] raises: no access *)
| FileMissing                 (** [self.state_file.exists()] is false *)
| FileUnreadable              (** [open] raises *)
| FileNotJson                 (** [json.load] raises *)
| FileJson (state : json).    (** [json.load] returns [state] *)

(** [{event_id: {'synced_date': datetime.now().isoformat()} for event_id in
    synced_events_data}].  A list or dictionary among the identifiers is
    unhashable ([TypeError], once its value has been built).  An identifier that is no string is kept by
    Python and makes [migrate_old_ids] raise [AttributeError] at
    [old_id.startswith]; [all_str] says whether none was met. *)
Fixpoint convert_old_format (ids : list json) (acc : ledger) (all_str : bool) (w : W)
  : outcome ledger * W :=
  match ids with
  | [] => (if all_str then Ret acc else Raise AttributeError, w)
  | JList _ :: _ => let (t, w1) := now w in (Raise TypeError, w1)
  | JDict _ :: _ => let (t, w1) := now w in (Raise TypeError, w1)
  | JStr event_id :: rest =>
      let (t, w1) := now w in
      convert_old_format rest
        (Dict.set event_id (JDict [("synced_date", JStr (isoformat t))]) acc) all_str w1
  | _ :: rest =>
      let (t, w1) := now w in
      convert_old_format rest acc false w1
  end.

(** the body of the [try] in [load_state], after [json.load] *)
Definition load_json (state : json) (w : W) : outcome ledger * W :=
  match json_get state "synced_events" (JList []) with
  | Raise x => (Raise x, w)
  | Ret synced_events_data =>
      let loaded :=
        match synced_events_data with
        | JList ids => convert_old_format ids [] true w
        | JDict d => (Ret d, w)
        | JStr _ => (Raise AttributeError, w)     (* no [items] in [migrate_old_ids] *)
        | _ => (Raise TypeError, w)                (* no [len] *)
        end in
      match loaded with
      | (Raise x, w1) => (Raise x, w1)
      | (Ret synced_events, w1) =>
          match migrate_old_ids synced_events with
          | Raise x => (Raise x, w1)
          | Ret (synced_events, _) => cleanup_old_events synced_events w1
          end
      end
  end.

(** [load_state], from the mapping [self.synced_events] holds before.  The
    test [self.state_file.exists()] stands before the [try]: what it raises
    leaves the method. *)
Definition load_state (synced_events : ledger) (f : state_file) (w : W)
  : outcome ledger * W :=
  match f with
  | FileStatFails => (Raise PermissionError, w)
  | FileMissing => (Ret synced_events, w)
  | FileUnreadable => (Ret [], w)
  | FileNotJson => (Ret [], w)
  | FileJson state =>
      match load_json state w with
      | (Ret loaded, w1) => (Ret loaded, w1)
      | (Raise _, w1) => (Ret [], w1)
      end
  end.

(** [SyncMonitor.__init__] *)
Definition SyncMonitor_init (f : state_file) (w : W) : outcome ledger * W :=
  load_state [] f w.

End Monitor.

(** ** The cycle: [sync_events] *)

(** What a cycle does to the outside: the calls to [GoogleSync] with their
    results (a deletion is recorded with the ledger key it was made for) and
    the writes of the state file. *)
Inductive call : Type :=
| CheckExists (event : Event) (result : option string)
| CreateEvent (event : Event) (result : option string)
| DeleteEvent (event_id : string) (google_event_id : json) (result : bool)
| SaveState (synced_events : ledger).

Section Cycle.

Context {W : Type} `{Platform W}.

(** A computation over [monitor.synced_events] and the world, which returns
    or raises and lists the calls it made. *)
Definition M (A : Type) : Type :=
  ledger * W -> outcome A * (ledger * W) * list call.

Definition ret {A : Type} (a : A) : M A := fun s => (Ret a, s, []).

Definition bind {A B : Type} (m : M A) (k : A -> M B) : M B :=
  fun s =>
    match m s with
    | (Ret a, s1, tr1) =>
        match k a s1 with
        | (r, s2, tr2) => (r, s2, (tr1 ++ tr2)%list)
        end
    | (Raise x, s1, tr1) => (Raise x, s1, tr1)
    end.

Definition get_synced_events : M ledger := fun s => (Ret (fst s), s, []).

Definition set_synced_events (l : ledger) : M unit := fun s => (Ret tt, (l, snd s), []).

Definition try_ {A : Type} (o : outcome A) : M A := fun s => (o, s, []).

Definition in_world {A : Type} (f : W -> A * W) : M A :=
  fun s => let (a, w) := f (snd s) in (Ret a, (fst s, w), []).

Definition emit (c : call) : M unit := fun s => (Ret tt, s, [c]).

Notation "x <- m ;; k" := (bind m (fun x => k))
  (at level 61, m at next level, right associativity).
Notation "m ;;; k" := (bind m (fun _ => k))
  (at level 61, right associativity).

(** [monitor.save_state()] *)
Definition save_state : M unit :=
  l <- get_synced_events ;; emit (SaveState l).

(** [monitor.mark_synced(event, google_event_id)] *)
Definition do_mark_synced (event : Event) (google_event_id : option string) : M unit :=
  fun s => let (l, w) := mark_synced event google_event_id (fst s) (snd s) in
           (Ret tt, (l, w), []).

(** [monitor.update_event_id(old_id, new_id, event)] *)
Definition do_update_event_id (old_id new_id : string) (event : Event) : M unit :=
  fun s =>
    match update_event_id old_id new_id event (fst s) (snd s) with
    | (Ret l, w) => (Ret tt, (l, w), [])
    | (Raise x, w) => (Raise x, (fst s, w), [])
    end.

(** the listing of the stored events printed at the start of a cycle:
    [stored_info.get('title', 'Unknown')] for every entry *)
Fixpoint print_stored (items : ledger) : outcome unit :=
  match items with
  | [] => Ret tt
  | (_, stored_info) :: rest =>
      match json_get stored_info "title" (JStr "Unknown") with
      | Raise x => Raise x
      | Ret _ => print_stored rest
      end
  end.

(** lines 662-667: the event is looked up in the calendar; [true] when it is
    to be appended to [new_events] *)
Definition reconcile (g : GoogleSync) (event : Event) : M bool :=
  existing_google_event_id <- in_world (check_event_exists g event) ;;
  emit (CheckExists event existing_google_event_id) ;;;
  if truthy existing_google_event_id
  then do_mark_synced event existing_google_event_id ;;; ret false
  else ret true.

(** one turn of the loop of lines 649-667 *)
Definition classify_one (g : GoogleSync) (event : Event) : M bool :=
  synced_events <- get_synced_events ;;
  if is_synced event synced_events then ret false
  else
    old_event_match <- try_ (find_matching_old_event synced_events event) ;;
    match old_event_match with
    | Some old_id =>
        if truthy old_event_match
        then do_update_event_id old_id (event_id event) event ;;; ret false
        else reconcile g event
    | None => reconcile g event
    end.

(** lines 648-667; the result is [new_events] *)
Fixpoint classify (g : GoogleSync) (events : list Event) : M (list Event) :=
  match events with
  | [] => ret []
  | event :: rest =>
      is_new <- classify_one g event ;;
      new_events <- classify g rest ;;
      ret (if is_new then event :: new_events else new_events)
  end.

(** one turn of the loop of lines 671-679 *)
Definition create_one (g : GoogleSync) (event : Event) : M unit :=
  google_event_id <- in_world (create_event g event) ;;
  emit (CreateEvent event google_event_id) ;;;
  if truthy google_event_id
  then do_mark_synced event google_event_id
  else ret tt.

Fixpoint create_loop (g : GoogleSync) (new_events : list Event) : M unit :=
  match new_events with
  | [] => ret tt
  | event :: rest => create_one g event ;;; create_loop g rest
  end.

(** lines 669-683 *)
Definition sync_new (g : GoogleSync) (new_events : list Event) : M unit :=
  match new_events with
  | [] => ret tt
  | _ => create_loop g new_events ;;; save_state
  end.

(** [synced_event_ids - current_event_ids] *)
Definition deleted_event_ids (events : list Event) (synced_events : ledger) : list string :=
  filter (fun k => negb (existsb (String.eqb k) (map event_id events)))
         (get_synced_event_ids synced_events).

(** one turn of the loop of lines 692-706 *)
Definition delete_one (g : GoogleSync) (event_id : string) : M unit :=
  synced_events <- get_synced_events ;;
  let event_info :=
    match Dict.get event_id synced_events with
    | Some v => v
    | None => JDict []
    end in
  google_event_id <- try_ (json_get event_info "google_event_id" JNull) ;;
  event_title <- try_ (json_get event_info "title" (JStr "Unknown")) ;;
  if py_truthy google_event_id then
    deleted <- in_world (delete_event g google_event_id) ;;
    emit (DeleteEvent event_id google_event_id deleted) ;;;
    if deleted
    then set_synced_events (remove_synced_event event_id synced_events)
    else ret tt
  else set_synced_events (remove_synced_event event_id synced_events).

Fixpoint delete_loop (g : GoogleSync) (ids : list string) : M unit :=
  match ids with
  | [] => ret tt
  | event_id :: rest => delete_one g event_id ;;; delete_loop g rest
  end.

(** lines 685-708 *)
Definition detect_deleted (g : GoogleSync) (events : list Event) : M unit :=
  synced_events <- get_synced_events ;;
  match deleted_event_ids events synced_events with
  | [] => ret tt
  | ids =>
      order <- in_world (fun w => (set_iter w ids, w)) ;;
      delete_loop g order ;;; save_state
  end.

(** [sync_events], given the snapshot [outlook.get_events] returned *)
Definition sync_events (g : GoogleSync) (events : list Event) : M unit :=
  synced_events <- get_synced_events ;;
  try_ (print_stored synced_events) ;;;
  new_events <- classify g events ;;
  sync_new g new_events ;;;
  detect_deleted g events.

End Cycle.

(** ** A scripted platform, to run the model *)

Module Sim.

(** The clock stands still; every request to the service takes the next
    answer of its script, and a default when the script has run out. *)
Record world : Type := mk_world {
  clock : datetime;
  inserts : list (api_result string);
  lists : list (api_result (list calendar_item));
  deletes : list (api_result unit)
}.

Fixpoint read_digits (n : nat) (s : string) (acc : Z) : option (Z * string) :=
  match n with
  | O => Some (acc, s)
  | S n' =>
      match s with
      | String a s' =>
          if Str.is_digit a
          then read_digits n' s' (10 * acc + Z.of_nat (nat_of_ascii a) - 48)
          else None
      | EmptyString => None
      end
  end.

Definition expect (c : ascii) (x : option (Z * string)) : option string :=
  match x with
  | Some (_, String a s') => if Ascii.eqb a c then Some s' else None
  | _ => None
  end.

Definition valid (d : datetime) : bool :=
  (1 <=? year d) && (year d <=? 9999) && (1 <=? month d) && (month d <=? 12)
  && (1 <=? day d) && (day d <=? Ordinal.days_in_month (year d) (month d))
  && (hour d <=? 23) && (minute d <=? 59) && (second d <=? 59).

(** the parser of the scripted platform: it reads what [isoformat] writes
    for a naive datetime, [YYYY-MM-DDTHH:MM:SS] and
    [YYYY-MM-DDTHH:MM:SS.ffffff], and none of the other forms
    [datetime.fromisoformat] accepts; the theorems are over every parser *)
Definition parse (s : string) : option parsed_datetime :=
  let y := read_digits 4 s 0 in
  match expect "-" y with None => None | Some s1 =>
  let mo := read_digits 2 s1 0 in
  match expect "-" mo with None => None | Some s2 =>
  let d := read_digits 2 s2 0 in
  match expect "T" d with None => None | Some s3 =>
  let h := read_digits 2 s3 0 in
  match expect ":" h with None => None | Some s4 =>
  let mi := read_digits 2 s4 0 in
  match expect ":" mi with None => None | Some s5 =>
  match y, mo, d, h, mi, read_digits 2 s5 0 with
  | Some (y, _), Some (mo, _), Some (d, _), Some (h, _), Some (mi, _), Some (sec, rest) =>
      let us :=
        match rest with
        | EmptyString => Some 0
        | String "." frac =>
            match read_digits 6 frac 0 with
            | Some (us, EmptyString) => Some us
            | _ => None
            end
        | _ => None
        end in
      match us with
      | Some us =>
          let r := mk_datetime y mo d h mi sec us in
          if valid r then Some (Naive r) else None
      | None => None
      end
  | _, _, _, _, _, _ => None
  end end end end end end.

#[global] Instance platform : Platform world := {
  now := fun w => (clock w, w);
  fromisoformat := parse;
  events_insert := fun _ _ w =>
    match inserts w with
    | r :: rest => (r, mk_world (clock w) rest (lists w) (deletes w))
    | [] => (HttpError 503, w)
    end;
  events_list := fun _ _ _ w =>
    match lists w with
    | r :: rest => (r, mk_world (clock w) (inserts w) rest (deletes w))
    | [] => (ApiOk [], w)
    end;
  events_delete := fun _ _ w =>
    match deletes w with
    | r :: rest => (r, mk_world (clock w) (inserts w) (lists w) rest)
    | [] => (HttpError 503, w)
    end;
  set_iter := fun _ l => l;
  fromisoformat_empty := eq_refl;
  set_iter_perm := fun _ l => Permutation_refl l
}.

Definition google : GoogleSync := mk_google true "primary".

Definition june_1st : datetime := mk_datetime 2024 6 1 9 0 0 0.

Definition sync_review : Event :=
  mk_event "Sync Review" (mk_datetime 2024 6 1 10 0 0 0) (mk_datetime 2024 6 1 11 0 0 0)
           "" "Calendar" "alice" "" "" "" "".

(** a world in which nothing is scripted, on the morning of 1 June 2024 *)
Definition quiet : world := mk_world june_1st [] [] [].

Definition entry (synced_date event_date title : string) (google_event_id : json) : json :=
  JDict [("synced_date", JStr synced_date); ("event_date", JStr event_date);
         ("title", JStr title); ("google_event_id", google_event_id)].

(** an entry synced in January, five months before [june_1st] *)
Definition january_ledger : ledger :=
  [("outlook-7308de134f927982",
    entry "2024-01-01T09:00:00" "2024-06-01T10:00:00" "Sync Review" (JStr "g1"))].

Definition january_file : state_file :=
  FileJson (JDict [("synced_events", JDict january_ledger)]).

(** a fresh entry, an aged one and one without [synced_date] *)
Definition mixed_ledger : ledger :=
  [("outlook-00000000000000aa",
    entry "2024-05-30T09:00:00" "2024-06-02T10:00:00" "Planning" (JStr "g7"));
   ("outlook-7308de134f927982",
    entry "2024-01-01T09:00:00" "2024-06-01T10:00:00" "Sync Review" (JStr "g1"));
   ("outlook-00000000000000bb",
    JDict [("title", JStr "Retro"); ("google_event_id", JStr "g9")])].

(** the entry of [sync_review] and three entries whose events are gone: one
    with a remote identifier, one without, one with a remote identifier *)
Definition deletion_ledger : ledger :=
  [("outlook-7308de134f927982",
    entry "2024-05-31T09:00:00" "2024-06-01T10:00:00" "Sync Review" (JStr "g1"));
   ("outlook-00000000000000aa",
    entry "2024-05-30T09:00:00" "2024-05-31T10:00:00" "Planning" (JStr "g7"));
   ("outlook-00000000000000bb",
    entry "2024-05-30T09:00:00" "2024-05-31T11:00:00" "Retro" JNull);
   ("outlook-00000000000000cc",
    entry "2024-05-30T09:00:00" "2024-05-31T12:00:00" "Demo" (JStr "g9"))].

(** the service answers the first deletion with 404, the second with 500 *)
Definition deleting : world := mk_world june_1st [] [] [HttpError 404; HttpError 500].

(** the service accepts one insertion and returns [g1] *)
Definition accepting : world := mk_world june_1st [ApiOk "g1"] [] [].

(** the ledger after [sync_review] was created as [g1] *)
Definition review_ledger : ledger :=
  [("outlook-7308de134f927982",
    entry "2024-06-01T09:00:00" "2024-06-01T10:00:00" "Sync Review" (JStr "g1"))].

(** the service accepts two insertions *)
Definition accepting_twice : world := mk_world june_1st [ApiOk "g1"; ApiOk "g2"] [] [].

(** the calendar already lists the mirror of [sync_review] as [g5] *)
Definition listing : world :=
  mk_world june_1st []
    [ApiOk [mk_item (Some (envelope ++ "Sync Review")) (Some "g5")]] [].

(** the ledger after [sync_review] was found in the calendar as [g5] *)
Definition found_ledger : ledger :=
  [("outlook-7308de134f927982",
    entry "2024-06-01T09:00:00" "2024-06-01T10:00:00" "Sync Review" (JStr "g5"))].

(** the service refuses the first insertion and accepts the second *)
Definition refusing_once : world :=
  mk_world june_1st [HttpError 500; ApiOk "g1"] [] [].

Definition standup : Event :=
  mk_event "Standup" (mk_datetime 2024 6 3 9 30 0 0) (mk_datetime 2024 6 3 9 45 0 0)
           "" "Calendar" "bob" "" "" "" "".

Definition standup_old_data : Dict.t json :=
  [("synced_date", JStr "2024-05-28T08:00:00");
   ("event_date", JStr "2024-06-03T09:30:00");
   ("title", JStr "Standup");
   ("google_event_id", JStr "g3")].

(** a ledger that holds [standup] under an identifier of the old scheme *)
Definition legacy_ledger : ledger := [("outlook--123456", JDict standup_old_data)].

(** [legacy_ledger] after a cycle over [standup] on [june_1st] *)
Definition migrated_ledger : ledger :=
  [("outlook-fc9a2b8016ab2002",
    JDict [("synced_date", JStr "2024-06-01T09:00:00");
           ("event_date", JStr "2024-06-03T09:30:00");
           ("title", JStr "Standup");
           ("google_event_id", JStr "g3")])].

Definition mixed_file : state_file :=
  FileJson (JDict [("synced_events", JDict mixed_ledger)]).

End Sim.

(** ** Vocabulary of the properties *)

(** two events whose title, start time and organizer all differ *)
Definition ambiguous_a : Event :=
  mk_event "X-2024-01-01T00:00:00" (mk_datetime 2024 1 2 0 0 0 0)
           (mk_datetime 2024 1 2 1 0 0 0) "" "Calendar" "o" "" "" "" "".

Definition ambiguous_b : Event :=
  mk_event "X" (mk_datetime 2024 1 1 0 0 0 0)
           (mk_datetime 2024 1 1 1 0 0 0) "" "Calendar" "2024-01-02T00:00:00-o" "" "" "" "".


(** every value of the mapping is a dictionary *)
Definition all_dicts (l : ledger) : Prop :=
  forall k v, In (k, v) l -> exists d, v = JDict d.

Section Vocabulary.

Context {W : Type} `{Platform W}.

(** the entry has a [synced_date] that parses as a naive date, not earlier
    than sixty days before [t] *)
Definition fresh_entry (t : datetime) (v : json) : Prop :=
  exists s d,
    json_get v "synced_date" (JStr "") = Ret (JStr s)
    /\ fromisoformat s = Some (Naive d)
    /\ datetime_lt d (minus_days t 60) = false.

(** the entry has no [synced_date], or one that is no string, or a string
    that does not parse *)
Definition no_valid_date (d : Dict.t json) : Prop :=
  match Dict.get "synced_date" d with
  | None => True
  | Some (JStr s) => fromisoformat s = None
  | Some _ => True
  end.

(** [cleanup_old_events] lists the entry *)
Definition stale (cutoff_date : datetime) (v : json) : bool :=
  match is_old_event cutoff_date v with
  | Ret b => b
  | Raise _ => false
  end.

End Vocabulary.

(** the entry [update_event_id] writes under the new identifier, from the
    data of the old entry and the clock reading [t] *)
Definition migrated_entry (t : datetime) (new_event : Event) (old_data : Dict.t json) : json :=
  JDict (Dict.update [("synced_date", JStr (isoformat t));
                      ("event_date", JStr (isoformat (start_date new_event)));
                      ("title", JStr (title new_event))] old_data).

(** the entry [mark_synced] writes at the clock reading [t] *)
Definition synced_entry (t : datetime) (event : Event) (google_event_id : option string) : json :=
  JDict [("synced_date", JStr (isoformat t));
         ("event_date", JStr (isoformat (start_date event)));
         ("title", JStr (title event));
         ("google_event_id", json_of_id google_event_id)].

(** a creation returned an identifier, a deletion reported success *)
Definition call_succeeded (c : call) : Prop :=
  match c with
  | CreateEvent _ r => truthy r = true
  | DeleteEvent _ _ ok => ok = true
  | _ => True
  end.

(** the identifier a call is about, when it is about one *)
Definition call_id (c : call) : option string :=
  match c with
  | CheckExists e _ => Some (event_id e)
  | CreateEvent e _ => Some (event_id e)
  | DeleteEvent k _ _ => Some k
  | SaveState _ => None
  end.

Definition is_remote_call (c : call) : bool :=
  match c with
  | SaveState _ => false
  | _ => true
  end.

(** the calls of a trace that concern the identifier [k] *)
Definition calls_about (k : string) (tr : list call) : list call :=
  filter (fun c => match call_id c with
                   | Some k' => String.eqb k' k
                   | None => false
                   end) tr.

(** [monitor.synced_events.get(event_id, {}).get('google_event_id')] *)
Definition stored_google_event_id (event_id : string) (synced_events : ledger) : outcome json :=
  json_get (match Dict.get event_id synced_events with
            | Some v => v
            | None => JDict []
            end) "google_event_id" JNull.



(** ** More of [str]: [in], [split], [join] *)

Module Text.

Definition of_bytes (bs : list Z) : string :=
  string_of_list_ascii (map (fun b => ascii_of_nat (Z.to_nat b)) bs).

(** [old in s], for a non-empty [old] *)
Fixpoint contains (old s : string) : bool :=
  (Str.startswith old s
   || match s with
      | EmptyString => false
      | String _ s' => contains old s'
      end)%bool.

(** [s.split(sep)] for a non-empty [sep]: the pieces of what is left of [s],
    [skip] counting the characters of a separator still to drop *)
Fixpoint split_from (sep : string) (skip : nat) (s : string) : list string :=
  match s with
  | EmptyString => [EmptyString]
  | String a s' =>
      match skip with
      | S k => split_from sep k s'
      | O =>
          if Str.startswith sep s
          then EmptyString :: split_from sep (String.length sep - 1) s'
          else
            match split_from sep 0 s' with
            | piece :: pieces => String a piece :: pieces
            | [] => [String a EmptyString]
            end
      end
  end.

Definition split (sep s : string) : list string := split_from sep 0 s.

(** [sep.join(fields)] *)
Fixpoint join (sep : string) (fields : list string) : string :=
  match fields with
  | [] => EmptyString
  | [f] => f
  | f :: rest => f ++ sep ++ join sep rest
  end.

End Text.

(** ** [OutlookReader]: from the output of the script to the snapshot *)

(** the separator the script puts between the fields of an event *)
Definition field_separator : string := "|#|".

Definition pm : string := Text.of_bytes [236; 152; 164; 237; 155; 132].

Definition am : string := Text.of_bytes [236; 152; 164; 236; 160; 132].

(** The groups of a match of [korean_pattern], the numbers through [int]. *)
Record korean_date : Type := mk_korean_date {
  k_year : Z;
  k_month : Z;
  k_day : Z;
  k_am_pm : string;
  k_hour : Z;
  k_minute : Z;
  k_second : Z
}.

(** lines 219-223: the hour on the 24-hour clock *)
Definition to_24_hour (am_pm : string) (hour : Z) : Z :=
  if ((am_pm =? pm)%string && negb (hour =? 12))%bool then hour + 12
  else if ((am_pm =? am)%string && (hour =? 12))%bool then 0
  else hour.

(** the arguments [datetime(...)] accepts; it raises [ValueError] on others *)
Definition constructible (d : datetime) : bool :=
  (1 <=? year d) && (year d <=? 9999) && (1 <=? month d) && (month d <=? 12)
  && (1 <=? day d) && (day d <=? Ordinal.days_in_month (year d) (month d))
  && (0 <=? hour d) && (hour d <=? 23) && (0 <=? minute d) && (minute d <=? 59)
  && (0 <=? second d) && (second d <=? 59)
  && (0 <=? microsecond d) && (microsecond d <=? 999999).

(** [run_applescript], given what [subprocess.run] gives: the return code
    and the standard output of the script, or nothing when it raises (on a
    timeout among others) *)
Definition run_applescript (completed : option (Z * string)) : option string :=
  match completed with
  | Some (returncode, stdout) =>
      if returncode =? 0 then Some (Str.strip stdout) else None
  | None => None
  end.

Section Reader.

Context {W : Type} `{Platform W}.

(** [re.search(korean_pattern, ...)] on the string from which [re.sub] took
    the day of the week *)
Variable korean_search : string -> option korean_date.

(** [parse_date]: a date the constructor refuses, like a string that does
    not match, gives the current time *)
Definition parse_date (date_str : string) (w : W) : datetime * W :=
  match korean_search date_str with
  | Some m =>
      let d := mk_datetime (k_year m) (k_month m) (k_day m)
                 (to_24_hour (k_am_pm m) (k_hour m)) (k_minute m) (k_second m) 0 in
      if constructible d then (d, w) else now w
  | None => now w
  end.

(** lines 165-193 for one line: nothing when the line has fewer than four
    fields; the last clock reading is that of ['last_modified'] *)
Definition event_of_line (line : string) (w : W) : option Event * W :=
  let parts := Text.split field_separator line in
  if (4 <=? List.length parts)%nat then
    let (start_date, w1) := parse_date (nth 1 parts "") w in
    let (end_date, w2) := parse_date (nth 2 parts "") w1 in
    let (_, w3) := now w2 in
    (Some (mk_event (nth 0 parts "") start_date end_date (nth 4 parts "")
             (nth 3 parts "") (nth 5 parts "") (nth 6 parts "") (nth 7 parts "")
             (nth 1 parts "") (nth 2 parts "")), w3)
  else (None, w).

(** the loop of lines 162-196 *)
Fixpoint events_of_lines (lines : list string) (w : W) : list Event * W :=
  match lines with
  | [] => ([], w)
  | line :: rest =>
      if (Str.strip line =? "")%string then events_of_lines rest w
      else
        match event_of_line line w with
        | (Some event, w1) =>
            let (events, w2) := events_of_lines rest w1 in (event :: events, w2)
        | (None, w1) => events_of_lines rest w1
        end
  end.

(** [get_events], given what [check_outlook_running] and [run_applescript]
    return *)
Definition get_events (outlook_running : bool) (result : option string) (w : W)
  : list Event * W :=
  if negb outlook_running then ([], w)
  else
    match result with
    | None => ([], w)
    | Some r =>
        if (r =? "")%string then ([], w)
        else events_of_lines (Text.split newline r) w
    end.

(** a whole [sync_events]: the time of the cycle is printed, the snapshot is
    read, then brought to the calendar *)
Definition sync_cycle (g : GoogleSync) (outlook_running : bool) (result : option string)
  : ledger * W -> outcome unit * (ledger * W) * list call :=
  fun s =>
    let (_, w0) := now (snd s) in
    let (events, w1) := get_events outlook_running result w0 in
    sync_events g events (fst s, w1).

(** [time.sleep(args.interval)]: what the pause between two cycles does to
    the clock and to the service *)
Variable sleep : W -> W.

(** the first turns of the [while True] loop of [main]; a turn is given by
    what [check_outlook_running] and [run_applescript] return in it *)
Fixpoint monitor_loop (g : GoogleSync) (turns : list (bool * option string))
  : ledger * W -> outcome unit * (ledger * W) * list call :=
  match turns with
  | [] => fun s => (Ret tt, s, [])
  | (outlook_running, result) :: rest =>
      fun s =>
        match sync_cycle g outlook_running result s with
        | (Ret _, (l1, w1), tr1) =>
            match monitor_loop g rest (l1, sleep w1) with
            | (r, s2, tr2) => (r, s2, (tr1 ++ tr2)%list)
            end
        | (Raise x, s1, tr1) => (Raise x, s1, tr1)
        end
  end.

End Reader.

(** ** The state file *)

(** what [save_state] leaves in the state file when it succeeds:
    [json.dump({'synced_events': self.synced_events}, f)] *)
Definition written_file (synced_events : ledger) : state_file :=
  FileJson (JDict [("synced_events", JDict synced_events)]).

(** every value is a dictionary and, under an identifier of the old scheme,
    its title is a string or is missing *)
Definition titled (l : ledger) : Prop :=
  forall k v, In (k, v) l ->
    exists d, v = JDict d
      /\ (is_old_style_id k = true ->
          match Dict.get "title" d with
          | Some (JStr _) => True
          | None => True
          | Some _ => False
          end).

(** ** A scripted reader *)

Module Feed.

Definition nyeon : string := Text.of_bytes [235; 133; 132].

Definition wol : string := Text.of_bytes [236; 155; 148].

Definition il : string := Text.of_bytes [236; 157; 188].

Definition saturday : string :=
  Text.of_bytes [237; 134; 160; 236; 154; 148; 236; 157; 188].

(** the first of June 2024, a Saturday, at the given time of day *)
Definition on_june_1st (am_pm time : string) : string :=
  "2024" ++ nyeon ++ " 6" ++ wol ++ " 1" ++ il ++ " " ++ saturday ++ " "
    ++ am_pm ++ " " ++ time.

Definition ten : string := on_june_1st am "10:00:00".

Definition eleven : string := on_june_1st am "11:00:00".

(** a time of day the pattern matches and the constructor refuses *)
Definition thirteen_pm : string := on_june_1st pm "13:00:00".

(** what the pattern finds in the dates above; it finds nothing elsewhere *)
Definition korean_search (s : string) : option korean_date :=
  if (s =? ten)%string then Some (mk_korean_date 2024 6 1 am 10 0 0)
  else if (s =? eleven)%string then Some (mk_korean_date 2024 6 1 am 11 0 0)
  else if (s =? thirteen_pm)%string then Some (mk_korean_date 2024 6 1 pm 13 0 0)
  else None.

(** the line of the script for [Sim.sync_review] *)
Definition review_fields : list string :=
  ["Sync Review"; ten; eleven; "Calendar"; ""; "alice"; ""; ""].

Definition review_line : string := Text.join field_separator review_fields.

(** [Sim.sync_review] as [get_events] reads it from [review_line] *)
Definition review_event : Event :=
  mk_event "Sync Review" (mk_datetime 2024 6 1 10 0 0 0) (mk_datetime 2024 6 1 11 0 0 0)
           "" "Calendar" "alice" "" "" ten eleven.

(** the pause leaves the world as it is *)
Definition sleep (w : Sim.world) : Sim.world := w.

End Feed.

(** ** Rows of fields *)

(** the character [c] occurs in [s] *)
Fixpoint occurs (c : ascii) (s : string) : bool :=
  match s with
  | EmptyString => false
  | String a s' => (Ascii.eqb a c || occurs c s')%bool
  end.

(** a field without the bar of the separator and without line feed *)
Definition plain (f : string) : bool :=
  (negb (occurs "|" f) && negb (occurs (ascii_of_nat 10) f))%bool.

(** the line of the script for a row of fields, and its output for rows *)
Definition line_of (row : list string) : string := Text.join field_separator row.

Definition output_of (rows : list (list string)) : string :=
  Text.join newline (map line_of rows).

(** the event carries the fields of [row], absent ones as empty strings, and
    its dates are what [parse_date] makes of the second and the third *)
Definition reads {W : Type} `{Platform W} (korean_search : string -> option korean_date)
  (row : list string) (e : Event) : Prop :=
  title e = nth 0 row "" /\ raw_start e = nth 1 row "" /\ raw_end e = nth 2 row ""
  /\ calendar_title e = nth 3 row "" /\ location e = nth 4 row ""
  /\ organizer e = nth 5 row "" /\ content e = nth 6 row ""
  /\ importance e = nth 7 row ""
  /\ (exists w : W, start_date e = fst (parse_date korean_search (nth 1 row "") w))
  /\ (exists w : W, end_date e = fst (parse_date korean_search (nth 2 row "") w)).

(** the result a call of the trace records is the one the method of
    [GoogleSync] returns in some state of the world *)
Definition answered {W : Type} `{Platform W} (g : GoogleSync) (c : call) : Prop :=
  match c with
  | CheckExists e x => exists w : W, x = fst (check_event_exists g e w)
  | CreateEvent e x => exists w : W, x = fst (create_event g e w)
  | DeleteEvent _ gid ok => exists w : W, ok = fst (delete_event g gid w)
  | SaveState _ => True
  end.

(** the call reports a failure: nothing found, nothing created, nothing
    deleted *)
Definition call_failed (c : call) : Prop :=
  match c with
  | CheckExists _ x => x = None
  | CreateEvent _ x => x = None
  | DeleteEvent _ _ ok => ok = false
  | SaveState _ => True
  end.

(** [str(n)] for an integer *)
Definition py_str (n : Z) : string :=
  if n <? 0 then "-" ++ Str.decimal (- n) else Str.decimal n.

(** ** More scripted data *)

Module Cases.

(** [Sim.sync_review] as a second calendar of Outlook lists it: another
    event, the same identifier *)
Definition review_in_work : Event :=
  mk_event "Sync Review" (mk_datetime 2024 6 1 10 0 0 0) (mk_datetime 2024 6 1 11 0 0 0)
           "" "Work" "alice" "" "" "" "".


(** an entry whose remote identifier is the empty string *)
Definition blank_id_ledger : ledger :=
  [("outlook-00000000000000dd",
    Sim.entry "2024-05-30T09:00:00" "2024-05-31T10:00:00" "Offsite" (JStr ""))].

(** a key of the old scheme written with the digits of another script,
    under which the title is [null] *)
Definition arabic_key : string :=
  "outlook--" ++ Text.of_bytes [217; 161; 217; 162; 217; 163].

Definition arabic_ledger : ledger :=
  [(arabic_key, JDict [("synced_date", JStr "2024-05-30T09:00:00"); ("title", JNull)])].

End Cases.
(** * Properties *)

Unset Implicit Arguments.

(** ** Test vectors *)

Example isoformat_whole_second :
  isoformat (mk_datetime 2024 6 1 10 0 0 0) = "2024-06-01T10:00:00".
Proof. reflexivity. Qed.

Example isoformat_fraction :
  isoformat (mk_datetime 2024 3 1 0 0 0 5) = "2024-03-01T00:00:00.000005".
Proof. reflexivity. Qed.

Example ordinal_2024_06_01 : Ordinal.ymd2ord 2024 6 1 = 739038.
Proof. reflexivity. Qed.

Example minus_60_days :
  minus_days (mk_datetime 2024 6 1 10 0 0 0) 60 = mk_datetime 2024 4 2 10 0 0 0.
Proof. reflexivity. Qed.

Example minus_60_days_leap_year :
  minus_days (mk_datetime 2024 3 1 0 0 0 0) 60 = mk_datetime 2024 1 1 0 0 0 0.
Proof. reflexivity. Qed.

Example minus_60_days_year_end :
  minus_days (mk_datetime 2023 12 31 23 59 59 0) 60 = mk_datetime 2023 11 1 23 59 59 0.
Proof. reflexivity. Qed.

Example minus_60_days_century :
  minus_days (mk_datetime 2100 3 1 0 0 0 0) 60 = mk_datetime 2099 12 31 0 0 0 0.
Proof. reflexivity. Qed.

Example minus_60_days_first_day :
  minus_days (mk_datetime 1 3 2 0 0 0 0) 60 = mk_datetime 1 1 1 0 0 0 0.
Proof. reflexivity. Qed.

Example ordinal_2000_12_31 : Ordinal.ymd2ord 2000 12 31 = 730485.
Proof. reflexivity. Qed.

Example january_before_cutoff :
  datetime_lt (mk_datetime 2024 1 1 9 0 0 0) (minus_days (mk_datetime 2024 6 1 9 0 0 0) 60)
  = true.
Proof. reflexivity. Qed.

Example cutoff_day_is_kept :
  datetime_lt (mk_datetime 2024 4 2 9 0 0 0) (minus_days (mk_datetime 2024 6 1 9 0 0 0) 60)
  = false.
Proof. reflexivity. Qed.

Example md5_empty : MD5.hexdigest "" = "d41d8cd98f00b204e9800998ecf8427e".
Proof. vm_compute. reflexivity. Qed.

Example md5_abc : MD5.hexdigest "abc" = "900150983cd24fb0d6963f7d28e17f72".
Proof. vm_compute. reflexivity. Qed.

Example md5_fox :
  MD5.hexdigest "The quick brown fox jumps over the lazy dog"
  = "9e107d9d372bb6826bd81d3542a419d6".
Proof. vm_compute. reflexivity. Qed.

Example md5_55_bytes :
  MD5.hexdigest "aaaaaaaaaaaaaaaaaaaaaaaaaaaaaaaaaaaaaaaaaaaaaaaaaaaaaaa"
  = "ef1772b6dff9a122358552954ad0df65".
Proof. vm_compute. reflexivity. Qed.

Example md5_56_bytes :
  MD5.hexdigest "aaaaaaaaaaaaaaaaaaaaaaaaaaaaaaaaaaaaaaaaaaaaaaaaaaaaaaaa"
  = "3b0c8ac703f828b04c6c197006d17218".
Proof. vm_compute. reflexivity. Qed.

Example md5_64_bytes :
  MD5.hexdigest "aaaaaaaaaaaaaaaaaaaaaaaaaaaaaaaaaaaaaaaaaaaaaaaaaaaaaaaaaaaaaaaa"
  = "014842d480b571495a4a0363793f7367".
Proof. vm_compute. reflexivity. Qed.

Example md5_72_bytes :
  MD5.hexdigest "TEXTCOLLBYfGiJUETHQ4hAcKSMd5zYpgqf1YRDhkmxHkhPWptrkoyz28wnI9V0aHeAuaKnak"
  = "faad49866e9498fc1719f5289e7a0269".
Proof. vm_compute. reflexivity. Qed.

Example sync_review_id : event_id Sim.sync_review = "outlook-7308de134f927982".
Proof. vm_compute. reflexivity. Qed.

Example strip_both_sides : Str.strip "  Stand up  " = "Stand up".
Proof. reflexivity. Qed.

(** white space of other scripts is stripped like a blank: the no-break
    space, the ideographic space and the next-line control *)
Example strip_unicode_spaces :
  Str.strip (Text.of_bytes [227; 128; 128; 194; 160; 83; 116; 97; 110; 100; 194; 133])
  = "Stand".
Proof. vm_compute. reflexivity. Qed.

Example strip_keeps_inner_space :
  Str.strip (Text.of_bytes [195; 169; 227; 128; 128; 98; 32])
  = Text.of_bytes [195; 169; 227; 128; 128; 98].
Proof. vm_compute. reflexivity. Qed.

(** digits of other scripts are digits: Arabic-Indic one, two, three; a
    superscript two; a vulgar fraction is not *)
Example isdigit_arabic : Str.isdigit (Text.of_bytes [217; 161; 217; 162; 217; 163]) = true.
Proof. vm_compute. reflexivity. Qed.

Example isdigit_superscript : Str.isdigit (Text.of_bytes [194; 178]) = true.
Proof. vm_compute. reflexivity. Qed.

Example isdigit_fraction : Str.isdigit (Text.of_bytes [194; 189]) = false.
Proof. vm_compute. reflexivity. Qed.

Example old_style_arabic : is_old_style_id Cases.arabic_key = true.
Proof. vm_compute. reflexivity. Qed.

Example remove_envelope : Str.remove_all envelope (envelope ++ "Standup") = "Standup".
Proof. reflexivity. Qed.

Example old_style_yes : is_old_style_id "outlook--123456" = true.
Proof. reflexivity. Qed.

Example old_style_more_dashes : is_old_style_id "outlook---5" = true.
Proof. reflexivity. Qed.

Example old_style_no_digits : is_old_style_id "outlook--" = false.
Proof. reflexivity. Qed.

Example old_style_letters : is_old_style_id "outlook--12a" = false.
Proof. reflexivity. Qed.

Example remove_every_envelope :
  Str.remove_all envelope (envelope ++ envelope ++ "x" ++ envelope ++ "y") = "xy".
Proof. reflexivity. Qed.

Example remove_all_left_to_right : Str.remove_all "aa" "aaa" = "a".
Proof. reflexivity. Qed.

Example old_style_no : is_old_style_id "outlook-7308de134f927982" = false.
Proof. reflexivity. Qed.

Example parse_written_date :
  Sim.parse "2024-06-01T10:00:00" = Some (Naive (mk_datetime 2024 6 1 10 0 0 0)).
Proof. vm_compute. reflexivity. Qed.

(** ** Dictionaries *)

Module DictFacts.

Section Facts.

Variable V : Type.
Implicit Types (d : Dict.t V) (k : string) (v : V).

Lemma get_set_same k v d : Dict.get k (Dict.set k v d) = Some v.
Proof.
  induction d as [|[k' v'] d IH]; simpl.
  - now rewrite String.eqb_refl.
  - destruct (String.eqb k' k) eqn:E; simpl; rewrite E; auto.
Qed.

Lemma get_set_other k k' v d :
  k <> k' -> Dict.get k' (Dict.set k v d) = Dict.get k' d.
Proof.
  intros Hne. induction d as [|[k0 v0] d IH]; simpl.
  - destruct (String.eqb_spec k k'); congruence.
  - destruct (String.eqb_spec k0 k); simpl.
    + subst. destruct (String.eqb_spec k k'); congruence.
    + now rewrite IH.
Qed.

Lemma get_del_same k d : Dict.get k (Dict.del k d) = None.
Proof.
  induction d as [|[k0 v0] d IH]; simpl; auto.
  destruct (String.eqb_spec k0 k); simpl; auto.
  destruct (String.eqb_spec k0 k); congruence.
Qed.

Lemma get_del_other k k' d :
  k <> k' -> Dict.get k' (Dict.del k d) = Dict.get k' d.
Proof.
  intros Hne. induction d as [|[k0 v0] d IH]; simpl; auto.
  destruct (String.eqb_spec k0 k); simpl.
  - subst. destruct (String.eqb_spec k k'); congruence.
  - now rewrite IH.
Qed.

Lemma mem_true_iff k d : Dict.mem k d = true <-> In k (Dict.keys d).
Proof.
  unfold Dict.mem. induction d as [|[k0 v0] d IH]; simpl.
  - split; [discriminate | tauto].
  - destruct (String.eqb_spec k0 k); simpl.
    + split; auto.
    + rewrite IH. split; [auto | intros [?|?]; congruence].
Qed.

Lemma mem_false_iff k d : Dict.mem k d = false <-> ~ In k (Dict.keys d).
Proof.
  rewrite <- mem_true_iff. destruct (Dict.mem k d); split; congruence.
Qed.

Lemma mem_get k d : Dict.mem k d = true <-> exists v, Dict.get k d = Some v.
Proof.
  unfold Dict.mem. destruct (Dict.get k d).
  - split; eauto.
  - split; [discriminate | intros [? ?]; discriminate].
Qed.

Lemma get_none_mem k d : Dict.get k d = None <-> Dict.mem k d = false.
Proof.
  unfold Dict.mem. destruct (Dict.get k d); split; congruence.
Qed.

Lemma get_in k v d : Dict.get k d = Some v -> In (k, v) d.
Proof.
  induction d as [|[k0 v0] d IH]; simpl; [discriminate|].
  destruct (String.eqb_spec k0 k); intros E.
  - left. congruence.
  - right. auto.
Qed.

Lemma in_keys k v d : In (k, v) d -> In k (Dict.keys d).
Proof. intros Hin. apply (in_map fst) in Hin. exact Hin. Qed.

Lemma in_get_nodup k v d :
  NoDup (Dict.keys d) -> In (k, v) d -> Dict.get k d = Some v.
Proof.
  induction d as [|[k0 v0] d IH]; simpl; [tauto|].
  intros Hnd [E|Hin].
  - inversion E; subst. now rewrite String.eqb_refl.
  - inversion Hnd; subst. destruct (String.eqb_spec k0 k).
    + subst. exfalso. eauto using in_keys.
    + auto.
Qed.

Lemma in_del k k' v d : In (k', v) (Dict.del k d) <-> In (k', v) d /\ k' <> k.
Proof.
  unfold Dict.del. rewrite filter_In. simpl.
  destruct (String.eqb_spec k' k); simpl; intuition congruence.
Qed.

Lemma keys_del k k' d : In k' (Dict.keys (Dict.del k d)) <-> In k' (Dict.keys d) /\ k' <> k.
Proof.
  unfold Dict.keys. rewrite !in_map_iff. split.
  - intros [[a b] [E Hin]]. simpl in E. subst. apply in_del in Hin.
    destruct Hin. split; auto. exists (k', b). auto.
  - intros [[[a b] [E Hin]] Hne]. simpl in E. subst.
    exists (k', b). split; auto. apply in_del. auto.
Qed.

Lemma in_set k k' v v' d :
  In (k', v') (Dict.set k v d) -> (k' = k /\ v' = v) \/ In (k', v') d.
Proof.
  induction d as [|[k0 v0] d IH]; simpl.
  - intros [E|[]]. inversion E. auto.
  - destruct (String.eqb_spec k0 k); simpl.
    + intros [E|Hin]; [inversion E; subst; auto | auto].
    + intros [E|Hin]; [auto | destruct (IH Hin); auto].
Qed.

Lemma keys_set k k' v d :
  In k' (Dict.keys (Dict.set k v d)) <-> k' = k \/ In k' (Dict.keys d).
Proof.
  rewrite <- !mem_true_iff, !mem_get. destruct (String.eqb_spec k k').
  - subst. rewrite get_set_same. split; eauto.
  - rewrite get_set_other by auto. split; auto. intros [?|?]; congruence.
Qed.

End Facts.

End DictFacts.

(** ** Identifiers *)

Lemma hex_digit_not_dash n : 0 <= n < 16 -> MD5.hex_digit n <> "-"%char.
Proof.
  intros Hn.
  assert (Hin : In n [0; 1; 2; 3; 4; 5; 6; 7; 8; 9; 10; 11; 12; 13; 14; 15])
    by (simpl; lia).
  simpl in Hin.
  repeat (destruct Hin as [Hin|Hin]; [subst n; vm_compute; discriminate|]).
  contradiction.
Qed.

Lemma hex_head_not_dash (bs : list Z) :
  match MD5.hex bs with
  | EmptyString => True
  | String c _ => c <> "-"%char
  end.
Proof.
  destruct bs as [|b bs]; simpl; auto.
  apply hex_digit_not_dash. apply Z.mod_pos_bound. lia.
Qed.

Lemma outlook_prefix (t : string) :
  Str.startswith "outlook--" ("outlook-" ++ t) = Str.startswith "-" t.
Proof. reflexivity. Qed.

(** An identifier of the current scheme is never taken for one of the old
    scheme: after [outlook-] comes a hexadecimal digit, not a second dash. *)
Lemma event_id_not_old_style (e : Event) : is_old_style_id (event_id e) = false.
Proof.
  unfold is_old_style_id, event_id, unique_id, MD5.hexdigest.
  rewrite outlook_prefix.
  generalize (MD5.digest (MD5.encode (hash_input (title e) (start_date e) (organizer e)))).
  intros bs. pose proof (hex_head_not_dash bs) as Hh.
  destruct (MD5.hex bs) as [|c r]; [reflexivity|].
  change (Str.startswith "-" (Str.take 16 (String c r)))
    with (Ascii.eqb "-" c && true)%bool.
  destruct (Ascii.eqb_spec "-"%char c) as [E|E]; [congruence | reflexivity].
Qed.

Lemma event_id_nonempty (e : Event) : event_id e <> "".
Proof. unfold event_id, unique_id. simpl. discriminate. Qed.

(** C2, as stated, fails: two events that differ in title, in start time and
    in organizer are given the same identifier, because the three fields are
    joined with a dash that the fields themselves may contain. *)
Lemma C2_distinct_fields_same_id :
  title ambiguous_a <> title ambiguous_b
  /\ start_date ambiguous_a <> start_date ambiguous_b
  /\ organizer ambiguous_a <> organizer ambiguous_b
  /\ event_id ambiguous_a = "outlook-cc61b4aac5739bdb"
  /\ event_id ambiguous_b = "outlook-cc61b4aac5739bdb".
Proof.
  repeat split; try discriminate; vm_compute; reflexivity.
Qed.

Lemma hex_digit_is_hex n : 0 <= n < 16 -> Str.is_hex_digit (MD5.hex_digit n) = true.
Proof.
  intros Hn.
  assert (Hin : In n [0; 1; 2; 3; 4; 5; 6; 7; 8; 9; 10; 11; 12; 13; 14; 15])
    by (simpl; lia).
  simpl in Hin.
  repeat (destruct Hin as [Hin|Hin]; [subst n; reflexivity|]).
  contradiction.
Qed.

Lemma hex_all_hex bs : Str.all_hex (MD5.hex bs) = true.
Proof.
  induction bs as [|b bs IH]; [reflexivity|].
  cbn [MD5.hex Str.all_hex].
  rewrite !hex_digit_is_hex by (apply Z.mod_pos_bound; lia). exact IH.
Qed.

Lemma hex_length bs : String.length (MD5.hex bs) = (2 * List.length bs)%nat.
Proof. induction bs as [|b bs IH]; simpl; [reflexivity | rewrite IH; lia]. Qed.

Lemma digest_length msg : List.length (MD5.digest msg) = 16%nat.
Proof.
  unfold MD5.digest.
  destruct (MD5.blocks _ _ _) as [[[a b] c] d]. reflexivity.
Qed.

Lemma take_length n : forall s, (n <= String.length s)%nat -> String.length (Str.take n s) = n.
Proof.
  unfold Str.take. induction n as [|n IH]; intros s Hs.
  - destruct s; reflexivity.
  - destruct s as [|a s]; simpl in *; [lia|]. rewrite IH; [reflexivity | lia].
Qed.

Lemma take_all_hex n : forall s, Str.all_hex s = true -> Str.all_hex (Str.take n s) = true.
Proof.
  unfold Str.take. induction n as [|n IH]; intros s Hs.
  - destruct s; reflexivity.
  - destruct s as [|a s]; [reflexivity|]. simpl in *.
    apply andb_true_iff in Hs. destruct Hs as [Ha Hs]. now rewrite Ha, IH.
Qed.

(** events for which the joined string is the same get the same identifier *)
Lemma same_hash_input_same_id e1 e2 :
  hash_input (title e1) (start_date e1) (organizer e1)
  = hash_input (title e2) (start_date e2) (organizer e2) ->
  event_id e1 = event_id e2.
Proof. unfold event_id, unique_id. now intros ->. Qed.

(** C2, amended: the identifier is a function of title, start time and
    organizer only: events that agree on the three get the same identifier,
    whatever their other fields.  It is [outlook-] followed by sixteen
    hexadecimal digits, sixty-four bits of an MD5 digest, so that events
    that differ in one of the three fields are not bound to get different
    identifiers. *)
Theorem C2_stable_id_deterministic (e1 e2 : Event) :
  title e1 = title e2 ->
  start_date e1 = start_date e2 ->
  organizer e1 = organizer e2 ->
  event_id e1 = event_id e2
  /\ exists h,
       event_id e1 = "outlook-" ++ h
       /\ String.length h = 16%nat
       /\ Str.all_hex h = true.
Proof.
  intros Ht Hs Ho. split.
  - unfold event_id. now rewrite Ht, Hs, Ho.
  - unfold event_id, unique_id, MD5.hexdigest.
    eexists. split; [reflexivity|]. split.
    + apply take_length. rewrite hex_length, digest_length. simpl. lia.
    + apply take_all_hex. apply hex_all_hex.
Qed.

(** the same meeting seen with another end, room and calendar *)
Lemma C2_stable_id_witness :
  event_id Sim.sync_review
  = event_id (mk_event "Sync Review" (mk_datetime 2024 6 1 10 0 0 0)
                (mk_datetime 2024 6 1 12 30 0 0) "Room 4" "Work" "alice" "agenda" "high"
                "raw" "raw")
  /\ exists h,
       event_id Sim.sync_review = "outlook-" ++ h
       /\ String.length h = 16%nat
       /\ Str.all_hex h = true.
Proof.
  apply C2_stable_id_deterministic; reflexivity.
Defined.

(** ** [migrate_old_ids] *)

Lemma migrate_loop_ret items : forall acc locals,
  migrate_loop items acc = Ret locals ->
  migration_count locals
  = (migration_count acc + List.length (filter (fun p => is_old_style_id (fst p)) items))%nat
  /\ (forall k, is_old_style_id k = true ->
        Dict.get k (migrated_events locals) = Dict.get k (migrated_events acc)).
Proof.
  induction items as [|[old_id event_info] rest IH]; intros acc locals; simpl.
  - intros E. inversion E; subst. split; [lia | auto].
  - destruct (is_old_style_id old_id) eqn:Hold; simpl.
    + destruct (json_get event_info "title" (JStr "")); [|discriminate].
      destruct (json_get event_info "event_date" (JStr "")); [|discriminate].
      intros E. apply IH in E. simpl in E. destruct E as [E1 E2].
      split; [lia | auto].
    + intros E. apply IH in E. simpl in E. destruct E as [E1 E2].
      split; [lia|]. intros k Hk. rewrite E2 by auto.
      apply DictFacts.get_set_other. intros ->. congruence.
Qed.

Lemma migrate_loop_raise items : forall acc x,
  migrate_loop items acc = Raise x ->
  x = AttributeError
  /\ exists k v, In (k, v) items /\ is_old_style_id k = true /\ forall d, v <> JDict d.
Proof.
  induction items as [|[old_id event_info] rest IH]; intros acc x; simpl.
  - discriminate.
  - destruct (is_old_style_id old_id) eqn:Hold.
    + destruct event_info; simpl;
        try (intros E; inversion E; subst; split; [reflexivity|];
             eexists _, _; split; [left; reflexivity|]; split; [assumption|];
             intros d' Hd; discriminate).
      intros E. apply IH in E. destruct E as [E1 (k & v & Hin & Hk & Hv)].
      split; auto. exists k, v. auto.
    + intros E. apply IH in E. destruct E as [E1 (k & v & Hin & Hk & Hv)].
      split; auto. exists k, v. auto.
Qed.

Lemma migrate_old_ids_ret l l' locals :
  migrate_old_ids l = Ret (l', locals) -> l' = l.
Proof.
  unfold migrate_old_ids. destruct (migrate_loop l (mk_locals [] 0)); [|discriminate].
  intros E. inversion E. reflexivity.
Qed.

(** C9: [migrate_old_ids] leaves [synced_events] as it found it.  When it
    returns, the mapping is the one it was given, the count is the number of
    keys of the old scheme, these keys are still in the mapping and are
    missing only from the local copy, which is dropped.  When it raises
    (an entry under an old key is no dictionary) nothing was assigned
    either. *)
Theorem C9_migrate_old_ids_keeps_ledger (l : ledger) :
  match migrate_old_ids l with
  | Ret (l', locals) =>
      l' = l
      /\ migration_count locals
         = List.length (filter (fun p => is_old_style_id (fst p)) l)
      /\ (forall k, is_old_style_id k = true ->
            Dict.get k l' = Dict.get k l
            /\ Dict.get k (migrated_events locals) = None)
  | Raise x =>
      x = AttributeError
      /\ exists k v, In (k, v) l /\ is_old_style_id k = true /\ forall d, v <> JDict d
  end.
Proof.
  unfold migrate_old_ids.
  destruct (migrate_loop l (mk_locals [] 0)) as [locals|x] eqn:E.
  - apply migrate_loop_ret in E. destruct E as [E1 E2]. simpl in *.
    repeat split; auto.
  - eapply migrate_loop_raise; eauto.
Qed.

(** the old key of [legacy_ledger] stays in the ledger *)
Lemma C9_migrate_old_ids_witness :
  Dict.get "outlook--123456" Sim.legacy_ledger = Some (JDict Sim.standup_old_data)
  /\ Dict.get "outlook--123456" ([] : ledger) = None.
Proof.
  pose proof (C9_migrate_old_ids_keeps_ledger Sim.legacy_ledger) as Hm.
  change (migrate_old_ids Sim.legacy_ledger)
    with (Ret (Sim.legacy_ledger, mk_locals [] 1)) in Hm.
  destruct Hm as (_ & _ & Hk). exact (Hk "outlook--123456" eq_refl).
Defined.

(** ** [cleanup_old_events] *)

Section CleanupFacts.

Context {W : Type} `{Platform W}.

Lemma old_events_of_ret cutoff (l : ledger) : forall olds,
  old_events_of cutoff l = Ret olds ->
  (forall k, In k olds <-> exists v, In (k, v) l /\ is_old_event cutoff v = Ret true)
  /\ (forall k v, In (k, v) l -> exists b, is_old_event cutoff v = Ret b).
Proof.
  induction l as [|[k0 v0] l IH]; intros olds; simpl.
  - intros E. inversion E; subst. split.
    + intros k. split; [intros [] | intros (v & [] & _)].
    + intros k v [].
  - destruct (is_old_event cutoff v0) as [b|] eqn:Hb; [|discriminate].
    destruct (old_events_of cutoff l) as [olds'|]; [|discriminate].
    intros E. inversion E; subst. destruct (IH _ eq_refl) as [IH1 IH2]. split.
    + intros k. destruct b; simpl; rewrite ?IH1; split.
      * intros [->|(v & Hin & Hv)]; eauto.
      * intros (v & [E'|Hin] & Hv); [inversion E'; subst; auto | eauto].
      * intros (v & Hin & Hv); eauto.
      * intros (v & [E'|Hin] & Hv); [inversion E'; subst; congruence | eauto].
    + intros k v [E'|Hin]; [inversion E'; subst; eauto | eauto].
Qed.

Lemma old_events_of_total cutoff (l : ledger) :
  all_dicts l -> exists olds, old_events_of cutoff l = Ret olds.
Proof.
  induction l as [|[k0 v0] l IH]; intros Hd; simpl; eauto.
  destruct (Hd k0 v0 (or_introl eq_refl)) as [d ->].
  destruct IH as [olds ->]; [intros k v Hin; eapply Hd; right; eauto|].
  unfold is_old_event. simpl.
  destruct (match Dict.get "synced_date" d with Some x => x | None => JStr "" end);
    eauto.
  destruct (fromisoformat s) as [[|]|]; eauto.
Qed.

Lemma fold_del_in (olds : list string) : forall (l : ledger) k v,
  In (k, v) (fold_left (fun d event_id => Dict.del event_id d) olds l)
  <-> In (k, v) l /\ ~ In k olds.
Proof.
  induction olds as [|o olds IH]; intros l k v; simpl.
  - tauto.
  - rewrite IH, DictFacts.in_del. intuition congruence.
Qed.

Lemma fold_del_filter (olds : list string) : forall (l : ledger),
  fold_left (fun d event_id => Dict.del event_id d) olds l
  = filter (fun p => negb (existsb (String.eqb (fst p)) olds)) l.
Proof.
  induction olds as [|o olds IH]; intros l; simpl.
  - induction l as [|p l IHl]; simpl; congruence.
  - rewrite IH. unfold Dict.del. induction l as [|p l IHl]; simpl; auto.
    destruct (String.eqb_spec (fst p) o); simpl.
    + exact IHl.
    + destruct (existsb (String.eqb (fst p)) olds); simpl; congruence.
Qed.

Lemma is_old_event_false cutoff v :
  is_old_event cutoff v = Ret false ->
  exists s d,
    json_get v "synced_date" (JStr "") = Ret (JStr s)
    /\ fromisoformat s = Some (Naive d)
    /\ datetime_lt d cutoff = false.
Proof.
  unfold is_old_event.
  destruct (json_get v "synced_date" (JStr "")) as [x|]; [|discriminate].
  destruct x; try discriminate.
  destruct (fromisoformat s) as [[d|]|] eqn:Hp; try discriminate.
  intros E. inversion E. eauto.
Qed.

Lemma is_old_event_no_valid_date cutoff d :
  no_valid_date d -> is_old_event cutoff (JDict d) = Ret true.
Proof.
  unfold no_valid_date, is_old_event. simpl.
  destruct (Dict.get "synced_date" d) as [x|].
  - destruct x; auto. intros ->. reflexivity.
  - intros _. now rewrite fromisoformat_empty.
Qed.

(** what [cleanup_old_events] leaves when it returns *)
Lemma cleanup_ret (l l' : ledger) (w w' : W) :
  cleanup_old_events l w = (Ret l', w') ->
  w' = snd (now w)
  /\ (forall k v, In (k, v) l' -> In (k, v) l /\ fresh_entry (fst (now w)) v)
  /\ (forall k v, In (k, v) l -> stale (minus_days (fst (now w)) 60) v = true ->
        ~ In k (Dict.keys l'))
  /\ l' = filter (fun p => negb (existsb (fun q => String.eqb (fst q) (fst p)
                                              && stale (minus_days (fst (now w)) 60) (snd q)) l)) l.
Proof.
  unfold cleanup_old_events. destruct (now w) as [t w1]. simpl.
  destruct (old_events_of (minus_days t 60) l) as [olds|] eqn:Ho; [|discriminate].
  intros E. inversion E; subst. clear E.
  destruct (old_events_of_ret _ _ _ Ho) as [Ho1 Ho2].
  split; [reflexivity|]. split; [|split].
  - intros k v Hin. apply fold_del_in in Hin. destruct Hin as [Hin Hno].
    split; auto. destruct (Ho2 _ _ Hin) as [b Hb]. destruct b.
    + exfalso. apply Hno. apply Ho1. eauto.
    + apply is_old_event_false. exact Hb.
  - intros k v Hin Hst Hk. unfold Dict.keys in Hk. apply in_map_iff in Hk.
    destruct Hk as [[k' v'] [Ek Hin']]. simpl in Ek. subst k'.
    apply fold_del_in in Hin'. destruct Hin' as [_ Hno]. apply Hno.
    apply Ho1. exists v. split; auto. unfold stale in Hst.
    destruct (is_old_event (minus_days t 60) v); congruence.
  - rewrite fold_del_filter. apply filter_ext_in. intros [k v] Hin. simpl.
    f_equal. apply eq_true_iff_eq. rewrite !existsb_exists. split.
    + intros (o & Hino & Eo). apply String.eqb_eq in Eo. subst o.
      apply Ho1 in Hino. destruct Hino as (v' & Hin' & Hv').
      exists (k, v'). split; auto. simpl. rewrite String.eqb_refl. unfold stale.
      now rewrite Hv'.
    + intros ([k' v'] & Hin' & Eo). simpl in Eo. apply andb_true_iff in Eo.
      destruct Eo as [Ek Hst]. apply String.eqb_eq in Ek. subst k'.
      exists k. split; [|apply String.eqb_refl]. apply Ho1. exists v'. split; auto.
      unfold stale in Hst. destruct (is_old_event (minus_days t 60) v'); congruence.
Qed.

Lemma cleanup_total (l : ledger) (w : W) :
  all_dicts l -> exists l', cleanup_old_events l w = (Ret l', snd (now w)).
Proof.
  intros Hd. unfold cleanup_old_events. destruct (now w) as [t w1]. simpl.
  destruct (old_events_of_total (minus_days t 60) l Hd) as [olds ->]. eauto.
Qed.

(** a mapping read by [load_state] went through [cleanup_old_events] *)
Lemma load_json_ret (state : json) (w w' : W) (l' : ledger) :
  load_json state w = (Ret l', w') ->
  exists l w0, cleanup_old_events l w0 = (Ret l', w').
Proof.
  unfold load_json.
  destruct (json_get state "synced_events" (JList [])) as [data|]; [|discriminate].
  destruct data as [| | | |ids|d]; try discriminate.
  - destruct (convert_old_format ids [] true w) as [[l0|x] w1]; [|discriminate].
    destruct (migrate_old_ids l0) as [[l1 locals]|] eqn:Hm; [|discriminate].
    eauto.
  - destruct (migrate_old_ids d) as [[l1 locals]|] eqn:Hm; [|discriminate].
    eauto.
Qed.

(** what [load_state] leaves when it returns: nothing, or what
    [cleanup_old_events] kept of the mapping of the file, read at the
    start of the load, or of the conversion of its list, read when the
    conversion had ended *)
Lemma load_state_fresh f (w w' : W) (l' : ledger) :
  SyncMonitor_init f w = (Ret l', w') ->
  l' = []
  \/ exists st, f = FileJson (JDict st)
     /\ ((exists d, Dict.get "synced_events" st = Some (JDict d)
                    /\ w' = snd (now w)
                    /\ forall k v, In (k, v) l' ->
                                   In (k, v) d /\ fresh_entry (fst (now w)) v)
         \/ (exists ids lc wc,
               json_get (JDict st) "synced_events" (JList []) = Ret (JList ids)
               /\ convert_old_format ids [] true w = (Ret lc, wc)
               /\ w' = snd (now wc)
               /\ forall k v, In (k, v) l' ->
                              In (k, v) lc /\ fresh_entry (fst (now wc)) v)).
Proof.
  unfold SyncMonitor_init, load_state.
  destruct f as [| | | |state]; try (intros E; inversion E; auto; fail).
  destruct (load_json state w) as [[l0|x] w1] eqn:E; intros E0; inversion E0; subst;
    [|auto].
  unfold load_json in E.
  destruct state as [| | | | |st]; try discriminate E.
  destruct (json_get (JDict st) "synced_events" (JList [])) as [data|] eqn:Hdata;
    [|discriminate E].
  destruct data as [| | | |ids|d]; try discriminate E.
  - destruct (convert_old_format ids [] true w) as [[lc|x] wc] eqn:Hc; [|discriminate E].
    destruct (migrate_old_ids lc) as [[l1 locals]|] eqn:Hm; [|discriminate E].
    apply migrate_old_ids_ret in Hm. subst l1.
    apply cleanup_ret in E. destruct E as (Ew & E1 & _).
    right. exists st. split; [reflexivity|]. right. exists ids, lc, wc. auto.
  - destruct (migrate_old_ids d) as [[l1 locals]|] eqn:Hm; [|discriminate E].
    apply migrate_old_ids_ret in Hm. subst l1.
    apply cleanup_ret in E. destruct E as (Ew & E1 & _).
    right. exists st. split; [reflexivity|]. left. exists d.
    split; [|auto]. simpl in Hdata.
    destruct (Dict.get "synced_events" st) as [x|]; inversion Hdata; reflexivity.
Qed.

End CleanupFacts.

(** C10: after [cleanup_old_events] every entry left has a [synced_date]
    that parses and is not more than sixty days before the clock reading of
    the call, and an entry whose [synced_date] is missing or does not parse
    is gone, whatever else it holds.  The call returns on every mapping of
    dictionaries; within [load_state] the same holds of the loaded mapping
    for every state file, at the clock reading of the call in it. *)
Theorem C10_cleanup_keeps_only_fresh_entries {W : Type} `{Platform W}
  (l : ledger) (w : W) :
  (forall l' w', cleanup_old_events l w = (Ret l', w') ->
     (forall k v, In (k, v) l' -> In (k, v) l /\ fresh_entry (fst (now w)) v)
     /\ (forall k d, In (k, JDict d) l -> no_valid_date d -> ~ In k (Dict.keys l')))
  /\ (all_dicts l -> exists l', cleanup_old_events l w = (Ret l', snd (now w)))
  /\ (forall f l' w', SyncMonitor_init f w = (Ret l', w') ->
        l' = []
        \/ exists st, f = FileJson (JDict st)
           /\ ((exists d, Dict.get "synced_events" st = Some (JDict d)
                          /\ w' = snd (now w)
                          /\ forall k v, In (k, v) l' ->
                                In (k, v) d /\ fresh_entry (fst (now w)) v)
               \/ (exists ids lc wc,
                     json_get (JDict st) "synced_events" (JList []) = Ret (JList ids)
                     /\ convert_old_format ids [] true w = (Ret lc, wc)
                     /\ w' = snd (now wc)
                     /\ forall k v, In (k, v) l' ->
                           In (k, v) lc /\ fresh_entry (fst (now wc)) v))).
Proof.
  split; [|split].
  - intros l' w' E. apply cleanup_ret in E. destruct E as (_ & E1 & E2 & _).
    split; auto. intros k d Hin Hbad. apply (E2 k (JDict d)); auto.
    unfold stale. now rewrite is_old_event_no_valid_date.
  - apply cleanup_total.
  - intros f l' w'. apply load_state_fresh.
Qed.

(** the undated entry of [mixed_ledger] is dropped *)
Lemma C10_cleanup_witness :
  ~ In "outlook-00000000000000bb"
       (Dict.keys (fold_left (fun d k => Dict.del k d)
                     ["outlook-7308de134f927982"; "outlook-00000000000000bb"]
                     Sim.mixed_ledger))
  /\ exists l', cleanup_old_events Sim.mixed_ledger Sim.quiet = (Ret l', Sim.quiet).
Proof.
  destruct (C10_cleanup_keeps_only_fresh_entries Sim.mixed_ledger Sim.quiet)
    as (H1 & H2 & _).
  split.
  - refine (proj2 (H1 _ Sim.quiet eq_refl) "outlook-00000000000000bb"
              [("title", JStr "Retro"); ("google_event_id", JStr "g9")] _ _).
    + right. right. left. reflexivity.
    + exact I.
  - apply H2. intros k v Hin. simpl in Hin.
    destruct Hin as [E|[E|[E|[]]]]; inversion E; eexists; reflexivity.
Defined.

(** ** [load_state] *)

Section LoadFacts.

Context {W : Type} `{Platform W}.

Lemma old_events_of_raise cutoff (l : ledger) k v :
  In (k, v) l -> (forall d, v <> JDict d) -> exists x, old_events_of cutoff l = Raise x.
Proof.
  intros Hin Hv. induction l as [|[k0 v0] l IH]; simpl; [contradiction|].
  destruct (is_old_event cutoff v0) as [b|x] eqn:Hb; [|eauto].
  destruct Hin as [E|Hin].
  - inversion E; subst. unfold is_old_event in Hb.
    destruct v; simpl in Hb; try discriminate. exfalso. eapply Hv. reflexivity.
  - destruct (IH Hin) as [x ->]. eauto.
Qed.

Lemma convert_old_format_ret (ids : list json) : forall acc all_str (w w' : W) l,
  convert_old_format ids acc all_str w = (Ret l, w') ->
  forall k v, In (k, v) l ->
    In (k, v) acc
    \/ (In (JStr k) ids /\ exists t, v = JDict [("synced_date", JStr (isoformat t))]).
Proof.
  induction ids as [|i ids IH]; intros acc all_str w w' l; simpl.
  - destruct all_str; [|discriminate]. intros E. inversion E; subst. auto.
  - destruct i as [| b | n | s | li | d ];
      destruct (now w) as [t w1]; try discriminate;
      intros E k v Hin; destruct (IH _ _ _ _ _ E k v Hin) as [Hacc|[Hids Hv]];
      try (right; split; [right; exact Hids | exact Hv]);
      try (left; exact Hacc).
    apply DictFacts.in_set in Hacc. destruct Hacc as [[-> ->]|Hacc]; [|auto].
    right. split; [left; reflexivity | eauto].
Qed.

Lemma stale_filter_nodup cutoff (l : ledger) :
  NoDup (Dict.keys l) ->
  filter (fun p => negb (existsb (fun q => String.eqb (fst q) (fst p)
                                      && stale cutoff (snd q)) l)) l
  = filter (fun p => negb (stale cutoff (snd p))) l.
Proof.
  intros Hnd. apply filter_ext_in. intros [k v] Hin. simpl. f_equal.
  apply eq_true_iff_eq. rewrite existsb_exists. split.
  - intros ([k' v'] & Hin' & E). simpl in E. apply andb_true_iff in E.
    destruct E as [Ek Hst]. apply String.eqb_eq in Ek. subst k'.
    apply (DictFacts.in_get_nodup _ _ _ _ Hnd) in Hin.
    apply (DictFacts.in_get_nodup _ _ _ _ Hnd) in Hin'. congruence.
  - intros Hst. exists (k, v). simpl. now rewrite String.eqb_refl, Hst.
Qed.

Lemma migrate_old_ids_total (l : ledger) :
  all_dicts l -> exists locals, migrate_old_ids l = Ret (l, locals).
Proof.
  intros Hd. unfold migrate_old_ids.
  destruct (migrate_loop l (mk_locals [] 0)) as [locals|x] eqn:E; eauto.
  apply migrate_loop_raise in E. destruct E as (_ & k & v & Hin & _ & Hv).
  destruct (Hd _ _ Hin) as [d ->]. exfalso. eapply Hv. reflexivity.
Qed.

Lemma keys_set_nodup (V : Type) k (v : V) (l : Dict.t V) :
  NoDup (Dict.keys l) -> NoDup (Dict.keys (Dict.set k v l)).
Proof.
  induction l as [|[k0 v0] l IH]; simpl; intros Hnd.
  - constructor; [intros [] | constructor].
  - inversion Hnd as [|? ? Hnotin Hnd']; subst.
    destruct (String.eqb_spec k0 k) as [->|Hne]; simpl.
    + constructor; assumption.
    + constructor; [|auto]. intros Hin. apply DictFacts.keys_set in Hin.
      destruct Hin as [->|Hin]; [congruence | contradiction].
Qed.

Lemma convert_old_format_dicts (ids : list json) (w w' : W) l :
  convert_old_format ids [] true w = (Ret l, w') -> all_dicts l.
Proof.
  intros E k v Hin.
  destruct (convert_old_format_ret _ _ _ _ _ _ E _ _ Hin) as [[]|[_ [t ->]]]. eauto.
Qed.

(** the conversion of a list of strings: every string becomes a key, with
    an entry that holds a clock reading and nothing else *)
Lemma convert_strings (ks : list string) : forall (acc : ledger) (w : W),
  exists l0 w1,
    convert_old_format (map JStr ks) acc true w = (Ret l0, w1)
    /\ (forall k, In k (Dict.keys l0) <-> In k ks \/ In k (Dict.keys acc))
    /\ (NoDup (Dict.keys acc) -> NoDup (Dict.keys l0))
    /\ (forall k, ~ In k ks -> Dict.get k l0 = Dict.get k acc)
    /\ (forall k, In k ks ->
          exists w0, Dict.get k l0
                     = Some (JDict [("synced_date", JStr (isoformat (fst (now w0))))])).
Proof.
  induction ks as [|k0 ks IH]; intros acc w.
  - exists acc, w. simpl. split; [reflexivity|]. split; [tauto|].
    split; [auto|]. split; [auto|]. intros k [].
  - cbn [map convert_old_format]. destruct (now w) as [t wn] eqn:Hn.
    destruct (IH (Dict.set k0 (JDict [("synced_date", JStr (isoformat t))]) acc) wn)
      as (l0 & w1 & E & Hk & Hnd & Hother & Hin).
    exists l0, w1. split; [exact E|]. split; [|split; [|split]].
    + intros k. rewrite Hk, DictFacts.keys_set. simpl. intuition.
    + intros Hacc. apply Hnd. now apply keys_set_nodup.
    + intros k Hno. rewrite Hother by (intros Hi; apply Hno; right; exact Hi).
      apply DictFacts.get_set_other. intros ->. apply Hno. left. reflexivity.
    + intros k Hkin. destruct (in_dec string_dec k ks) as [Hi|Hno]; [auto|].
      destruct Hkin as [->|Hi]; [|contradiction].
      exists w. rewrite Hn. cbn [fst]. rewrite (Hother k Hno).
      apply DictFacts.get_set_same.
Qed.

End LoadFacts.

(** C7, as stated, fails twice.  The test [self.state_file.exists()] stands
    before the [try]: when it raises, [load_state] raises.  And a well-formed
    file does not give the stored mapping: an entry synced in January is
    not in the mapping loaded in June. *)
Lemma C7_load_state_raises_or_drops :
  SyncMonitor_init FileStatFails Sim.quiet = (Raise PermissionError, Sim.quiet)
  /\ SyncMonitor_init Sim.january_file Sim.quiet = (Ret [], Sim.quiet)
  /\ Sim.january_ledger <> [].
Proof. split; [|split]; [reflexivity | vm_compute; reflexivity | discriminate]. Qed.

(** C7, amended: once the test for the file has returned, [load_state]
    returns.  A missing, an unreadable and a non-JSON file give the empty
    mapping; so does JSON that is no object, or whose entries are not all
    dictionaries.  A well-formed file gives the stored mapping without the
    entries [cleanup_old_events] lists (older than sixty days, or without a
    date that parses).  A flat list of strings is converted to a mapping
    whose keys are the strings of the list, each with an entry that holds
    the clock reading of its conversion and nothing else, and goes through
    the same cleanup; in a list of other values every entry that is loaded
    is of that shape under a string of the list. *)
Theorem C7_load_state_fails_soft {W : Type} `{Platform W} (w : W) :
  (forall f, f <> FileStatFails -> exists l w', SyncMonitor_init f w = (Ret l, w'))
  /\ SyncMonitor_init FileMissing w = (Ret [], w)
  /\ SyncMonitor_init FileUnreadable w = (Ret [], w)
  /\ SyncMonitor_init FileNotJson w = (Ret [], w)
  /\ (forall state, (forall st, state <> JDict st) ->
        SyncMonitor_init (FileJson state) w = (Ret [], w))
  /\ (forall st d, Dict.get "synced_events" st = Some (JDict d) ->
        all_dicts d -> NoDup (Dict.keys d) ->
        SyncMonitor_init (FileJson (JDict st)) w
        = (Ret (filter (fun p => negb (stale (minus_days (fst (now w)) 60) (snd p))) d),
           snd (now w)))
  /\ (forall st d k v, Dict.get "synced_events" st = Some (JDict d) ->
        In (k, v) d -> (forall x, v <> JDict x) ->
        fst (SyncMonitor_init (FileJson (JDict st)) w) = Ret [])
  /\ (forall st ks, Dict.get "synced_events" st = Some (JList (map JStr ks)) ->
        exists l0 w1,
          convert_old_format (map JStr ks) [] true w = (Ret l0, w1)
          /\ (forall k, In k (Dict.keys l0) <-> In k ks)
          /\ NoDup (Dict.keys l0)
          /\ (forall k, In k ks ->
                exists w0,
                  Dict.get k l0
                  = Some (JDict [("synced_date", JStr (isoformat (fst (now w0))))]))
          /\ SyncMonitor_init (FileJson (JDict st)) w
             = (Ret (filter (fun p => negb (stale (minus_days (fst (now w1)) 60) (snd p)))
                       l0),
                snd (now w1)))
  /\ (forall st ids l w' k v, Dict.get "synced_events" st = Some (JList ids) ->
        SyncMonitor_init (FileJson (JDict st)) w = (Ret l, w') ->
        In (k, v) l ->
        In (JStr k) ids /\ exists t, v = JDict [("synced_date", JStr (isoformat t))]).
Proof.
  repeat match goal with |- _ /\ _ => split end; try reflexivity.
  - intros f Hf. unfold SyncMonitor_init, load_state.
    destruct f as [| | | |state]; [contradiction| | | |]; eauto.
    destruct (load_json state w) as [[l0|x] w1]; eauto.
  - intros state Hs. unfold SyncMonitor_init, load_state, load_json.
    destruct state; try reflexivity. exfalso. eapply Hs. reflexivity.
  - intros st d Hget Hd Hnd. unfold SyncMonitor_init, load_state, load_json. simpl.
    rewrite Hget. destruct (migrate_old_ids_total d Hd) as [locals ->].
    destruct (cleanup_total d w Hd) as [l' E]. rewrite E.
    apply cleanup_ret in E. destruct E as (_ & _ & _ & ->).
    now rewrite stale_filter_nodup.
  - intros st d k v Hget Hin Hv. unfold SyncMonitor_init, load_state, load_json. simpl.
    rewrite Hget. destruct (migrate_old_ids d) as [[l1 locals]|] eqn:Hm; [|reflexivity].
    apply migrate_old_ids_ret in Hm. subst l1.
    unfold cleanup_old_events. destruct (now w) as [t w1].
    destruct (old_events_of_raise (minus_days t 60) d k v Hin Hv) as [x ->]. reflexivity.
  - intros st ks Hget.
    destruct (convert_strings ks [] w) as (l0 & w1 & Hc & Hk & Hnd & _ & Hin).
    exists l0, w1. split; [exact Hc|]. split; [|split; [|split]].
    + intros k. rewrite Hk. simpl. tauto.
    + apply Hnd. constructor.
    + exact Hin.
    + pose proof (convert_old_format_dicts _ _ _ _ Hc) as Hd.
      unfold SyncMonitor_init, load_state, load_json. simpl. rewrite Hget, Hc.
      destruct (migrate_old_ids_total l0 Hd) as [locals ->].
      destruct (cleanup_total l0 w1 Hd) as [l' E]. rewrite E.
      apply cleanup_ret in E. destruct E as (_ & _ & _ & ->).
      rewrite stale_filter_nodup by (apply Hnd; constructor). reflexivity.
  - intros st ids l w' k v Hget. unfold SyncMonitor_init, load_state, load_json. simpl.
    rewrite Hget.
    destruct (convert_old_format ids [] true w) as [[l0|x] w1] eqn:Hc;
      [|intros E; inversion E; subst; intros []].
    destruct (migrate_old_ids l0) as [[l1 locals]|] eqn:Hm;
      [|intros E; inversion E; subst; intros []].
    apply migrate_old_ids_ret in Hm. subst l1.
    destruct (cleanup_old_events l0 w1) as [[l'|x] w2] eqn:E;
      intros E0; inversion E0; subst; [|intros []].
    intros Hin. apply cleanup_ret in E. destruct E as (_ & E1 & _).
    destruct (E1 _ _ Hin) as [Hin0 _].
    destruct (convert_old_format_ret _ _ _ _ _ _ Hc _ _ Hin0) as [[]|Hr]. exact Hr.
Qed.

Example flat_list_run :
  SyncMonitor_init
    (FileJson (JDict [("synced_events",
                       JList [JStr "outlook--123456"; JStr "outlook-7308de134f927982"])]))
    Sim.quiet
  = (Ret [("outlook--123456", JDict [("synced_date", JStr "2024-06-01T09:00:00")]);
          ("outlook-7308de134f927982",
           JDict [("synced_date", JStr "2024-06-01T09:00:00")])],
     Sim.quiet).
Proof. vm_compute. reflexivity. Qed.

(** a file with a fresh, an aged and an undated entry; a number; an entry
    that is no dictionary; a flat list *)
Lemma C7_load_state_witness :
  SyncMonitor_init Sim.mixed_file Sim.quiet
  = (Ret [("outlook-00000000000000aa",
           Sim.entry "2024-05-30T09:00:00" "2024-06-02T10:00:00" "Planning" (JStr "g7"))],
     Sim.quiet)
  /\ SyncMonitor_init (FileJson (JNum 3)) Sim.quiet = (Ret [], Sim.quiet)
  /\ fst (SyncMonitor_init
            (FileJson (JDict [("synced_events", JDict [("outlook-01", JNull)])]))
            Sim.quiet) = Ret []
  /\ (exists l w', SyncMonitor_init Sim.january_file Sim.quiet = (Ret l, w'))
  /\ (exists l0 w1,
        convert_old_format (map JStr ["outlook--123456"; "outlook-7308de134f927982"])
          [] true Sim.quiet = (Ret l0, w1)
        /\ forall k, In k (Dict.keys l0)
                     <-> In k ["outlook--123456"; "outlook-7308de134f927982"]).
Proof.
  destruct (C7_load_state_fails_soft Sim.quiet) as (H0 & _ & _ & _ & H4 & H5 & H6 & H7 & _).
  split; [|split; [|split; [|split]]].
  - refine (eq_trans (H5 [("synced_events", JDict Sim.mixed_ledger)]
                         Sim.mixed_ledger eq_refl _ _) _).
    + intros k v Hin. simpl in Hin.
      destruct Hin as [E|[E|[E|[]]]]; inversion E; eexists; reflexivity.
    + repeat constructor; simpl; intuition discriminate.
    + vm_compute. reflexivity.
  - apply H4. intros st. discriminate.
  - apply (H6 [("synced_events", JDict [("outlook-01", JNull)])]
              [("outlook-01", JNull)] "outlook-01" JNull eq_refl).
    + left. reflexivity.
    + intros x. discriminate.
  - apply H0. discriminate.
  - destruct (H7 [("synced_events",
                   JList (map JStr ["outlook--123456"; "outlook-7308de134f927982"]))]
                 ["outlook--123456"; "outlook-7308de134f927982"] eq_refl)
      as (l0 & w1 & Hc & Hk & _).
    exists l0, w1. split; assumption.
Defined.

(** ** Looking for an entry of the old scheme *)

Lemma old_style_nonempty o : is_old_style_id o = true -> o <> "".
Proof. intros Ho ->. discriminate. Qed.

Lemma old_entry_matches_dict v e b :
  old_entry_matches v e = Ret b -> exists d, v = JDict d.
Proof.
  unfold old_entry_matches. destruct v; simpl; try discriminate. eauto.
Qed.

Lemma find_some (l : ledger) e o :
  find_matching_old_event l e = Ret (Some o) ->
  is_old_style_id o = true
  /\ exists v, In (o, v) l /\ old_entry_matches v e = Ret true.
Proof.
  induction l as [|[k0 v0] l IH]; simpl; [discriminate|].
  destruct (is_old_style_id k0) eqn:Hk.
  - destruct (old_entry_matches v0 e) as [[|]|] eqn:Hm; try discriminate.
    + intros E. inversion E; subst. eauto.
    + intros E. destruct (IH E) as (? & v & ? & ?). eauto.
  - intros E. destruct (IH E) as (? & v & ? & ?). eauto.
Qed.

Lemma find_none (l : ledger) e :
  find_matching_old_event l e = Ret None <->
  (forall k v, In (k, v) l -> is_old_style_id k = true ->
               old_entry_matches v e = Ret false).
Proof.
  induction l as [|[k0 v0] l IH]; simpl.
  - split; [intros _ k v [] | reflexivity].
  - destruct (is_old_style_id k0) eqn:Hk.
    + destruct (old_entry_matches v0 e) as [[|]|] eqn:Hm.
      * split; [discriminate|]. intros Hall.
        specialize (Hall k0 v0 (or_introl eq_refl) Hk). congruence.
      * rewrite IH. split.
        -- intros Hall k v [E|Hin] Hold; [inversion E; subst; auto | eauto].
        -- intros Hall k v Hin Hold. eauto.
      * split; [discriminate|]. intros Hall.
        specialize (Hall k0 v0 (or_introl eq_refl) Hk). congruence.
    + rewrite IH. split.
      * intros Hall k v [E|Hin] Hold; [inversion E; subst; congruence | eauto].
      * intros Hall k v Hin Hold. eauto.
Qed.

Lemma find_some_get_dict (l : ledger) e o :
  find_matching_old_event l e = Ret (Some o) ->
  exists d, Dict.get o l = Some (JDict d).
Proof.
  induction l as [|[k0 v0] l IH]; simpl; [discriminate|].
  destruct (String.eqb_spec k0 o) as [->|Hne].
  - intros E. destruct (is_old_style_id o) eqn:Hk.
    + destruct (old_entry_matches v0 e) as [b|] eqn:Hm; [|discriminate].
      apply old_entry_matches_dict in Hm. destruct Hm as [d ->]. eauto.
    + apply find_some in E. destruct E. congruence.
  - destruct (is_old_style_id k0).
    + destruct (old_entry_matches v0 e) as [[|]|]; try discriminate; auto.
      intros E. inversion E. congruence.
    + auto.
Qed.

Lemma find_set_new (l : ledger) e k v :
  is_old_style_id k = false ->
  find_matching_old_event (Dict.set k v l) e = find_matching_old_event l e.
Proof.
  intros Hk. induction l as [|[k0 v0] l IH]; simpl.
  - now rewrite Hk.
  - destruct (String.eqb_spec k0 k) as [->|Hne]; simpl.
    + now rewrite Hk.
    + now rewrite IH.
Qed.

Lemma find_del_none (l : ledger) e k :
  find_matching_old_event l e = Ret None ->
  find_matching_old_event (Dict.del k l) e = Ret None.
Proof.
  rewrite !find_none. intros Hall k' v Hin. apply DictFacts.in_del in Hin.
  destruct Hin. eauto.
Qed.


(** ** The steps of a cycle *)

Section StepFacts.

Context {W : Type} `{Platform W}.

Lemma now_eta (w : W) : now w = (fst (now w), snd (now w)).
Proof. destruct (now w); reflexivity. Qed.

Lemma mark_synced_eq e x (l : ledger) (w : W) :
  mark_synced e x l w
  = (Dict.set (event_id e) (synced_entry (fst (now w)) e x) l, snd (now w)).
Proof. unfold mark_synced. destruct (now w). reflexivity. Qed.

Lemma update_event_id_eq o new e (l : ledger) (w : W) d :
  Dict.get o l = Some (JDict d) ->
  update_event_id o new e l w
  = (Ret (Dict.del o (Dict.set new (migrated_entry (fst (now w)) e d) l)), snd (now w)).
Proof.
  intros Hg. unfold update_event_id. rewrite Hg. destruct (now w). reflexivity.
Qed.

(** what one turn of the classification loop does when it returns *)
Lemma classify_one_ret g e (l l' : ledger) (w w' : W) b tr :
  classify_one g e (l, w) = (Ret b, (l', w'), tr) ->
  (is_synced e l = true /\ b = false /\ l' = l /\ w' = w /\ tr = [])
  \/ (is_synced e l = false /\ b = false /\ tr = [] /\ w' = snd (now w)
      /\ exists o d,
           find_matching_old_event l e = Ret (Some o)
           /\ Dict.get o l = Some (JDict d)
           /\ l' = Dict.del o (Dict.set (event_id e) (migrated_entry (fst (now w)) e d) l))
  \/ (is_synced e l = false /\ find_matching_old_event l e = Ret None
      /\ exists x w1,
           check_event_exists g e w = (x, w1) /\ tr = [CheckExists e x]
           /\ ((truthy x = true /\ b = false
                /\ l' = Dict.set (event_id e) (synced_entry (fst (now w1)) e x) l
                /\ w' = snd (now w1))
               \/ (truthy x = false /\ b = true /\ l' = l /\ w' = w1))).
Proof.
  unfold classify_one, bind, get_synced_events, try_, ret. simpl.
  destruct (is_synced e l) eqn:Hs; simpl.
  - intros E. inversion E; subst. left. auto.
  - destruct (find_matching_old_event l e) as [[o|]|x] eqn:Hf; simpl; try discriminate.
    + pose proof (find_some _ _ _ Hf) as [Ho _].
      destruct (find_some_get_dict _ _ _ Hf) as [d Hd].
      apply old_style_nonempty in Ho. apply String.eqb_neq in Ho. rewrite Ho. simpl.
      unfold bind, do_update_event_id, ret. simpl.
      rewrite (update_event_id_eq _ _ _ _ _ _ Hd). simpl.
      intros E. inversion E; subst. right. left. repeat split; auto. eauto.
    + unfold reconcile, bind, in_world, emit, ret, do_mark_synced. simpl.
      destruct (check_event_exists g e w) as [x w1] eqn:Hc. simpl.
      destruct (truthy x) eqn:Ht; simpl.
      * rewrite mark_synced_eq. simpl. intros E. inversion E; subst.
        right. right. repeat split; auto. exists x, w1. repeat split; auto.
      * intros E. inversion E; subst.
        right. right. repeat split; auto. exists x, w'. repeat split; auto.
Qed.

End StepFacts.

Section ClassifyFacts.

Context {W : Type} `{Platform W}.

Lemma is_synced_get e (l : ledger) :
  is_synced e l = false <-> Dict.get (event_id e) l = None.
Proof. unfold is_synced. symmetry. apply DictFacts.get_none_mem. Qed.

Lemma all_dicts_set (l : ledger) k d :
  all_dicts l -> all_dicts (Dict.set k (JDict d) l).
Proof.
  intros Hd k' v' Hin. apply DictFacts.in_set in Hin.
  destruct Hin as [[_ ->]|Hin]; eauto.
Qed.

Lemma all_dicts_del (l : ledger) k : all_dicts l -> all_dicts (Dict.del k l).
Proof. intros Hd k' v' Hin. apply DictFacts.in_del in Hin. destruct Hin. eauto. Qed.

(** the effect of one turn of the classification loop on the ledger *)
Lemma classify_one_facts g e (l l1 : ledger) (w w1 : W) b tr1 :
  classify_one g e (l, w) = (Ret b, (l1, w1), tr1) ->
  (forall k v, Dict.get k l = Some v -> is_old_style_id k = false ->
               Dict.get k l1 = Some v)
  /\ (forall k, In k (Dict.keys l1) -> In k (Dict.keys l) \/ k = event_id e)
  /\ (forall k v, In (k, v) l1 -> is_old_style_id k = true -> In (k, v) l)
  /\ (b = false -> is_synced e l1 = true)
  /\ (b = true -> l1 = l)
  /\ (forall c, In c tr1 ->
        exists x, c = CheckExists e x /\ tr1 = [c] /\ (truthy x = false <-> b = true))
  /\ (tr1 = [] -> b = false)
  /\ is_synced e l = (match tr1 with [] => is_synced e l | _ => false end)
  /\ (all_dicts l -> all_dicts l1)
  /\ (forall e0, find_matching_old_event l e0 = Ret None ->
                 find_matching_old_event l1 e0 = Ret None).
Proof.
  intros E. apply classify_one_ret in E.
  destruct E as [(Hs & -> & -> & -> & ->)
                | [(Hs & -> & -> & -> & o & d & Hf & Hg & ->)
                  | (Hs & Hf & x & w2 & Hc & -> & Hx)]].
  - repeat split; auto; try tauto; try discriminate; intros c [].
  - pose proof (find_some _ _ _ Hf) as [Ho _].
    pose proof (event_id_not_old_style e) as Hnew.
    assert (Hne : event_id e <> o) by (intros <-; congruence).
    repeat split; auto; try discriminate.
    + intros k v Hk Hold.
      rewrite DictFacts.get_del_other by (intros <-; congruence).
      rewrite DictFacts.get_set_other; auto.
      intros <-. apply is_synced_get in Hs. congruence.
    + intros k Hin. apply DictFacts.keys_del in Hin. destruct Hin as [Hin _].
      apply DictFacts.keys_set in Hin. tauto.
    + intros k v Hin Hold. apply DictFacts.in_del in Hin. destruct Hin as [Hin _].
      apply DictFacts.in_set in Hin. destruct Hin as [[-> _]|Hin]; [congruence | auto].
    + intros _. unfold is_synced. apply DictFacts.mem_get.
      rewrite DictFacts.get_del_other by auto. rewrite DictFacts.get_set_same. eauto.
    + intros c [].
    + intros Hd. apply all_dicts_del. unfold migrated_entry. now apply all_dicts_set.
    + intros e0 Hn. apply find_del_none. now rewrite find_set_new.
  - pose proof (event_id_not_old_style e) as Hnew.
    destruct Hx as [(Ht & -> & -> & ->)|(Ht & -> & -> & ->)].
    + repeat split; auto; try discriminate.
      * intros k v Hk Hold. rewrite DictFacts.get_set_other; auto.
        intros <-. apply is_synced_get in Hs. congruence.
      * intros k Hin. apply DictFacts.keys_set in Hin. tauto.
      * intros k v Hin Hold. apply DictFacts.in_set in Hin.
        destruct Hin as [[-> _]|Hin]; [congruence | auto].
      * intros _. unfold is_synced. apply DictFacts.mem_get.
        rewrite DictFacts.get_set_same. eauto.
      * intros c [<-|[]]. exists x. repeat split; congruence.
      * intros Hd. unfold synced_entry. now apply all_dicts_set.
      * intros e0 Hn. now rewrite find_set_new.
    + repeat split; auto; try discriminate.
      intros c [<-|[]]. exists x. repeat split; congruence.
Qed.

Lemma classify_cons_ret g e es (l l' : ledger) (w w' : W) ne tr :
  classify g (e :: es) (l, w) = (Ret ne, (l', w'), tr) ->
  exists b l1 w1 tr1 ne1 tr2,
    classify_one g e (l, w) = (Ret b, (l1, w1), tr1)
    /\ classify g es (l1, w1) = (Ret ne1, (l', w'), tr2)
    /\ ne = (if b then e :: ne1 else ne1)
    /\ tr = (tr1 ++ tr2)%list.
Proof.
  simpl. unfold bind at 1.
  destruct (classify_one g e (l, w)) as [[[b|x] [l1 w1]] tr1] eqn:E1; [|discriminate].
  unfold bind at 1.
  destruct (classify g es (l1, w1)) as [[[ne1|x] [l2 w2]] tr2] eqn:E2; [|discriminate].
  unfold ret. simpl. intros E. inversion E; subst.
  exists b, l1, w1, tr1, ne1, tr2. rewrite app_nil_r. auto.
Qed.

(** the effect of the classification loop *)
Lemma classify_facts g es : forall (l l' : ledger) (w w' : W) ne tr,
  classify g es (l, w) = (Ret ne, (l', w'), tr) ->
  (forall k v, Dict.get k l = Some v -> is_old_style_id k = false ->
               Dict.get k l' = Some v)
  /\ (forall k, In k (Dict.keys l') -> In k (Dict.keys l) \/ In k (map event_id es))
  /\ (forall k v, In (k, v) l' -> is_old_style_id k = true -> In (k, v) l)
  /\ (forall c, In c tr ->
        exists e x, c = CheckExists e x /\ In e es /\ is_synced e l = false
                    /\ (truthy x = false -> In e ne))
  /\ (forall e, In e ne ->
        In e es /\ is_synced e l = false
        /\ exists x, In (CheckExists e x) tr /\ truthy x = false)
  /\ (forall e, In e es -> is_synced e l' = true \/ In e ne)
  /\ (all_dicts l -> all_dicts l')
  /\ (forall e0, find_matching_old_event l e0 = Ret None ->
                 find_matching_old_event l' e0 = Ret None).
Proof.
  induction es as [|e es IH]; intros l l' w w' ne tr E.
  - simpl in E. unfold ret in E. inversion E; subst.
    refine (conj _ (conj _ (conj _ (conj _ (conj _ (conj _ (conj _ _)))))));
      auto; intros ? [].
  - apply classify_cons_ret in E.
    destruct E as (b & l1 & w1 & tr1 & ne1 & tr2 & E1 & E2 & -> & ->).
    apply classify_one_facts in E1.
    destruct E1 as (S1 & S2 & S3 & S4 & S5 & S6 & S7 & S8 & S9 & S10).
    apply IH in E2. destruct E2 as (I1 & I2 & I3 & I4 & I5 & I6 & I7 & I8).
    assert (Hback : forall e', is_synced e' l1 = false -> is_synced e' l = false).
    { intros e' Hs. destruct (is_synced e' l) eqn:Hl; auto.
      apply DictFacts.mem_get in Hl. destruct Hl as [v Hv].
      apply S1 in Hv; [|apply event_id_not_old_style].
      apply is_synced_get in Hs. congruence. }
    assert (Hhead : b = true ->
              is_synced e l = false
              /\ exists x, In (CheckExists e x) (tr1 ++ tr2) /\ truthy x = false).
    { intros ->. destruct tr1 as [|c tr1]; [specialize (S7 eq_refl); discriminate|].
      split; [exact S8|].
      destruct (S6 c (or_introl eq_refl)) as (x & -> & Htr & Hx).
      exists x. split; [left; reflexivity | apply Hx; reflexivity]. }
    assert (Htail : forall e', In e' ne1 ->
              In e' (e :: es) /\ is_synced e' l = false
              /\ exists x, In (CheckExists e' x) (tr1 ++ tr2) /\ truthy x = false).
    { intros e' Hin. destruct (I5 _ Hin) as (Hes & Hs & x & Hx & Ht).
      split; [right; auto|]. split; [auto|].
      exists x. split; auto. apply in_or_app. auto. }
    refine (conj _ (conj _ (conj _ (conj _ (conj _ (conj _ (conj _ _))))))).
    + intros k v Hk Hold. eauto.
    + intros k Hin. simpl. destruct (I2 k Hin) as [Hin1|Hin1]; auto.
      destruct (S2 k Hin1); auto.
    + intros k v Hin Hold. eauto.
    + intros c Hin. apply in_app_or in Hin. destruct Hin as [Hin|Hin].
      * destruct (S6 c Hin) as (x & -> & Htr & Hx). exists e, x.
        split; [reflexivity|]. split; [left; reflexivity|]. split.
        -- rewrite S8, Htr. reflexivity.
        -- intros Ht. apply Hx in Ht. subst b. left. reflexivity.
      * destruct (I4 c Hin) as (e' & x & -> & Hin' & Hs & Hx). exists e', x.
        split; [reflexivity|]. split; [right; auto|]. split; [auto|].
        intros Ht. specialize (Hx Ht). destruct b; simpl; auto.
    + intros e' Hin. destruct b.
      * destruct Hin as [<-|Hin]; [|auto].
        destruct (Hhead eq_refl) as [Hs Hx]. split; [left; reflexivity | auto].
      * auto.
    + intros e' [<-|Hin].
      * destruct b.
        -- right. left. reflexivity.
        -- left. specialize (S4 eq_refl). apply DictFacts.mem_get in S4.
           destruct S4 as [v Hv]. apply I1 in Hv; [|apply event_id_not_old_style].
           apply DictFacts.mem_get. eauto.
      * destruct (I6 _ Hin); auto. right. destruct b; simpl; auto.
    + auto.
    + auto.
Qed.

End ClassifyFacts.

Section CreateFacts.

Context {W : Type} `{Platform W}.

Lemma create_one_eq g e (l : ledger) (w : W) :
  create_one g e (l, w)
  = (Ret tt,
     (if truthy (fst (create_event g e w))
      then (Dict.set (event_id e)
              (synced_entry (fst (now (snd (create_event g e w)))) e
                 (fst (create_event g e w))) l,
            snd (now (snd (create_event g e w))))
      else (l, snd (create_event g e w))),
     [CreateEvent e (fst (create_event g e w))]).
Proof.
  unfold create_one, bind, in_world, emit, ret, do_mark_synced. simpl.
  destruct (create_event g e w) as [x w1]. simpl.
  destruct (truthy x); simpl; [rewrite mark_synced_eq|]; reflexivity.
Qed.

Lemma create_loop_cons g e es (s : ledger * W) :
  create_loop g (e :: es) s
  = (let '(_, s1, tr1) := create_one g e s in
     let '(r, s2, tr2) := create_loop g es s1 in
     (r, s2, (tr1 ++ tr2)%list)).
Proof.
  simpl. unfold bind. destruct s as [l w]. rewrite create_one_eq. reflexivity.
Qed.

(** the effect of the creation loop; it always returns *)
Lemma create_loop_facts g ne : forall (l : ledger) (w : W),
  exists l' w' tr,
    create_loop g ne (l, w) = (Ret tt, (l', w'), tr)
    /\ (forall k, (forall e x, In (CreateEvent e x) tr -> event_id e = k ->
                               truthy x = false) ->
                  Dict.get k l' = Dict.get k l)
    /\ (forall k, Dict.mem k l = true -> Dict.mem k l' = true)
    /\ (forall c, In c tr -> exists e x, c = CreateEvent e x /\ In e ne)
    /\ (forall e, In e ne ->
          exists x, In (CreateEvent e x) tr
                    /\ (Forall call_succeeded tr -> Dict.mem (event_id e) l' = true))
    /\ (all_dicts l -> all_dicts l')
    /\ List.length tr = List.length ne.
Proof.
  induction ne as [|e ne IH]; intros l w.
  - exists l, w, []. simpl. unfold ret.
    refine (conj eq_refl (conj _ (conj _ (conj _ (conj _ (conj _ _))))));
      auto; intros ? [].
  - rewrite create_loop_cons, create_one_eq.
    destruct (create_event g e w) as [x w1]. simpl fst. simpl snd.
    cbv beta iota zeta.
    set (s1 := if truthy x
               then (Dict.set (event_id e) (synced_entry (fst (now w1)) e x) l,
                     snd (now w1))
               else (l, w1)).
    destruct s1 as [l1 w2] eqn:Hs1.
    destruct (IH l1 w2) as (l' & w' & tr & E & C1 & C2 & C3 & C4 & C5 & C6).
    exists l', w', (CreateEvent e x :: tr).
    unfold ledger in *. rewrite E.
    assert (Hl1 : l1 = if truthy x
                       then Dict.set (event_id e) (synced_entry (fst (now w1)) e x) l
                       else l).
    { subst s1. destruct (truthy x); inversion Hs1; reflexivity. }
    refine (conj eq_refl (conj _ (conj _ (conj _ (conj _ (conj _ _)))))).
    + intros k Hk. rewrite C1 by (intros e' x' Hin; apply Hk; right; exact Hin).
      rewrite Hl1. destruct (truthy x) eqn:Ht; auto.
      apply DictFacts.get_set_other. intros Ek.
      specialize (Hk e x (or_introl eq_refl) Ek). congruence.
    + intros k Hk. apply C2. rewrite Hl1. destruct (truthy x); auto.
      apply DictFacts.mem_true_iff. apply DictFacts.keys_set. right.
      now apply DictFacts.mem_true_iff.
    + intros c [<-|Hin].
      * exists e, x. split; [reflexivity | left; reflexivity].
      * destruct (C3 c Hin) as (e' & x' & -> & Hin'). exists e', x'.
        split; [reflexivity | right; exact Hin'].
    + intros e' [<-|Hin].
      * exists x. split; [left; reflexivity|]. intros Hall.
        inversion Hall as [|c0 tr0 Hc Htl]. simpl in Hc.
        apply C2. rewrite Hl1, Hc. apply DictFacts.mem_get.
        rewrite DictFacts.get_set_same. eauto.
      * destruct (C4 e' Hin) as (x' & Hx & Hm). exists x'.
        split; [right; exact Hx|]. intros Hall.
        inversion Hall as [|c0 tr0 Hc Htl]. auto.
    + intros Hd. apply C5. rewrite Hl1. destruct (truthy x); auto.
      unfold synced_entry. now apply all_dicts_set.
    + simpl. now rewrite C6.
Qed.

End CreateFacts.

Lemma calls_about_nil k tr :
  (forall c, In c tr -> call_id c <> Some k) -> calls_about k tr = [].
Proof.
  intros Hall. unfold calls_about. induction tr as [|c tr IH]; [reflexivity|].
  simpl. destruct (call_id c) as [k'|] eqn:Hc.
  - destruct (String.eqb_spec k' k) as [->|Hne].
    + exfalso. apply (Hall c (or_introl eq_refl)). exact Hc.
    + apply IH. intros c' Hin. apply Hall. right. exact Hin.
  - apply IH. intros c' Hin. apply Hall. right. exact Hin.
Qed.

Lemma calls_about_app k tr1 tr2 :
  calls_about k (tr1 ++ tr2) = (calls_about k tr1 ++ calls_about k tr2)%list.
Proof. apply filter_app. Qed.

Section DeleteFacts.

Context {W : Type} `{Platform W}.

Lemma get_remove k k' (l : ledger) :
  Dict.get k' (remove_synced_event k l)
  = if String.eqb k k' then None else Dict.get k' l.
Proof.
  unfold remove_synced_event. destruct (String.eqb_spec k k') as [->|Hne].
  - destruct (Dict.mem k' l) eqn:Hm.
    + apply DictFacts.get_del_same.
    + now apply DictFacts.get_none_mem.
  - destruct (Dict.mem k l); auto. now apply DictFacts.get_del_other.
Qed.

Lemma in_remove k k' v (l : ledger) :
  In (k', v) (remove_synced_event k l) -> In (k', v) l.
Proof.
  unfold remove_synced_event. destruct (Dict.mem k l); auto.
  intros Hin. apply DictFacts.in_del in Hin. tauto.
Qed.

(** what one turn of the deletion loop does: it returns exactly when the
    entry is a dictionary (or is missing) *)
Lemma delete_one_eq g k (l : ledger) (w : W) :
  delete_one g k (l, w)
  = match stored_google_event_id k l with
    | Raise x => (Raise x, (l, w), [])
    | Ret gid =>
        if py_truthy gid then
          (Ret tt,
           ((if fst (delete_event g gid w) then remove_synced_event k l else l),
            snd (delete_event g gid w)),
           [DeleteEvent k gid (fst (delete_event g gid w))])
        else (Ret tt, (remove_synced_event k l, w), [])
    end.
Proof.
  unfold delete_one, stored_google_event_id, bind, get_synced_events, try_, in_world,
    emit, ret, set_synced_events. simpl.
  destruct (match Dict.get k l with Some v => v | None => JDict [] end);
    simpl; try reflexivity.
  destruct (py_truthy match Dict.get "google_event_id" d with
                      | Some x => x | None => JNull end); simpl; [|reflexivity].
  destruct (delete_event g _ w) as [ok w1]. simpl. destruct ok; reflexivity.
Qed.

Lemma stored_id_total k (l : ledger) :
  all_dicts l -> exists gid, stored_google_event_id k l = Ret gid.
Proof.
  intros Hd. unfold stored_google_event_id.
  destruct (Dict.get k l) as [v|] eqn:Hg; simpl; eauto.
  apply DictFacts.get_in in Hg. destruct (Hd _ _ Hg) as [d ->]. simpl. eauto.
Qed.

Lemma stored_id_ext k (l l1 : ledger) :
  Dict.get k l1 = Dict.get k l ->
  stored_google_event_id k l1 = stored_google_event_id k l.
Proof. unfold stored_google_event_id. now intros ->. Qed.

Lemma delete_loop_cons g k ks (s : ledger * W) :
  delete_loop g (k :: ks) s
  = match delete_one g k s with
    | (Ret _, s1, tr1) =>
        let '(r, s2, tr2) := delete_loop g ks s1 in (r, s2, (tr1 ++ tr2)%list)
    | (Raise x, s1, tr1) => (Raise x, s1, tr1)
    end.
Proof. reflexivity. Qed.

(** the effect of the deletion loop when it returns *)
Lemma delete_loop_facts g ks : forall (l l' : ledger) (w w' : W) tr,
  delete_loop g ks (l, w) = (Ret tt, (l', w'), tr) ->
  (forall k, ~ In k ks -> Dict.get k l' = Dict.get k l)
  /\ (forall k v, In (k, v) l' -> In (k, v) l)
  /\ (forall c, In c tr -> exists k gid ok, c = DeleteEvent k gid ok /\ In k ks)
  /\ (NoDup ks -> forall k, In k ks ->
        exists gid, stored_google_event_id k l = Ret gid
          /\ if py_truthy gid
             then exists ok,
                    calls_about k tr = [DeleteEvent k gid ok]
                    /\ (ok = true -> Dict.mem k l' = false)
                    /\ (ok = false -> Dict.get k l' = Dict.get k l)
             else calls_about k tr = [] /\ Dict.mem k l' = false).
Proof.
  induction ks as [|k0 ks IH]; intros l l' w w' tr E.
  - simpl in E. unfold ret in E. inversion E; subst.
    refine (conj _ (conj _ (conj _ _))).
    + auto.
    + auto.
    + intros c [].
    + intros _ k [].
  - rewrite delete_loop_cons, delete_one_eq in E.
    destruct (stored_google_event_id k0 l) as [gid|x] eqn:Hgid; [|discriminate].
    set (step := if py_truthy gid
                 then (Ret tt,
                       ((if fst (delete_event g gid w) then remove_synced_event k0 l else l),
                        snd (delete_event g gid w)),
                       [DeleteEvent k0 gid (fst (delete_event g gid w))])
                 else (Ret tt, (remove_synced_event k0 l, w), [])) in E.
    assert (Hstep : exists l1 w1 tr1,
               step = (Ret tt, (l1, w1), tr1)
               /\ (forall k, k <> k0 -> Dict.get k l1 = Dict.get k l)
               /\ (forall k v, In (k, v) l1 -> In (k, v) l)
               /\ (forall c, In c tr1 -> exists ok, c = DeleteEvent k0 gid ok)
               /\ (if py_truthy gid
                   then exists ok, tr1 = [DeleteEvent k0 gid ok]
                          /\ (ok = true -> Dict.mem k0 l1 = false)
                          /\ (ok = false -> l1 = l)
                   else tr1 = [] /\ Dict.mem k0 l1 = false)).
    { subst step. destruct (py_truthy gid).
      - destruct (delete_event g gid w) as [ok w1]. simpl.
        exists (if ok then remove_synced_event k0 l else l), w1, [DeleteEvent k0 gid ok].
        refine (conj eq_refl (conj _ (conj _ (conj _ _)))).
        + intros k Hne. destruct ok; auto. rewrite get_remove.
          destruct (String.eqb_spec k0 k); congruence.
        + intros k v Hin. destruct ok; eauto using in_remove.
        + intros c [<-|[]]. eauto.
        + exists ok. split; [reflexivity|]. split; intros ->; auto.
          apply DictFacts.get_none_mem. rewrite get_remove.
          now rewrite String.eqb_refl.
      - exists (remove_synced_event k0 l), w, [].
        refine (conj eq_refl (conj _ (conj _ (conj _ _)))).
        + intros k Hne. rewrite get_remove.
          destruct (String.eqb_spec k0 k); congruence.
        + intros k v Hin. eauto using in_remove.
        + intros c [].
        + split; [reflexivity|]. apply DictFacts.get_none_mem. rewrite get_remove.
          now rewrite String.eqb_refl. }
    destruct Hstep as (l1 & w1 & tr1 & Hst & P1 & P2 & P3 & P4).
    rewrite Hst in E.
    destruct (delete_loop g ks (l1, w1)) as [[[[]|x] [l2 w2]] tr2] eqn:E2;
      [|discriminate].
    inversion E; subst l2 w2 tr. clear E.
    apply IH in E2. destruct E2 as (I1 & I2 & I3 & I4).
    refine (conj _ (conj _ (conj _ _))).
    + intros k Hk. rewrite I1 by (intros Hin; apply Hk; right; exact Hin).
      apply P1. intros ->. apply Hk. left. reflexivity.
    + intros k v Hin. eauto.
    + intros c Hin. apply in_app_or in Hin. destruct Hin as [Hin|Hin].
      * destruct (P3 c Hin) as [ok ->]. exists k0, gid, ok.
        split; [reflexivity | left; reflexivity].
      * destruct (I3 c Hin) as (k & gid' & ok & -> & Hin').
        exists k, gid', ok. split; [reflexivity | right; exact Hin'].
    + intros Hnd k Hin. inversion Hnd as [|? ? Hnotin Hnd']; subst.
      assert (Hrest : forall k', ~ In k' ks -> calls_about k' tr2 = []).
      { intros k' Hk'. apply calls_about_nil. intros c Hc.
        destruct (I3 c Hc) as (k2 & gid2 & ok2 & -> & Hin2). simpl.
        intros Ek. inversion Ek. subst. contradiction. }
      assert (Hfirst : forall k', k' <> k0 -> calls_about k' tr1 = []).
      { intros k' Hk'. apply calls_about_nil. intros c Hc.
        destruct (P3 c Hc) as (ok2 & ->). simpl. congruence. }
      rewrite calls_about_app.
      destruct Hin as [<-|Hin].
      * exists gid. split; [exact Hgid|]. rewrite (Hrest k0 Hnotin), app_nil_r.
        destruct (py_truthy gid).
        -- destruct P4 as (ok & -> & Q1 & Q2). exists ok. unfold calls_about. simpl.
           rewrite String.eqb_refl. split; [reflexivity|]. split.
           ++ intros Hok. apply DictFacts.get_none_mem. rewrite I1 by exact Hnotin.
              apply DictFacts.get_none_mem. auto.
           ++ intros Hok. rewrite I1 by exact Hnotin. now rewrite Q2.
        -- destruct P4 as [-> Q]. split; [reflexivity|].
           apply DictFacts.get_none_mem. rewrite I1 by exact Hnotin.
           apply DictFacts.get_none_mem. auto.
      * assert (Hne : k <> k0) by (intros ->; contradiction).
        destruct (I4 Hnd' k Hin) as (gid' & Hg' & Hrest').
        exists gid'. split.
        -- rewrite <- Hg'. symmetry. apply stored_id_ext. apply P1. exact Hne.
        -- rewrite (Hfirst k Hne). simpl.
           destruct (py_truthy gid').
           ++ destruct Hrest' as (ok & Hc & Q1 & Q2). exists ok.
              split; [exact Hc|]. split; [exact Q1|].
              intros Hok. rewrite (Q2 Hok). apply P1. exact Hne.
           ++ exact Hrest'.
Qed.

Lemma delete_loop_total g ks : forall (l : ledger) (w : W),
  all_dicts l -> exists l' w' tr, delete_loop g ks (l, w) = (Ret tt, (l', w'), tr).
Proof.
  induction ks as [|k0 ks IH]; intros l w Hd.
  - exists l, w, []. reflexivity.
  - rewrite delete_loop_cons, delete_one_eq.
    destruct (stored_id_total k0 l Hd) as [gid ->].
    assert (Hr : all_dicts (remove_synced_event k0 l)).
    { intros k v Hin. apply in_remove in Hin. eauto. }
    destruct (py_truthy gid).
    + destruct (delete_event g gid w) as [ok w1]. simpl.
      destruct (IH (if ok then remove_synced_event k0 l else l) w1) as (l' & w' & tr & ->).
      { destruct ok; auto. }
      eauto.
    + destruct (IH (remove_synced_event k0 l) w Hr) as (l' & w' & tr & ->). eauto.
Qed.

End DeleteFacts.

(** ** The phases of a cycle *)

Section PhaseFacts.

Context {W : Type} `{Platform W}.

Lemma print_stored_dicts (l : ledger) : print_stored l = Ret tt <-> all_dicts l.
Proof.
  induction l as [|[k v] l IH]; simpl.
  - split; [intros _ k v [] | reflexivity].
  - destruct v; simpl;
      try (split; [discriminate|];
           intros Hd; destruct (Hd k _ (or_introl eq_refl)) as [d' Hd']; discriminate).
    rewrite IH. split.
    + intros Hd k' v' [E|Hin]; [inversion E; eauto | eauto].
    + intros Hd k' v' Hin. apply (Hd k' v'). right. exact Hin.
Qed.

Lemma deleted_event_ids_spec (events : list Event) (l : ledger) k :
  In k (deleted_event_ids events l)
  <-> Dict.mem k l = true /\ ~ In k (map event_id events).
Proof.
  unfold deleted_event_ids, get_synced_event_ids.
  rewrite filter_In, nodup_In, DictFacts.mem_true_iff, negb_true_iff.
  assert (Hex : existsb (String.eqb k) (map event_id events) = false
                <-> ~ In k (map event_id events)).
  { rewrite <- not_true_iff_false, existsb_exists. split.
    - intros Hn Hin. apply Hn. exists k. split; [exact Hin | apply String.eqb_refl].
    - intros Hn (k' & Hin & E). apply String.eqb_eq in E. subst. contradiction. }
  rewrite Hex. tauto.
Qed.

Lemma deleted_event_ids_nodup (events : list Event) (l : ledger) :
  NoDup (deleted_event_ids events l).
Proof. apply NoDup_filter. apply NoDup_nodup. Qed.

Lemma set_iter_in (w : W) ids k : In k (set_iter w ids) <-> In k ids.
Proof.
  split; apply Permutation_in; [|apply Permutation_sym]; apply set_iter_perm.
Qed.

Lemma set_iter_nodup (w : W) ids : NoDup ids -> NoDup (set_iter w ids).
Proof.
  intros Hnd. eapply Permutation_NoDup; [|exact Hnd].
  apply Permutation_sym. apply set_iter_perm.
Qed.

Lemma set_iter_nil (w : W) : set_iter w [] = [].
Proof. apply Permutation_nil. apply Permutation_sym. apply set_iter_perm. Qed.

(** the creation phase: the creation loop, then one save if there was
    anything to create *)
Lemma sync_new_eq g ne (l : ledger) (w : W) :
  exists l' w' trc,
    create_loop g ne (l, w) = (Ret tt, (l', w'), trc)
    /\ sync_new g ne (l, w)
       = (Ret tt, (l', w'),
          (trc ++ match ne with [] => [] | _ => [SaveState l'] end)%list).
Proof.
  destruct (create_loop_facts g ne l w) as (l' & w' & trc & E & _).
  exists l', w', trc. split; [exact E|].
  destruct ne as [|e ne].
  - simpl in E. unfold ret in E. inversion E; subst. reflexivity.
  - unfold sync_new, bind. unfold ledger in *. rewrite E.
    unfold save_state, bind, get_synced_events, emit. simpl. reflexivity.
Qed.

(** the deletion phase: the deletion loop over the candidates in the order
    of the set, then one save if there was a candidate *)
Lemma detect_deleted_eq g events (l : ledger) (w : W) :
  detect_deleted g events (l, w)
  = match delete_loop g (set_iter w (deleted_event_ids events l)) (l, w) with
    | (Ret _, (l', w'), trd) =>
        (Ret tt, (l', w'),
         (trd ++ match deleted_event_ids events l with
                 | [] => []
                 | _ => [SaveState l']
                 end)%list)
    | (Raise x, s, trd) => (Raise x, s, trd)
    end.
Proof.
  unfold detect_deleted, bind, get_synced_events. simpl.
  destruct (deleted_event_ids events l) as [|k ids] eqn:Hids.
  - rewrite set_iter_nil. reflexivity.
  - unfold in_world. simpl.
    destruct (delete_loop g (set_iter w (k :: ids)) (l, w)) as [[[[]|x] [l' w']] trd];
      simpl; [|reflexivity].
    unfold save_state, bind, get_synced_events, emit. simpl. reflexivity.
Qed.

Lemma sync_events_ret g events (l l' : ledger) (w w' : W) tr :
  sync_events g events (l, w) = (Ret tt, (l', w'), tr) ->
  all_dicts l
  /\ exists ne l1 w1 tr1 l2 w2 tr2 tr3,
       classify g events (l, w) = (Ret ne, (l1, w1), tr1)
       /\ sync_new g ne (l1, w1) = (Ret tt, (l2, w2), tr2)
       /\ detect_deleted g events (l2, w2) = (Ret tt, (l', w'), tr3)
       /\ tr = (tr1 ++ tr2 ++ tr3)%list.
Proof.
  unfold sync_events, bind, get_synced_events, try_. simpl.
  destruct (print_stored l) as [[]|x] eqn:Hp; [|discriminate].
  destruct (classify g events (l, w)) as [[[ne|x] [l1 w1]] tr1] eqn:Hc; [|discriminate].
  destruct (sync_new g ne (l1, w1)) as [[[[]|x] [l2 w2]] tr2] eqn:Hn; [|discriminate].
  destruct (detect_deleted g events (l2, w2)) as [[[[]|x] [l3 w3]] tr3] eqn:Hd;
    [|discriminate].
  intros E. inversion E; subst. split; [now apply print_stored_dicts|].
  exists ne, l1, w1, tr1, l2, w2, tr2, tr3. auto.
Qed.

Lemma sync_events_compose g events (l l1 l2 l' : ledger) (w w1 w2 w' : W) ne tr1 tr2 tr3 :
  all_dicts l ->
  classify g events (l, w) = (Ret ne, (l1, w1), tr1) ->
  sync_new g ne (l1, w1) = (Ret tt, (l2, w2), tr2) ->
  detect_deleted g events (l2, w2) = (Ret tt, (l', w'), tr3) ->
  sync_events g events (l, w) = (Ret tt, (l', w'), (tr1 ++ tr2 ++ tr3)%list).
Proof.
  intros Hd Hc Hn Hdd. unfold sync_events, bind, get_synced_events, try_. simpl.
  apply print_stored_dicts in Hd. rewrite Hd. unfold ledger in *.
  rewrite Hc, Hn, Hdd. reflexivity.
Qed.

End PhaseFacts.

Section CycleFacts.

Context {W : Type} `{Platform W}.

Lemma calls_about_save k tr s :
  calls_about k (tr ++ [SaveState s]) = calls_about k tr.
Proof. rewrite calls_about_app. simpl. apply app_nil_r. Qed.

(** the effect of the creation phase *)
Lemma sync_new_facts g ne (l l' : ledger) (w w' : W) tr :
  sync_new g ne (l, w) = (Ret tt, (l', w'), tr) ->
  (forall k, (forall e x, In (CreateEvent e x) tr -> event_id e = k ->
                          truthy x = false) ->
             Dict.get k l' = Dict.get k l)
  /\ (forall k, Dict.mem k l = true -> Dict.mem k l' = true)
  /\ (forall c, In c tr ->
        (exists e x, c = CreateEvent e x /\ In e ne) \/ (exists s, c = SaveState s))
  /\ (forall e, In e ne ->
        exists x, In (CreateEvent e x) tr
                  /\ (Forall call_succeeded tr -> Dict.mem (event_id e) l' = true))
  /\ (all_dicts l -> all_dicts l').
Proof.
  intros E.
  destruct (create_loop_facts g ne l w) as (l2 & w2 & trc & El & C1 & C2 & C3 & C4 & C5 & _).
  destruct (sync_new_eq g ne l w) as (l3 & w3 & trc3 & El3 & En).
  unfold ledger in *. rewrite El in El3. inversion El3; subst l3 w3 trc3. clear El3.
  rewrite En in E. inversion E; subst l' w' tr. clear E.
  refine (conj _ (conj _ (conj _ (conj _ _)))); auto.
  - intros k Hk. apply C1. intros e x Hin. apply Hk. apply in_or_app. auto.
  - intros c Hin. apply in_app_or in Hin. destruct Hin as [Hin|Hin].
    + left. auto.
    + right. destruct ne; simpl in Hin; [contradiction|].
      destruct Hin as [<-|[]]. eauto.
  - intros e Hin. destruct (C4 e Hin) as (x & Hx & Hm). exists x.
    split; [apply in_or_app; auto|]. intros Hall. apply Hm.
    apply Forall_app in Hall. tauto.
Qed.

(** the effect of the deletion phase *)
Lemma detect_deleted_facts g events (l l' : ledger) (w w' : W) tr :
  detect_deleted g events (l, w) = (Ret tt, (l', w'), tr) ->
  (forall k, ~ In k (deleted_event_ids events l) ->
             Dict.get k l' = Dict.get k l /\ calls_about k tr = [])
  /\ (forall k v, In (k, v) l' -> In (k, v) l)
  /\ (forall c, In c tr ->
        (exists k gid ok, c = DeleteEvent k gid ok /\ In k (deleted_event_ids events l))
        \/ (exists s, c = SaveState s))
  /\ (forall k, In k (deleted_event_ids events l) ->
        exists gid, stored_google_event_id k l = Ret gid
          /\ if py_truthy gid
             then exists ok,
                    calls_about k tr = [DeleteEvent k gid ok]
                    /\ (ok = true -> Dict.mem k l' = false)
                    /\ (ok = false -> Dict.get k l' = Dict.get k l)
             else calls_about k tr = [] /\ Dict.mem k l' = false).
Proof.
  rewrite detect_deleted_eq.
  destruct (delete_loop g (set_iter w (deleted_event_ids events l)) (l, w))
    as [[[[]|x] [l2 w2]] trd] eqn:El; [|discriminate].
  intros E. inversion E; subst l2 w2 tr. clear E.
  apply delete_loop_facts in El. destruct El as (D1 & D2 & D3 & D4).
  assert (Hsave : forall k,
            calls_about k (trd ++ match deleted_event_ids events l with
                                  | [] => []
                                  | _ => [SaveState l']
                                  end) = calls_about k trd).
  { intros k. destruct (deleted_event_ids events l).
    - now rewrite app_nil_r.
    - apply calls_about_save. }
  refine (conj _ (conj _ (conj _ _))); auto.
  - intros k Hk. split.
    + apply D1. now rewrite set_iter_in.
    + rewrite Hsave. apply calls_about_nil. intros c Hc.
      destruct (D3 c Hc) as (k2 & gid & ok & -> & Hin). simpl.
      intros Ek. inversion Ek; subst. apply Hk. now apply set_iter_in in Hin.
  - intros c Hin. apply in_app_or in Hin. destruct Hin as [Hin|Hin].
    + left. destruct (D3 c Hin) as (k & gid & ok & -> & Hk).
      exists k, gid, ok. split; auto. now apply set_iter_in in Hk.
    + right. destruct (deleted_event_ids events l); simpl in Hin; [contradiction|].
      destruct Hin as [<-|[]]. eauto.
  - intros k Hk. rewrite Hsave. apply D4.
    + apply set_iter_nodup. apply deleted_event_ids_nodup.
    + now apply set_iter_in.
Qed.

Lemma detect_deleted_total g events (l : ledger) (w : W) :
  all_dicts l ->
  exists l' w' tr, detect_deleted g events (l, w) = (Ret tt, (l', w'), tr).
Proof.
  intros Hd. rewrite detect_deleted_eq.
  destruct (delete_loop_total g (set_iter w (deleted_event_ids events l)) l w Hd)
    as (l' & w' & trd & ->).
  eauto.
Qed.

(** when every event of the snapshot is in the ledger, classification
    changes nothing and asks nothing *)
Lemma classify_all_synced g events : forall (l : ledger) (w : W),
  Forall (fun e => is_synced e l = true) events ->
  classify g events (l, w) = (Ret [], (l, w), []).
Proof.
  induction events as [|e events IH]; intros l w Hall; [reflexivity|].
  inversion Hall as [|? ? He Hrest]; subst. simpl.
  unfold bind at 1. unfold classify_one, bind at 1, get_synced_events. simpl.
  rewrite He. unfold ret at 1. simpl. unfold bind.
  rewrite (IH l w Hrest). reflexivity.
Qed.

End CycleFacts.

Example deletion_phase_run :
  detect_deleted Sim.google [Sim.sync_review] (Sim.deletion_ledger, Sim.deleting)
  = (Ret tt,
     ([("outlook-7308de134f927982",
        Sim.entry "2024-05-31T09:00:00" "2024-06-01T10:00:00" "Sync Review" (JStr "g1"));
       ("outlook-00000000000000cc",
        Sim.entry "2024-05-30T09:00:00" "2024-05-31T12:00:00" "Demo" (JStr "g9"))],
      Sim.quiet),
     [DeleteEvent "outlook-00000000000000aa" (JStr "g7") true;
      DeleteEvent "outlook-00000000000000cc" (JStr "g9") false;
      SaveState
        [("outlook-7308de134f927982",
          Sim.entry "2024-05-31T09:00:00" "2024-06-01T10:00:00" "Sync Review" (JStr "g1"));
         ("outlook-00000000000000cc",
          Sim.entry "2024-05-30T09:00:00" "2024-05-31T12:00:00" "Demo" (JStr "g9"))]]).
Proof. vm_compute. reflexivity. Qed.

(** ** Idempotence *)

Section Idempotence.

Context {W : Type} `{Platform W}.

(** after a cycle in which every creation and every deletion succeeded, the
    keys of the ledger are the identifiers of the snapshot *)
Lemma successful_cycle_ledger g events (l l1 : ledger) (w w1 : W) tr1 :
  sync_events g events (l, w) = (Ret tt, (l1, w1), tr1) ->
  Forall call_succeeded tr1 ->
  all_dicts l1
  /\ Forall (fun e => is_synced e l1 = true) events
  /\ deleted_event_ids events l1 = [].
Proof.
  intros E Hok. apply sync_events_ret in E.
  destruct E as (Hd & ne & la & wa & tra & lb & wb & trb & trc & Ec & En & Ed & ->).
  apply Forall_app in Hok. destruct Hok as [_ Hok].
  apply Forall_app in Hok. destruct Hok as [Hokb Hokc].
  apply classify_facts in Ec. destruct Ec as (_ & _ & _ & _ & _ & K6 & K7 & _).
  apply sync_new_facts in En. destruct En as (_ & N2 & _ & N4 & N5).
  apply detect_deleted_facts in Ed. destruct Ed as (D1 & D2 & _ & D4).
  assert (Hb : forall e, In e events -> is_synced e lb = true).
  { intros e Hin. destruct (K6 e Hin) as [Hs|Hne].
    - apply N2. exact Hs.
    - destruct (N4 e Hne) as (x & _ & Hm). apply Hm. exact Hokb. }
  assert (Hgone : forall k, In k (deleted_event_ids events lb) -> Dict.mem k l1 = false).
  { intros k Hk. destruct (D4 k Hk) as (gid & _ & Hg). destruct (py_truthy gid).
    - destruct Hg as (ok & Hc & Hyes & _). apply Hyes.
      assert (Hin : In (DeleteEvent k gid ok) (calls_about k trc))
        by (rewrite Hc; left; reflexivity).
      unfold calls_about in Hin. apply filter_In in Hin. destruct Hin as [Hin _].
      rewrite Forall_forall in Hokc. apply (Hokc _ Hin).
    - tauto. }
  split; [|split].
  - intros k v Hin. apply D2 in Hin. apply (N5 (K7 Hd) k v Hin).
  - apply Forall_forall. intros e Hin. unfold is_synced.
    assert (Hno : ~ In (event_id e) (deleted_event_ids events lb)).
    { rewrite deleted_event_ids_spec. intros [_ Hn]. apply Hn. now apply in_map. }
    apply DictFacts.mem_get. destruct (D1 _ Hno) as [-> _].
    apply DictFacts.mem_get. apply Hb. exact Hin.
  - destruct (deleted_event_ids events l1) as [|k ids] eqn:Hids; [reflexivity|].
    exfalso.
    assert (Hk : In k (deleted_event_ids events l1)) by (rewrite Hids; left; reflexivity).
    apply deleted_event_ids_spec in Hk. destruct Hk as [Hm Hn].
    assert (Hkb : In k (deleted_event_ids events lb)).
    { apply deleted_event_ids_spec. split; [|exact Hn].
      apply DictFacts.mem_true_iff. apply DictFacts.mem_get in Hm.
      destruct Hm as [v Hv]. apply DictFacts.get_in in Hv. apply D2 in Hv.
      eapply DictFacts.in_keys. exact Hv. }
    apply Hgone in Hkb. congruence.
Qed.

(** a cycle over a snapshot whose events are all in a ledger of
    dictionaries without other keys does nothing *)
Lemma settled_cycle g events (l : ledger) (w : W) :
  all_dicts l ->
  Forall (fun e => is_synced e l = true) events ->
  deleted_event_ids events l = [] ->
  sync_events g events (l, w) = (Ret tt, (l, w), []).
Proof.
  intros Hd Hs Hdel.
  apply (sync_events_compose g events l l l l w w w w [] [] [] [] Hd).
  - now apply classify_all_synced.
  - reflexivity.
  - rewrite detect_deleted_eq, Hdel, set_iter_nil. reflexivity.
Qed.

End Idempotence.

(** C1: when a cycle over a snapshot has returned and each of its creations
    and deletions succeeded, a second cycle over the same snapshot, in
    whatever state the world is, finds every event in the ledger and no
    candidate for deletion: it returns with the ledger unchanged and
    without any call (no lookup, no creation, no deletion, no save). *)
Theorem C1_second_cycle_is_idle {W : Type} `{Platform W}
  g events (l l1 : ledger) (w w1 : W) tr1 :
  sync_events g events (l, w) = (Ret tt, (l1, w1), tr1) ->
  Forall call_succeeded tr1 ->
  forall g2 w2,
    Forall (fun e => is_synced e l1 = true) events
    /\ deleted_event_ids events l1 = []
    /\ sync_events g2 events (l1, w2) = (Ret tt, (l1, w2), []).
Proof.
  intros E Hok g2 w2.
  destruct (successful_cycle_ledger g events l l1 w w1 tr1 E Hok) as (Hd & Hs & Hdel).
  split; [exact Hs|]. split; [exact Hdel|]. now apply settled_cycle.
Qed.

Example first_cycle_run :
  sync_events Sim.google [Sim.sync_review] ([], Sim.accepting)
  = (Ret tt, (Sim.review_ledger, Sim.quiet),
     [CheckExists Sim.sync_review None;
      CreateEvent Sim.sync_review (Some "g1");
      SaveState Sim.review_ledger]).
Proof. vm_compute. reflexivity. Qed.

(** the cycle after the one that created [sync_review] as [g1] *)
Lemma C1_second_cycle_witness :
  Forall (fun e => is_synced e Sim.review_ledger = true) [Sim.sync_review]
  /\ deleted_event_ids [Sim.sync_review] Sim.review_ledger = []
  /\ sync_events Sim.google [Sim.sync_review] (Sim.review_ledger, Sim.quiet)
     = (Ret tt, (Sim.review_ledger, Sim.quiet), []).
Proof.
  apply (C1_second_cycle_is_idle Sim.google [Sim.sync_review] []
           Sim.review_ledger Sim.accepting Sim.quiet
           [CheckExists Sim.sync_review None;
            CreateEvent Sim.sync_review (Some "g1");
            SaveState Sim.review_ledger]).
  - vm_compute. reflexivity.
  - repeat constructor.
Defined.

(** ** Pruning *)

(** C3, as stated, fails: an entry synced in January, whose event is still
    in the snapshot, is in the ledger after a cycle run in June, although
    [cleanup_old_events] would list it. *)
Lemma C3_aged_entry_survives_cycle :
  sync_events Sim.google [Sim.sync_review] (Sim.january_ledger, Sim.quiet)
  = (Ret tt, (Sim.january_ledger, Sim.quiet), [])
  /\ Dict.mem "outlook-7308de134f927982" Sim.january_ledger = true
  /\ stale (W := Sim.world) (minus_days Sim.june_1st 60)
       (Sim.entry "2024-01-01T09:00:00" "2024-06-01T10:00:00" "Sync Review" (JStr "g1"))
     = true.
Proof. repeat split; vm_compute; reflexivity. Qed.

Section Pruning.

Context {W : Type} `{Platform W}.

(** a cycle leaves the entry of every event of the snapshot as it is *)
Lemma cycle_keeps_snapshot_entries g events (l l' : ledger) (w w' : W) tr e v :
  sync_events g events (l, w) = (Ret tt, (l', w'), tr) ->
  In e events ->
  Dict.get (event_id e) l = Some v ->
  Dict.get (event_id e) l' = Some v.
Proof.
  intros E Hin Hv. apply sync_events_ret in E.
  destruct E as (Hd & ne & la & wa & tra & lb & wb & trb & trc & Ec & En & Ed & ->).
  apply classify_facts in Ec. destruct Ec as (K1 & _ & _ & _ & K5 & _).
  apply sync_new_facts in En. destruct En as (N1 & _ & N3 & _).
  apply detect_deleted_facts in Ed. destruct Ed as (D1 & _).
  assert (Hno : ~ In (event_id e) (deleted_event_ids events lb)).
  { rewrite deleted_event_ids_spec. intros [_ Hn]. apply Hn. now apply in_map. }
  destruct (D1 _ Hno) as [-> _]. rewrite N1.
  - apply K1; [exact Hv | apply event_id_not_old_style].
  - intros e' x Hc Eid. destruct (N3 _ Hc) as [(e2 & x2 & Ec2 & Hne)|(s & Es)];
      [|discriminate].
    inversion Ec2; subst e2 x2. destruct (K5 e' Hne) as (_ & Hs & _).
    apply is_synced_get in Hs. congruence.
Qed.

End Pruning.

(** C3, amended: entries are pruned by age when the ledger is loaded
    ([load_state] runs [cleanup_old_events]), not by [sync_events].  A cycle
    removes no entry for its age: the entry of an event of the snapshot,
    however old, is the same after the cycle.  What [load_state] leaves is
    empty or is what is left of the mapping of the file: every entry is at
    most sixty days old at the clock reading of the load (for a mapping, the
    reading at its start; for a flat list, the reading that follows the
    conversion of the list). *)
Theorem C3_pruning_at_load_only {W : Type} `{Platform W}
  g events (l l' : ledger) (w w' : W) tr e v :
  sync_events g events (l, w) = (Ret tt, (l', w'), tr) ->
  In e events ->
  Dict.get (event_id e) l = Some v ->
  Dict.get (event_id e) l' = Some v
  /\ forall f w0 l0 w1,
       SyncMonitor_init f w0 = (Ret l0, w1) ->
       l0 = []
       \/ exists st, f = FileJson (JDict st)
          /\ ((exists d, Dict.get "synced_events" st = Some (JDict d)
                         /\ w1 = snd (now w0)
                         /\ forall k v0, In (k, v0) l0 ->
                               In (k, v0) d /\ fresh_entry (fst (now w0)) v0)
              \/ (exists ids lc wc,
                    json_get (JDict st) "synced_events" (JList []) = Ret (JList ids)
                    /\ convert_old_format ids [] true w0 = (Ret lc, wc)
                    /\ w1 = snd (now wc)
                    /\ forall k v0, In (k, v0) l0 ->
                          In (k, v0) lc /\ fresh_entry (fst (now wc)) v0)).
Proof.
  intros E Hin Hv. split.
  - eapply cycle_keeps_snapshot_entries; eauto.
  - intros f w0 l0 w1. apply load_state_fresh.
Qed.

(** the January entry of [sync_review] across a cycle run in June *)
Lemma C3_pruning_witness :
  Dict.get (event_id Sim.sync_review) Sim.january_ledger
  = Some (Sim.entry "2024-01-01T09:00:00" "2024-06-01T10:00:00" "Sync Review" (JStr "g1"))
  /\ forall f w0 l0 w1,
       SyncMonitor_init f w0 = (Ret l0, w1) ->
       l0 = []
       \/ exists st, f = FileJson (JDict st)
          /\ ((exists d, Dict.get "synced_events" st = Some (JDict d)
                         /\ w1 = snd (now w0)
                         /\ forall k v0, In (k, v0) l0 ->
                               In (k, v0) d
                               /\ fresh_entry (W := Sim.world) (fst (now w0)) v0)
              \/ (exists ids lc wc,
                    json_get (JDict st) "synced_events" (JList []) = Ret (JList ids)
                    /\ convert_old_format ids [] true w0 = (Ret lc, wc)
                    /\ w1 = snd (now wc)
                    /\ forall k v0, In (k, v0) l0 ->
                          In (k, v0) lc
                          /\ fresh_entry (W := Sim.world) (fst (now wc)) v0)).
Proof.
  apply (C3_pruning_at_load_only Sim.google [Sim.sync_review]
           Sim.january_ledger Sim.january_ledger Sim.quiet Sim.quiet []
           Sim.sync_review).
  - vm_compute. reflexivity.
  - left. reflexivity.
  - vm_compute. reflexivity.
Defined.

(** ** Events with the same identifier *)

Lemma some_inj (A : Type) (a b : A) : Some a = Some b -> a = b.
Proof. intros E. inversion E. reflexivity. Qed.

(** C8, as stated, fails: of two events with the same identifier that are
    both new, each is looked up and each is created. *)
Lemma C8_duplicates_both_created :
  event_id Sim.sync_review = "outlook-7308de134f927982"
  /\ sync_events Sim.google [Sim.sync_review; Sim.sync_review] ([], Sim.accepting_twice)
     = (Ret tt,
        ([("outlook-7308de134f927982",
           Sim.entry "2024-06-01T09:00:00" "2024-06-01T10:00:00" "Sync Review" (JStr "g2"))],
         Sim.quiet),
        [CheckExists Sim.sync_review None;
         CheckExists Sim.sync_review None;
         CreateEvent Sim.sync_review (Some "g1");
         CreateEvent Sim.sync_review (Some "g2");
         SaveState
           [("outlook-7308de134f927982",
             Sim.entry "2024-06-01T09:00:00" "2024-06-01T10:00:00" "Sync Review"
               (JStr "g2"))]]).
Proof. split; vm_compute; reflexivity. Qed.

Section Duplicates.

Context {W : Type} `{Platform W}.

Lemma classify_app_ret g pre : forall post (l l' : ledger) (w w' : W) ne tr,
  classify g (pre ++ post) (l, w) = (Ret ne, (l', w'), tr) ->
  exists nep lp wp trp neq trq,
    classify g pre (l, w) = (Ret nep, (lp, wp), trp)
    /\ classify g post (lp, wp) = (Ret neq, (l', w'), trq)
    /\ ne = (nep ++ neq)%list /\ tr = (trp ++ trq)%list.
Proof.
  induction pre as [|e pre IH]; intros post l l' w w' ne tr E.
  - exists [], l, w, [], ne, tr. simpl in *. auto.
  - rewrite <- app_comm_cons in E. apply classify_cons_ret in E.
    destruct E as (b & l1 & w1 & tr1 & ne1 & tr2 & E1 & E2 & -> & ->).
    apply IH in E2. destruct E2 as (nep & lp & wp & trp & neq & trq & Ep & Eq & -> & ->).
    exists (if b then e :: nep else nep), lp, wp, (tr1 ++ trp)%list, neq, trq.
    split; [|split; [exact Eq|split]].
    + simpl. unfold bind at 1. unfold ledger in *. rewrite E1.
      unfold bind at 1. rewrite Ep. unfold ret. simpl. now rewrite app_nil_r.
    + destruct b; reflexivity.
    + now rewrite app_assoc.
Qed.

Lemma calls_about_self e x :
  calls_about (event_id e) [CheckExists e x] = [CheckExists e x].
Proof. unfold calls_about. simpl. now rewrite String.eqb_refl. Qed.

(** once an identifier is in the ledger, the rest of the cycle makes no call
    about it, provided it is an identifier of the snapshot *)
Lemma synced_id_is_left_alone g events post (l1 la lb l' : ledger)
  (w1 wa wb w' : W) e1 nep neq trq trb trc :
  is_synced e1 l1 = true ->
  In e1 events ->
  classify g post (l1, w1) = (Ret neq, (la, wa), trq) ->
  (forall e, In e nep -> In e events /\ event_id e <> event_id e1) ->
  (forall e, In e neq -> In e events) ->
  sync_new g (nep ++ neq) (la, wa) = (Ret tt, (lb, wb), trb) ->
  detect_deleted g events (lb, wb) = (Ret tt, (l', w'), trc) ->
  calls_about (event_id e1) (trq ++ trb ++ trc) = []
  /\ is_synced e1 l' = true.
Proof.
  intros Hs Hin Eq Hnep Hneq En Ed.
  apply classify_facts in Eq. destruct Eq as (K1 & _ & _ & K4 & K5 & _).
  apply sync_new_facts in En. destruct En as (_ & N2 & N3 & _).
  apply detect_deleted_facts in Ed. destruct Ed as (D1 & _).
  assert (Hno : ~ In (event_id e1) (deleted_event_ids events lb)).
  { rewrite deleted_event_ids_spec. intros [_ Hn]. apply Hn. now apply in_map. }
  assert (Hq : forall e, is_synced e l1 = false -> event_id e <> event_id e1).
  { intros e He Eid. unfold is_synced in *. congruence. }
  split.
  - rewrite !calls_about_app. destruct (D1 _ Hno) as [_ ->].
    rewrite app_nil_r.
    rewrite (calls_about_nil (event_id e1) trq), (calls_about_nil (event_id e1) trb);
      [reflexivity| |].
    + intros c Hc. destruct (N3 c Hc) as [(e & x & -> & Hne)|(s & ->)];
        [|discriminate].
      simpl. intros Eid. pose proof (some_inj _ _ _ Eid) as Eid'. apply in_app_or in Hne.
      destruct Hne as [Hne|Hne].
      * apply (proj2 (Hnep e Hne)). exact Eid'.
      * destruct (K5 e Hne) as (_ & He & _). apply (Hq e He). exact Eid'.
    + intros c Hc. destruct (K4 c Hc) as (e & x & -> & _ & He & _). simpl.
      intros Eid. pose proof (some_inj _ _ _ Eid) as Eid'. apply (Hq e He). exact Eid'.
  - unfold is_synced in *. apply DictFacts.mem_get. destruct (D1 _ Hno) as [-> _].
    apply DictFacts.mem_get. apply N2. apply DictFacts.mem_get in Hs.
    destruct Hs as [v Hv]. apply DictFacts.mem_get. exists v.
    apply K1; [exact Hv | apply event_id_not_old_style].
Qed.

End Duplicates.

(** C8, amended: events with the same identifier collapse only from the
    moment the identifier is in the ledger.  Let [e1] be the first event of
    the snapshot with its identifier, reached in state [(lp, wp)].  If its
    turn does not put it on [new_events] (it was already synced, or it was
    migrated from an old identifier, or it was found in the calendar), then
    the calls of the whole cycle about that identifier are those of this one
    turn, at most one lookup: every later event with the identifier is
    skipped as already synced and triggers neither lookup, creation nor
    deletion.  (Events that are put on [new_events] are each looked up and
    each created.) *)
Theorem C8_later_duplicates_skipped {W : Type} `{Platform W}
  g pre e1 post (l lp l1 l' : ledger) (w wp w1 w' : W) nep trp t1 tr :
  (forall e0, In e0 pre -> event_id e0 <> event_id e1) ->
  classify g pre (l, w) = (Ret nep, (lp, wp), trp) ->
  classify_one g e1 (lp, wp) = (Ret false, (l1, w1), t1) ->
  sync_events g (pre ++ e1 :: post) (l, w) = (Ret tt, (l', w'), tr) ->
  calls_about (event_id e1) tr = t1
  /\ (t1 = [] \/ exists x, t1 = [CheckExists e1 x] /\ truthy x = true)
  /\ is_synced e1 l1 = true
  /\ is_synced e1 l' = true.
Proof.
  intros Hfirst Ep E1 E. apply sync_events_ret in E.
  destruct E as (Hd & ne & la & wa & tra & lb & wb & trb & trc & Ec & En & Ed & ->).
  apply classify_app_ret in Ec.
  destruct Ec as (nep' & lp' & wp' & trp' & neq & trq & Ep' & Eq & -> & ->).
  unfold ledger in *. rewrite Ep in Ep'. inversion Ep'; subst nep' lp' wp' trp'. clear Ep'.
  apply classify_cons_ret in Eq.
  destruct Eq as (b & l1' & w1' & t1' & ne1 & tr2 & E1' & E2 & -> & ->).
  unfold ledger in *. rewrite E1 in E1'. inversion E1'; subst b l1' w1' t1'. clear E1'.
  pose proof (classify_one_facts _ _ _ _ _ _ _ _ E1)
    as (_ & _ & _ & S4 & _ & S6 & _).
  specialize (S4 eq_refl).
  pose proof (classify_facts _ _ _ _ _ _ _ _ Ep) as (_ & _ & _ & P4 & P5 & _).
  pose proof (classify_facts _ _ _ _ _ _ _ _ E2) as (_ & _ & _ & _ & Q5 & _).
  assert (Hin1 : In e1 (pre ++ e1 :: post)) by (apply in_or_app; right; left; reflexivity).
  destruct (synced_id_is_left_alone g (pre ++ e1 :: post) post l1 la lb l'
              w1 wa wb w' e1 nep ne1 tr2 trb trc S4 Hin1 E2) as [Hrest Hend]; auto.
  - intros e He. destruct (P5 e He) as (Hpre & _). split; auto.
    apply in_or_app. auto.
  - intros e He. destruct (Q5 e He) as (Hpost & _).
    apply in_or_app. right. right. exact Hpost.
  - assert (Ht1 : t1 = [] \/ exists x, t1 = [CheckExists e1 x] /\ truthy x = true).
    { destruct t1 as [|c t1]; [left; reflexivity|]. right.
      destruct (S6 c (or_introl eq_refl)) as (x & -> & Htr & Hx).
      exists x. split; [exact Htr|]. destruct (truthy x); auto.
      destruct Hx as [Hx _]. specialize (Hx eq_refl). discriminate. }
    split; [|split; [exact Ht1|split; [exact S4|exact Hend]]].
    rewrite <- !app_assoc. rewrite calls_about_app.
    rewrite (calls_about_nil (event_id e1) trp).
    + simpl. rewrite calls_about_app.
      replace (calls_about (event_id e1) (tr2 ++ trb ++ trc)) with (@nil call).
      rewrite app_nil_r.
      destruct Ht1 as [->|(x & -> & _)]; [reflexivity | apply calls_about_self].
    + intros c Hc. destruct (P4 c Hc) as (e & x & -> & He & _). simpl.
      intros Eid. pose proof (some_inj _ _ _ Eid) as Eid'. apply (Hfirst e He). exact Eid'.
Qed.

(** [sync_review] twice in the snapshot, its mirror already in the calendar *)
Lemma C8_later_duplicates_witness :
  calls_about (event_id Sim.sync_review)
    [CheckExists Sim.sync_review (Some "g5")]
  = [CheckExists Sim.sync_review (Some "g5")]
  /\ ([CheckExists Sim.sync_review (Some "g5")] = []
      \/ exists x, [CheckExists Sim.sync_review (Some "g5")]
                   = [CheckExists Sim.sync_review x] /\ truthy x = true)
  /\ is_synced Sim.sync_review Sim.found_ledger = true
  /\ is_synced Sim.sync_review Sim.found_ledger = true.
Proof.
  apply (C8_later_duplicates_skipped Sim.google [] Sim.sync_review [Sim.sync_review]
           [] [] Sim.found_ledger Sim.found_ledger
           Sim.listing Sim.listing Sim.quiet Sim.quiet [] []
           [CheckExists Sim.sync_review (Some "g5")]
           [CheckExists Sim.sync_review (Some "g5")]).
  - intros e0 [].
  - reflexivity.
  - vm_compute. reflexivity.
  - vm_compute. reflexivity.
Defined.

(** ** A creation that fails *)

Section Retry.

Context {W : Type} `{Platform W}.

(** an event that is neither in the ledger nor matched by an old entry, and
    that the calendar does not report, is put on [new_events] at each of its
    turns and is not in the ledger after classification *)
Lemma unmatched_event_is_new g E es : forall (l l' : ledger) (w w' : W) ne tr,
  classify g es (l, w) = (Ret ne, (l', w'), tr) ->
  is_synced E l = false ->
  find_matching_old_event l E = Ret None ->
  (forall e', In e' es -> event_id e' = event_id E -> e' = E) ->
  (forall x, In (CheckExists E x) tr -> truthy x = false) ->
  is_synced E l' = false
  /\ (In E es -> In E ne /\ exists x, In (CheckExists E x) tr).
Proof.
  induction es as [|h es IH]; intros l l' w w' ne tr Ec Hs Hf HU Hx.
  - simpl in Ec. unfold ret in Ec. inversion Ec; subst. split; [exact Hs | intros []].
  - apply classify_cons_ret in Ec.
    destruct Ec as (b & l1 & w1 & tr1 & ne1 & tr2 & E1 & E2 & -> & ->).
    assert (HU' : forall e', In e' es -> event_id e' = event_id E -> e' = E)
      by (intros e' Hin; apply HU; right; exact Hin).
    assert (Hx2 : forall x, In (CheckExists E x) tr2 -> truthy x = false)
      by (intros x Hin; apply Hx; apply in_or_app; right; exact Hin).
    destruct (String.eqb_spec (event_id h) (event_id E)) as [Eid|Hne].
    + assert (h = E) by (apply HU; [left; reflexivity | exact Eid]). subst h.
      apply classify_one_ret in E1.
      destruct E1 as [(Hs' & _)
                     | [(_ & _ & _ & _ & o & d & Hf' & _)
                       | (_ & _ & x & w2 & Hc & -> & Hcase)]]; try congruence.
      assert (Ht : truthy x = false) by (apply Hx; left; reflexivity).
      destruct Hcase as [(Ht' & _)|(_ & -> & -> & ->)]; [congruence|].
      destruct (IH _ _ _ _ _ _ E2 Hs Hf HU' Hx2) as [Hend _].
      split; [exact Hend|]. intros _. split; [left; reflexivity|].
      exists x. left. reflexivity.
    + pose proof (classify_one_facts _ _ _ _ _ _ _ _ E1)
        as (_ & S2 & _ & _ & _ & _ & _ & _ & _ & S10).
      assert (Hs1 : is_synced E l1 = false).
      { unfold is_synced in *. apply DictFacts.mem_false_iff. intros Hin.
        destruct (S2 _ Hin) as [Hin'|Eid]; [|congruence].
        apply DictFacts.mem_true_iff in Hin'. congruence. }
      destruct (IH _ _ _ _ _ _ E2 Hs1 (S10 E Hf) HU' Hx2) as [Hend Hin].
      split; [exact Hend|]. intros [->|HinE]; [congruence|].
      destruct (Hin HinE) as (Hne1 & x & Hc).
      split.
      * destruct b; simpl; auto.
      * exists x. apply in_or_app. right. exact Hc.
Qed.

(** an event on [new_events] whose lookups all reported nothing is not in
    the ledger after classification *)
Lemma new_event_not_in_ledger g E es : forall (l l' : ledger) (w w' : W) ne tr,
  classify g es (l, w) = (Ret ne, (l', w'), tr) ->
  In E ne ->
  (forall e', In e' es -> event_id e' = event_id E -> e' = E) ->
  (forall x, In (CheckExists E x) tr -> truthy x = false) ->
  is_synced E l' = false.
Proof.
  induction es as [|h es IH]; intros l l' w w' ne tr Ec Hne HU Hx.
  - simpl in Ec. unfold ret in Ec. inversion Ec; subst. destruct Hne.
  - apply classify_cons_ret in Ec.
    destruct Ec as (b & l1 & w1 & tr1 & ne1 & tr2 & E1 & E2 & -> & ->).
    assert (HU' : forall e', In e' es -> event_id e' = event_id E -> e' = E)
      by (intros e' Hin; apply HU; right; exact Hin).
    assert (Hx2 : forall x, In (CheckExists E x) tr2 -> truthy x = false)
      by (intros x Hin; apply Hx; apply in_or_app; right; exact Hin).
    assert (Hcases : In E ne1 \/ (b = true /\ h = E)).
    { destruct b; simpl in Hne; auto. destruct Hne as [->|Hne]; auto. }
    destruct Hcases as [Hne1|[-> ->]].
    + eapply IH; eauto.
    + apply classify_one_ret in E1.
      destruct E1 as [(_ & Hb & _)
                     | [(_ & Hb & _)
                       | (Hs & Hf & x & w2 & Hc & -> & Hcase)]]; try discriminate.
      destruct Hcase as [(_ & Hb & _)|(_ & _ & -> & ->)]; [discriminate|].
      apply (unmatched_event_is_new g E es _ _ _ _ _ _ E2 Hs Hf HU' Hx2).
Qed.

End Retry.

(** C4, as stated, fails: a second event of the snapshot has the identifier
    of [sync_review]; the creation for [sync_review] fails and the one for
    the second event succeeds, which writes an entry under the identifier
    of [sync_review] in the cycle in which its creation failed. *)
Lemma C4_entry_written_after_failed_create :
  event_id Cases.review_in_work = event_id Sim.sync_review
  /\ sync_events Sim.google [Sim.sync_review; Cases.review_in_work]
       ([], Sim.refusing_once)
     = (Ret tt, (Sim.review_ledger, Sim.quiet),
        [CheckExists Sim.sync_review None;
         CheckExists Cases.review_in_work None;
         CreateEvent Sim.sync_review None;
         CreateEvent Cases.review_in_work (Some "g1");
         SaveState Sim.review_ledger])
  /\ is_synced Sim.sync_review Sim.review_ledger = true.
Proof. repeat split; vm_compute; reflexivity. Qed.

(** C4, amended: let a cycle return in which [create_event] was called for [E] and
    returned nothing each time (as did the lookups of [E]), [E] being the
    only event of the snapshot with its identifier.  Then the ledger has no
    entry under the identifier of [E] after the cycle; the cycle went on:
    every event whose lookup reported nothing was passed to [create_event],
    and the creation loop returns on every list with one call per event;
    and in a following cycle over a snapshot that contains [E], with no old
    entry matching [E] and no match reported by the calendar, [E] is looked
    up and passed to [create_event] again. *)
Theorem C4_failed_create_is_retried {W : Type} `{Platform W}
  g events (l l1 : ledger) (w w1 : W) tr1 E x0 :
  sync_events g events (l, w) = (Ret tt, (l1, w1), tr1) ->
  In (CreateEvent E x0) tr1 ->
  (forall x, In (CreateEvent E x) tr1 -> truthy x = false) ->
  (forall x, In (CheckExists E x) tr1 -> truthy x = false) ->
  (forall e', In e' events -> event_id e' = event_id E -> e' = E) ->
  is_synced E l1 = false
  /\ (forall e x, In (CheckExists e x) tr1 -> truthy x = false ->
        exists x', In (CreateEvent e x') tr1)
  /\ (forall ne l0 w0, exists l' w' tr,
        create_loop g ne (l0, w0) = (Ret tt, (l', w'), tr)
        /\ List.length tr = List.length ne)
  /\ (forall g2 events2 w2 l2 w2' tr2,
        sync_events g2 events2 (l1, w2) = (Ret tt, (l2, w2'), tr2) ->
        In E events2 ->
        (forall e', In e' events2 -> event_id e' = event_id E -> e' = E) ->
        find_matching_old_event l1 E = Ret None ->
        (forall x, In (CheckExists E x) tr2 -> truthy x = false) ->
        (exists x, In (CheckExists E x) tr2)
        /\ (exists x', In (CreateEvent E x') tr2)).
Proof.
  intros Ecycle Hcall Hfail Hnone HU. apply sync_events_ret in Ecycle.
  destruct Ecycle as (Hd & ne & la & wa & tra & lb & wb & trb & trc & Ec & En & Ed & ->).
  pose proof (classify_facts _ _ _ _ _ _ _ _ Ec) as (_ & _ & _ & K4 & K5 & _).
  pose proof (sync_new_facts _ _ _ _ _ _ _ En) as (N1 & _ & N3 & N4 & _).
  pose proof (detect_deleted_facts _ _ _ _ _ _ _ Ed) as (_ & D2 & D3 & _).
  assert (Hne : In E ne).
  { apply in_app_or in Hcall. destruct Hcall as [Hc|Hc].
    - destruct (K4 _ Hc) as (e & x & Eq & _). discriminate.
    - apply in_app_or in Hc. destruct Hc as [Hc|Hc].
      + destruct (N3 _ Hc) as [(e & x & Eq & Hin)|(s & Eq)]; [|discriminate].
        inversion Eq; subst. exact Hin.
      + destruct (D3 _ Hc) as [(k & gid & ok & Eq & _)|(s & Eq)]; discriminate. }
  assert (Hla : is_synced E la = false).
  { apply (new_event_not_in_ledger g E events _ _ _ _ _ _ Ec Hne HU).
    intros x Hin. apply Hnone. apply in_or_app. left. exact Hin. }
  assert (Hlb : Dict.get (event_id E) lb = None).
  { rewrite N1; [now apply is_synced_get|].
    intros e x Hin Eid. destruct (N3 _ Hin) as [(e2 & x2 & Eq & Hin2)|(s & Eq)];
      [|discriminate].
    inversion Eq; subst e2 x2. destruct (K5 _ Hin2) as (Hev & _).
    assert (e = E) by (apply HU; assumption). subst e.
    apply Hfail. apply in_or_app. right. apply in_or_app. left. exact Hin. }
  assert (Hl1 : is_synced E l1 = false).
  { unfold is_synced. apply DictFacts.mem_false_iff. intros Hin.
    apply DictFacts.mem_true_iff, DictFacts.mem_get in Hin. destruct Hin as [v Hv].
    apply DictFacts.get_in, D2 in Hv. apply DictFacts.in_keys in Hv.
    apply DictFacts.mem_true_iff, DictFacts.mem_get in Hv. destruct Hv as [v' Hv'].
    congruence. }
  split; [exact Hl1|]. split; [|split].
  - intros e x Hin Ht. apply in_app_or in Hin. destruct Hin as [Hin|Hin].
    + destruct (K4 _ Hin) as (e2 & x2 & Eq & _ & _ & Hnew). inversion Eq; subst e2 x2.
      destruct (N4 e (Hnew Ht)) as (x' & Hx' & _). exists x'.
      apply in_or_app. right. apply in_or_app. left. exact Hx'.
    + apply in_app_or in Hin. destruct Hin as [Hin|Hin].
      * destruct (N3 _ Hin) as [(e2 & x2 & Eq & _)|(s & Eq)]; discriminate.
      * destruct (D3 _ Hin) as [(k & gid & ok & Eq & _)|(s & Eq)]; discriminate.
  - intros ne0 l0 w0.
    destruct (create_loop_facts g ne0 l0 w0) as (l' & w' & tr & E0 & _ & _ & _ & _ & _ & Hlen).
    exists l', w', tr. auto.
  - intros g2 events2 w2 l2 w2' tr2 E2 Hin2 HU2 Hf2 Hnone2.
    apply sync_events_ret in E2.
    destruct E2 as (_ & ne2 & la2 & wa2 & tra2 & lb2 & wb2 & trb2 & trc2
                    & Ec2 & En2 & _ & ->).
    assert (Hx2 : forall x, In (CheckExists E x) tra2 -> truthy x = false)
      by (intros x Hin; apply Hnone2; apply in_or_app; left; exact Hin).
    destruct (unmatched_event_is_new g2 E events2 _ _ _ _ _ _ Ec2 Hl1 Hf2 HU2 Hx2)
      as [_ Hnew].
    destruct (Hnew Hin2) as (Hne2 & x & Hc).
    pose proof (sync_new_facts _ _ _ _ _ _ _ En2) as (_ & _ & _ & N4' & _).
    destruct (N4' E Hne2) as (x' & Hx' & _).
    split.
    + exists x. apply in_or_app. left. exact Hc.
    + exists x'. apply in_or_app. right. apply in_or_app. left. exact Hx'.
Qed.

Example refused_cycle_run :
  sync_events Sim.google [Sim.sync_review] ([], Sim.refusing_once)
  = (Ret tt, ([], Sim.accepting),
     [CheckExists Sim.sync_review None;
      CreateEvent Sim.sync_review None;
      SaveState []]).
Proof. vm_compute. reflexivity. Qed.

(** the insertion of [sync_review] is refused in one cycle and accepted in
    the next *)
Lemma C4_failed_create_witness :
  is_synced Sim.sync_review [] = false
  /\ (exists x, In (CheckExists Sim.sync_review x)
                  [CheckExists Sim.sync_review None;
                   CreateEvent Sim.sync_review (Some "g1");
                   SaveState Sim.review_ledger])
  /\ (exists x', In (CreateEvent Sim.sync_review x')
                   [CheckExists Sim.sync_review None;
                    CreateEvent Sim.sync_review (Some "g1");
                    SaveState Sim.review_ledger]).
Proof.
  destruct (C4_failed_create_is_retried Sim.google [Sim.sync_review] [] []
              Sim.refusing_once Sim.accepting
              [CheckExists Sim.sync_review None;
               CreateEvent Sim.sync_review None;
               SaveState []]
              Sim.sync_review None) as (A & _ & _ & D).
  - vm_compute. reflexivity.
  - right. left. reflexivity.
  - intros x [E|[E|[E|[]]]]; inversion E. reflexivity.
  - intros x [E|[E|[E|[]]]]; inversion E. reflexivity.
  - intros e' [<-|[]] _. reflexivity.
  - split; [exact A|].
    apply (D Sim.google [Sim.sync_review] Sim.accepting Sim.review_ledger Sim.quiet).
    + vm_compute. reflexivity.
    + left. reflexivity.
    + intros e' [<-|[]] _. reflexivity.
    + reflexivity.
    + intros x [E|[E|[E|[]]]]; inversion E. reflexivity.
Defined.

(** ** Migration of an entry of the old scheme *)


Section Migration.

Context {W : Type} `{Platform W}.

Variables (E : Event) (o : string) (d : Dict.t json).



End Migration.



Example legacy_cycle_run :
  sync_events Sim.google [Sim.standup] (Sim.legacy_ledger, Sim.quiet)
  = (Ret tt, (Sim.migrated_ledger, Sim.quiet), []).
Proof. vm_compute. reflexivity. Qed.


(** * Further properties of the code *)

Example split_fields : Text.split "|#|" "a|#|#|b" = ["a"; "#|b"].
Proof. reflexivity. Qed.

Example split_empty : Text.split "|#|" "" = [""].
Proof. reflexivity. Qed.

Example split_trailing : Text.split "|#|" "x|#|" = ["x"; ""].
Proof. reflexivity. Qed.

Example split_lines : Text.split newline (Text.of_bytes [97; 10; 10; 98]) = ["a"; ""; "b"].
Proof. reflexivity. Qed.

(** ** The two schemes of identifiers *)

(** X1: An identifier computed for an event is never of the old scheme, so the
    search for an old entry never returns the key of an event of the
    current scheme. *)
Theorem current_ids_are_never_old (e : Event) :
  is_old_style_id (event_id e) = false
  /\ forall (l : ledger) e' o,
       find_matching_old_event l e' = Ret (Some o) -> o <> event_id e.
Proof.
  split; [apply event_id_not_old_style|].
  intros l e' o Hf Eo. apply find_some in Hf. destruct Hf as [Ho _].
  rewrite Eo, event_id_not_old_style in Ho. discriminate.
Qed.

(** the old key found for [standup] is not the key of [sync_review] *)
Lemma current_ids_witness :
  is_old_style_id (event_id Sim.sync_review) = false
  /\ "outlook--123456" <> event_id Sim.sync_review.
Proof.
  destruct (current_ids_are_never_old Sim.sync_review) as [A B].
  split; [exact A|].
  apply (B Sim.legacy_ledger Sim.standup). vm_compute. reflexivity.
Defined.

(** ** What [load_state] hands to the cycle *)

Section LoadedLedger.

Context {W : Type} `{Platform W}.

Lemma fresh_entry_dict t v : fresh_entry t v -> exists d, v = JDict d.
Proof.
  intros (s & d & Hg & _). destruct v; simpl in Hg; try discriminate. eauto.
Qed.

Lemma fresh_entry_not_stale t v : fresh_entry t v -> stale (minus_days t 60) v = false.
Proof.
  intros (s & d & Hg & Hp & Hlt). unfold stale, is_old_event.
  now rewrite Hg, Hp, Hlt.
Qed.

Lemma filter_all (A : Type) (p : A -> bool) (l : list A) :
  (forall x, In x l -> p x = true) -> filter p l = l.
Proof.
  induction l as [|a l IH]; intros Hall; [reflexivity|]. simpl.
  rewrite (Hall a (or_introl eq_refl)). f_equal. apply IH.
  intros x Hx. apply Hall. right. exact Hx.
Qed.

Lemma get_filter (V : Type) (p : string * V -> bool) k v (l : Dict.t V) :
  Dict.get k l = Some v -> p (k, v) = true -> Dict.get k (filter p l) = Some v.
Proof.
  induction l as [|[k0 v0] l IH]; simpl; [discriminate|].
  destruct (String.eqb_spec k0 k) as [->|Hne]; intros Hg Hp.
  - inversion Hg; subst. rewrite Hp. simpl. now rewrite String.eqb_refl.
  - destruct (p (k0, v0)); simpl; auto.
    destruct (String.eqb_spec k0 k); [contradiction | auto].
Qed.

(** the mapping read from a file that holds a dictionary of dictionaries
    with distinct keys *)
Lemma load_written_file (l : ledger) (w : W) :
  all_dicts l -> NoDup (Dict.keys l) ->
  SyncMonitor_init (written_file l) w
  = (Ret (filter (fun p => negb (stale (minus_days (fst (now w)) 60) (snd p))) l),
     snd (now w)).
Proof.
  intros Hd Hnd. unfold SyncMonitor_init, load_state, written_file, load_json. simpl.
  destruct (migrate_old_ids_total l Hd) as [locals ->].
  destruct (cleanup_total l w Hd) as [l' E]. rewrite E.
  apply cleanup_ret in E. destruct E as (_ & _ & _ & ->).
  now rewrite stale_filter_nodup.
Qed.

Lemma load_state_raise f (w w' : W) x :
  SyncMonitor_init f w = (Raise x, w') -> f = FileStatFails.
Proof.
  unfold SyncMonitor_init, load_state.
  destruct f as [| | | |state]; try discriminate; [reflexivity|].
  destruct (load_json state w) as [[l0|y] w1]; discriminate.
Qed.

End LoadedLedger.

(** X2: Whatever the state file, when [load_state] returns every value of
    the loaded mapping is a dictionary, so that the listing of the stored
    events at the start of a cycle does not raise, and a file that holds a
    mapping gives no entry that is not in it; [load_state] raises only when
    the test for the file does. *)
Theorem loaded_ledger_holds_dictionaries {W : Type} `{Platform W} f (w : W) :
  match fst (SyncMonitor_init f w) with
  | Ret l =>
      all_dicts l
      /\ print_stored l = Ret tt
      /\ (forall st d k v,
            f = FileJson (JDict st) ->
            Dict.get "synced_events" st = Some (JDict d) ->
            In (k, v) l -> In (k, v) d)
  | Raise _ => f = FileStatFails
  end.
Proof.
  destruct (SyncMonitor_init f w) as [[l|x] w'] eqn:E; cbn [fst];
    [|now apply (load_state_raise f w w' x)].
  apply load_state_fresh in E.
  assert (Hd : all_dicts l).
  { destruct E as [->|(st & _ & [(d & _ & _ & Hf)|(ids & lc & wc & _ & _ & _ & Hf)])].
    - intros k v [].
    - intros k v Hin. eapply fresh_entry_dict. apply (Hf k v Hin).
    - intros k v Hin. eapply fresh_entry_dict. apply (Hf k v Hin). }
  split; [exact Hd|]. split; [now apply print_stored_dicts|].
  intros st d k v Hfile Hget Hin.
  destruct E as [->|(st0 & Hfile0 & [(d0 & Hget0 & _ & Hf)|(ids & lc & wc & Hlist & _)])].
  - destruct Hin.
  - rewrite Hfile in Hfile0. inversion Hfile0; subst st0.
    rewrite Hget in Hget0. inversion Hget0; subst d0. apply (Hf k v Hin).
  - rewrite Hfile in Hfile0. inversion Hfile0; subst st0.
    simpl in Hlist. rewrite Hget in Hlist. discriminate Hlist.
Qed.

(** the mixed file: the loaded entries are dictionaries of the file *)
Lemma loaded_ledger_witness :
  match fst (SyncMonitor_init Sim.mixed_file Sim.quiet) with
  | Ret l =>
      all_dicts l
      /\ print_stored l = Ret tt
      /\ (forall st d k v,
            Sim.mixed_file = FileJson (JDict st) ->
            Dict.get "synced_events" st = Some (JDict d) ->
            In (k, v) l -> In (k, v) d)
  | Raise _ => Sim.mixed_file = FileStatFails
  end.
Proof. exact (loaded_ledger_holds_dictionaries Sim.mixed_file Sim.quiet). Defined.

(** X3: A ledger with distinct keys whose entries are all at most sixty days
    old when it is read again comes back from the state file as it was
    written. *)
Theorem written_ledger_is_read_back {W : Type} `{Platform W} (l : ledger) (w : W) :
  NoDup (Dict.keys l) ->
  (forall k v, In (k, v) l -> fresh_entry (fst (now w)) v) ->
  SyncMonitor_init (written_file l) w = (Ret l, snd (now w)).
Proof.
  intros Hnd Hfresh.
  assert (Hd : all_dicts l).
  { intros k v Hin. eapply fresh_entry_dict. eauto. }
  rewrite (load_written_file l w Hd Hnd).
  rewrite filter_all; [reflexivity|]. intros [k v] Hin. simpl.
  now rewrite (fresh_entry_not_stale _ _ (Hfresh k v Hin)).
Qed.

(** the ledger written on the first of June is read back the same day *)
Lemma written_ledger_witness :
  SyncMonitor_init (written_file Sim.review_ledger) Sim.quiet
  = (Ret Sim.review_ledger, Sim.quiet).
Proof.
  change Sim.quiet with (snd (now Sim.quiet)) at 2.
  apply (written_ledger_is_read_back Sim.review_ledger Sim.quiet).
  - repeat constructor. intros [].
  - intros k v [E|[]]. inversion E; subst.
    exists "2024-06-01T09:00:00", (mk_datetime 2024 6 1 9 0 0 0).
    repeat split; reflexivity.
Defined.

(** X4: An event marked as synced is found again after a restart: if the date
    parser reads back the date that was written, and the state file is
    loaded at most sixty days later, [load_state] returns and the loaded
    ledger holds the entry [mark_synced] wrote. *)
Theorem marked_event_survives_restart {W : Type} `{Platform W}
  e x (l : ledger) (w w2 : W) :
  all_dicts l ->
  NoDup (Dict.keys l) ->
  fromisoformat (isoformat (fst (now w))) = Some (Naive (fst (now w))) ->
  datetime_lt (fst (now w)) (minus_days (fst (now w2)) 60) = false ->
  exists l',
    SyncMonitor_init (written_file (fst (mark_synced e x l w))) w2
    = (Ret l', snd (now w2))
    /\ Dict.get (event_id e) l' = Some (synced_entry (fst (now w)) e x)
    /\ is_synced e l' = true.
Proof.
  intros Hd Hnd Hparse Hage. rewrite mark_synced_eq. simpl fst.
  eexists. split.
  - apply load_written_file.
    + unfold synced_entry. now apply all_dicts_set.
    + now apply keys_set_nodup.
  - assert (Hget : Dict.get (event_id e)
              (filter (fun p => negb (stale (minus_days (fst (now w2)) 60) (snd p)))
                 (Dict.set (event_id e) (synced_entry (fst (now w)) e x) l))
            = Some (synced_entry (fst (now w)) e x)).
    { apply get_filter; [apply DictFacts.get_set_same|].
      simpl. unfold stale, is_old_event, synced_entry. simpl.
      now rewrite Hparse, Hage. }
    split; [exact Hget|]. unfold is_synced. apply DictFacts.mem_get. eauto.
Qed.

(** [sync_review] marked on the first of June and loaded the same day *)
Lemma marked_event_witness :
  exists l',
    SyncMonitor_init
      (written_file (fst (mark_synced Sim.sync_review (Some "g1") [] Sim.quiet)))
      Sim.quiet = (Ret l', snd (now Sim.quiet))
    /\ Dict.get (event_id Sim.sync_review) l'
       = Some (synced_entry (fst (now Sim.quiet)) Sim.sync_review (Some "g1"))
    /\ is_synced Sim.sync_review l' = true.
Proof.
  apply (marked_event_survives_restart Sim.sync_review (Some "g1") [] Sim.quiet Sim.quiet).
  - intros k v [].
  - constructor.
  - vm_compute. reflexivity.
  - vm_compute. reflexivity.
Defined.

(** ** Ledgers on which a cycle cannot raise *)

Section Titled.

Context {W : Type} `{Platform W}.

Lemma titled_all_dicts (l : ledger) : titled l -> all_dicts l.
Proof. intros Ht k v Hin. destruct (Ht k v Hin) as (d & -> & _). eauto. Qed.

Lemma titled_from (l l' : ledger) :
  all_dicts l' ->
  (forall k v, In (k, v) l' -> is_old_style_id k = true -> In (k, v) l) ->
  titled l -> titled l'.
Proof.
  intros Hd Hold Ht k v Hin. destruct (Hd k v Hin) as [d ->].
  exists d. split; [reflexivity|]. intros Hk.
  destruct (Ht k (JDict d) (Hold _ _ Hin Hk)) as (d' & E & Htitle).
  inversion E; subst. exact (Htitle Hk).
Qed.

Lemma old_entry_matches_total d e :
  match Dict.get "title" d with
  | Some (JStr _) => True
  | None => True
  | Some _ => False
  end ->
  exists b, old_entry_matches (JDict d) e = Ret b.
Proof.
  intros Ht. unfold old_entry_matches, json_get.
  destruct (Dict.get "title" d) as [[]|]; try contradiction; cbn [json_strip];
    match goal with |- context [if ?c then _ else _] => destruct c end; eauto.
Qed.

Lemma find_total (l : ledger) e :
  titled l -> exists r, find_matching_old_event l e = Ret r.
Proof.
  induction l as [|[k v] l IH]; intros Ht; cbn [find_matching_old_event]; [eauto|].
  assert (Ht' : titled l) by (intros k' v' Hin; apply Ht; right; exact Hin).
  destruct (Ht k v (or_introl eq_refl)) as (d & -> & Htitle).
  destruct (is_old_style_id k) eqn:Hk; [|auto].
  destruct (old_entry_matches_total d e (Htitle eq_refl)) as [b ->].
  destruct b; eauto.
Qed.

Lemma reconcile_total g e (l : ledger) (w : W) :
  exists b l' w' tr, reconcile g e (l, w) = (Ret b, (l', w'), tr).
Proof.
  unfold reconcile, bind, in_world, emit, do_mark_synced, ret. cbn [fst snd].
  destruct (check_event_exists g e w) as [x w1]. cbv beta iota zeta. cbn [fst snd].
  destruct (truthy x); cbv beta iota zeta; cbn [fst snd].
  - destruct (mark_synced e x l w1) as [l1 w2]. eauto 10.
  - eauto 10.
Qed.

Lemma classify_one_total g e (l : ledger) (w : W) :
  titled l -> exists b l' w' tr, classify_one g e (l, w) = (Ret b, (l', w'), tr).
Proof.
  intros Ht. unfold classify_one. unfold bind at 1. unfold get_synced_events.
  cbn [fst snd].
  destruct (is_synced e l); [unfold ret; eauto 10|].
  unfold bind at 1. unfold try_ at 1.
  destruct (find_total l e Ht) as [r ->].
  destruct (reconcile_total g e l w) as (b & l' & w' & tr & Hrec).
  destruct r as [o|]; [|rewrite Hrec; eauto 10].
  destruct (truthy (Some o)); [|rewrite Hrec; eauto 10].
  unfold bind, do_update_event_id, ret. cbn [fst snd].
  destruct (Dict.get o l) as [v|] eqn:Hg.
  - destruct (titled_all_dicts l Ht o v (DictFacts.get_in _ _ _ _ Hg)) as [d ->].
    rewrite (update_event_id_eq o (event_id e) e l w d Hg). eauto 10.
  - unfold update_event_id. rewrite Hg. eauto 10.
Qed.

Lemma classify_total g es : forall (l : ledger) (w : W),
  titled l -> exists ne l' w' tr, classify g es (l, w) = (Ret ne, (l', w'), tr).
Proof.
  induction es as [|e es IH]; intros l w Ht.
  - simpl. unfold ret. eauto 10.
  - destruct (classify_one_total g e l w Ht) as (b & l1 & w1 & tr1 & E1).
    assert (Ht1 : titled l1).
    { pose proof (classify_one_facts g e l l1 w w1 b tr1 E1)
        as (_ & _ & S3 & _ & _ & _ & _ & _ & S9 & _).
      apply (titled_from l l1); auto. apply S9. now apply titled_all_dicts. }
    destruct (IH l1 w1 Ht1) as (ne & l' & w' & tr & E2).
    cbn [classify]. unfold bind at 1. unfold ledger in *. rewrite E1.
    unfold bind at 1. rewrite E2. unfold ret. eauto 10.
Qed.

(** an entry of the ledger after the creation loop was there before, or is
    under the identifier of an event of the loop *)
Lemma create_loop_in g ne : forall (l l' : ledger) (w w' : W) tr,
  create_loop g ne (l, w) = (Ret tt, (l', w'), tr) ->
  forall k v, In (k, v) l' -> In (k, v) l \/ In k (map event_id ne).
Proof.
  induction ne as [|e ne IH]; intros l l' w w' tr E k v Hin.
  - simpl in E. unfold ret in E. inversion E; subst. auto.
  - rewrite create_loop_cons, create_one_eq in E.
    destruct (create_event g e w) as [x w1]. simpl fst in E. simpl snd in E.
    cbv beta iota zeta in E.
    match type of E with
    | context [create_loop g ne ?s] =>
        destruct (create_loop g ne s) as [[r [l2 w2]] tr2] eqn:E2
    end.
    inversion E; subst r l2 w2 tr.
    destruct (truthy x).
    + destruct (IH _ _ _ _ _ E2 k v Hin) as [Hin1|Hin1]; [|right; right; exact Hin1].
      apply DictFacts.in_set in Hin1. destruct Hin1 as [[-> _]|Hin1]; [|auto].
      right. left. reflexivity.
    + destruct (IH _ _ _ _ _ E2 k v Hin) as [Hin1|Hin1]; [auto|right; right; exact Hin1].
Qed.

(** the same for one turn of the classification loop, and for the loop *)
Lemma classify_one_in g e (l l' : ledger) (w w' : W) b tr :
  classify_one g e (l, w) = (Ret b, (l', w'), tr) ->
  forall k v, In (k, v) l' -> In (k, v) l \/ k = event_id e.
Proof.
  intros E k v Hin. apply classify_one_ret in E.
  destruct E as [(_ & _ & -> & _)|[(_ & _ & _ & _ & o & d & _ & _ & ->)
                                  |(_ & _ & x & w1 & _ & _ & [(_ & _ & -> & _)|(_ & _ & -> & _)])]].
  - auto.
  - apply DictFacts.in_del in Hin. destruct Hin as [Hin _].
    apply DictFacts.in_set in Hin. destruct Hin as [[-> _]|Hin]; auto.
  - apply DictFacts.in_set in Hin. destruct Hin as [[-> _]|Hin]; auto.
  - auto.
Qed.

Lemma classify_in g es : forall (l l' : ledger) (w w' : W) ne tr,
  classify g es (l, w) = (Ret ne, (l', w'), tr) ->
  forall k v, In (k, v) l' -> In (k, v) l \/ In k (map event_id es).
Proof.
  induction es as [|e es IH]; intros l l' w w' ne tr E k v Hin.
  - simpl in E. unfold ret in E. inversion E; subst. auto.
  - apply classify_cons_ret in E.
    destruct E as (b & l1 & w1 & tr1 & ne1 & tr2 & E1 & E2 & _ & _).
    destruct (IH _ _ _ _ _ _ E2 k v Hin) as [Hin1|Hin1]; [|right; right; exact Hin1].
    destruct (classify_one_in _ _ _ _ _ _ _ _ E1 k v Hin1) as [Hin0| ->]; [auto|].
    right. left. reflexivity.
Qed.

(** an entry of the ledger after a cycle was there before, or is under the
    identifier of an event of the snapshot *)
Lemma sync_events_in g events (l l' : ledger) (w w' : W) tr :
  sync_events g events (l, w) = (Ret tt, (l', w'), tr) ->
  forall k v, In (k, v) l' -> In (k, v) l \/ In k (map event_id events).
Proof.
  intros E k v Hin. apply sync_events_ret in E.
  destruct E as (Hd & ne & la & wa & tra & lb & wb & trb & trc & Ec & En & Ed & ->).
  pose proof (classify_facts _ _ _ _ _ _ _ _ Ec) as (_ & _ & _ & _ & K5 & _).
  destruct (sync_new_eq g ne la wa) as (lb' & wb' & trc' & Ecl & En').
  unfold ledger in *. rewrite En in En'. inversion En'; subst lb' wb'. clear En'.
  apply detect_deleted_facts in Ed. destruct Ed as (_ & D2 & _).
  apply D2 in Hin.
  destruct (create_loop_in _ _ _ _ _ _ _ Ecl k v Hin) as [Hin1|Hin1].
  - apply (classify_in _ _ _ _ _ _ _ _ Ec k v Hin1).
  - right. apply in_map_iff in Hin1. destruct Hin1 as (e & <- & Hne).
    apply in_map. apply (K5 e Hne).
Qed.

(** a cycle returns on such a ledger, and leaves such a ledger *)
Lemma sync_events_titled g events (l : ledger) (w : W) :
  titled l ->
  exists l' w' tr,
    sync_events g events (l, w) = (Ret tt, (l', w'), tr) /\ titled l'.
Proof.
  intros Ht. pose proof (titled_all_dicts l Ht) as Hd.
  destruct (classify_total g events l w Ht) as (ne & l1 & w1 & tr1 & Ec).
  pose proof (classify_facts g events l l1 w w1 ne tr1 Ec)
    as (_ & _ & _ & _ & _ & _ & K7 & _).
  destruct (sync_new_eq g ne l1 w1) as (l2 & w2 & trc & Ecl & En).
  pose proof (sync_new_facts _ _ _ _ _ _ _ En) as (_ & _ & _ & _ & N5).
  destruct (detect_deleted_total g events l2 w2 (N5 (K7 Hd))) as (l3 & w3 & tr3 & Ed).
  pose proof (detect_deleted_facts _ _ _ _ _ _ _ Ed) as (_ & D2 & _).
  pose proof (sync_events_compose g events l l1 l2 l3 w w1 w2 w3 ne _ _ _ Hd Ec En Ed)
    as Ecycle.
  eexists l3, w3, _. split; [exact Ecycle|].
  apply (titled_from l l3).
  - intros k v Hin. apply D2 in Hin. apply (N5 (K7 Hd) k v Hin).
  - intros k v Hin Hk.
    destruct (sync_events_in _ _ _ _ _ _ _ Ecycle k v Hin) as [Hin0|Hin0]; [exact Hin0|].
    apply in_map_iff in Hin0. destruct Hin0 as (e & <- & _).
    rewrite event_id_not_old_style in Hk. discriminate.
  - exact Ht.
Qed.

End Titled.

Example review_line_read :
  get_events Feed.korean_search true (Some Feed.review_line) Sim.quiet
  = ([Feed.review_event], Sim.quiet).
Proof. vm_compute. reflexivity. Qed.

Example review_event_id : event_id Feed.review_event = event_id Sim.sync_review.
Proof. vm_compute. reflexivity. Qed.

Section Loop.

Context {W : Type} `{Platform W}.

Variable korean_search : string -> option korean_date.

Variable sleep : W -> W.

Lemma sync_cycle_eq g running result (l : ledger) (w : W) :
  sync_cycle korean_search g running result (l, w)
  = sync_events g (fst (get_events korean_search running result (snd (now w))))
      (l, snd (get_events korean_search running result (snd (now w)))).
Proof.
  unfold sync_cycle. cbn [fst snd]. destruct (now w) as [t w0]. cbn [snd].
  destruct (get_events korean_search running result w0). reflexivity.
Qed.

Lemma monitor_loop_titled g turns : forall (l : ledger) (w : W),
  titled l ->
  exists l' w' tr,
    monitor_loop korean_search sleep g turns (l, w) = (Ret tt, (l', w'), tr)
    /\ titled l'.
Proof.
  induction turns as [|[running result] turns IH]; intros l w Ht.
  - exists l, w, []. split; [reflexivity | exact Ht].
  - cbn [monitor_loop]. rewrite sync_cycle_eq.
    destruct (sync_events_titled g
                (fst (get_events korean_search running result (snd (now w)))) l
                (snd (get_events korean_search running result (snd (now w)))) Ht)
      as (l1 & w1 & tr1 & E1 & Ht1).
    unfold ledger in *. rewrite E1.
    destruct (IH l1 (sleep w1) Ht1) as (l2 & w2 & tr2 & E2 & Ht2).
    unfold ledger in *. rewrite E2. eauto 10.
Qed.

End Loop.

(** X5: On a ledger whose values are dictionaries and whose entries under an
    identifier of the old scheme have a string for title, or none, a cycle
    returns whatever the snapshot and the answers of the service, and it
    leaves such a ledger; so the monitoring loop goes through any number of
    turns without an exception. *)
Theorem cycles_do_not_raise {W : Type} `{Platform W}
  (korean_search : string -> option korean_date) (sleep : W -> W) g (l : ledger) :
  titled l ->
  (forall events w, exists l' w' tr,
      sync_events g events (l, w) = (Ret tt, (l', w'), tr) /\ titled l')
  /\ (forall turns w, exists l' w' tr,
        monitor_loop korean_search sleep g turns (l, w) = (Ret tt, (l', w'), tr)
        /\ titled l').
Proof.
  intros Ht. split.
  - intros events w. now apply sync_events_titled.
  - intros turns w. now apply monitor_loop_titled.
Qed.

Lemma legacy_ledger_titled : titled Sim.legacy_ledger.
Proof.
  intros k v [E|[]]. inversion E; subst. eexists. split; [reflexivity|].
  intros _. exact I.
Qed.

(** three turns from the ledger of the old scheme: Outlook answers, is not
    running, answers again *)
Lemma cycles_do_not_raise_witness :
  exists l' w' tr,
    monitor_loop Feed.korean_search Feed.sleep Sim.google
      [(true, Some Feed.review_line); (false, None); (true, Some Feed.review_line)]
      (Sim.legacy_ledger, Sim.accepting_twice)
    = (Ret tt, (l', w'), tr) /\ titled l'.
Proof.
  apply (cycles_do_not_raise Feed.korean_search Feed.sleep Sim.google Sim.legacy_ledger
           legacy_ledger_titled).
Defined.

(** under a key of the old scheme, written with Arabic-Indic digits, the
    title is [null]: the ledger is not of that kind, and the search for an
    old entry raises *)
Example null_title_raises :
  sync_events Sim.google [Sim.standup] (Cases.arabic_ledger, Sim.quiet)
  = (Raise AttributeError, (Cases.arabic_ledger, Sim.quiet), []).
Proof. vm_compute. reflexivity. Qed.

(** ** A cycle without a snapshot *)

Section Outage.

Context {W : Type} `{Platform W}.

Variable korean_search : string -> option korean_date.

Lemma get_events_nothing running result (w : W) :
  running = false \/ result = None \/ result = Some "" ->
  get_events korean_search running result w = ([], w).
Proof.
  intros [->|[->| ->]]; unfold get_events.
  - reflexivity.
  - destruct running; reflexivity.
  - destruct running; reflexivity.
Qed.

Lemma in_mem (l : ledger) k v : In (k, v) l -> Dict.mem k l = true.
Proof.
  intros Hin. apply DictFacts.mem_true_iff. eapply DictFacts.in_keys. exact Hin.
Qed.

Lemma deleted_call_succeeded k gid ok tr :
  calls_about k tr = [DeleteEvent k gid ok] -> Forall call_succeeded tr -> ok = true.
Proof.
  intros Hc Hok.
  assert (Hin : In (DeleteEvent k gid ok) (calls_about k tr))
    by (rewrite Hc; left; reflexivity).
  unfold calls_about in Hin. apply filter_In in Hin. destruct Hin as [Hin _].
  rewrite Forall_forall in Hok. apply (Hok _ Hin).
Qed.

End Outage.

(** X6: When Outlook is not running, or the script fails or prints nothing,
    [get_events] returns the empty snapshot and the cycle takes every entry
    of the ledger for an event deleted in Outlook: each entry with a remote
    identifier gets one call of [delete_event], each entry without one is
    dropped, and when every deletion succeeds the ledger is empty. *)
Theorem outage_deletes_every_entry {W : Type} `{Platform W}
  (korean_search : string -> option korean_date) g running result
  (l : ledger) (w : W) :
  all_dicts l ->
  running = false \/ result = None \/ result = Some "" ->
  exists l' w' tr,
    sync_cycle korean_search g running result (l, w) = (Ret tt, (l', w'), tr)
    /\ (forall k, Dict.mem k l = true ->
          exists gid, stored_google_event_id k l = Ret gid
            /\ if py_truthy gid
               then exists ok,
                      calls_about k tr = [DeleteEvent k gid ok]
                      /\ (ok = true -> Dict.mem k l' = false)
                      /\ (ok = false -> Dict.get k l' = Dict.get k l)
               else calls_about k tr = [] /\ Dict.mem k l' = false)
    /\ (Forall call_succeeded tr -> l' = []).
Proof.
  intros Hd Hout. rewrite sync_cycle_eq.
  rewrite (get_events_nothing korean_search running result _ Hout). cbn [fst snd].
  destruct (detect_deleted_total g [] l (snd (now w)) Hd) as (l' & w' & tr & Ed).
  exists l', w', tr.
  pose proof (sync_events_compose g [] l l l l' (snd (now w)) (snd (now w))
                (snd (now w)) w' [] [] [] tr Hd eq_refl eq_refl Ed) as Ecycle.
  split; [exact Ecycle|].
  pose proof (detect_deleted_facts _ _ _ _ _ _ _ Ed) as (_ & D2 & _ & D4).
  assert (Hall : forall k, Dict.mem k l = true -> In k (deleted_event_ids [] l)).
  { intros k Hk. apply deleted_event_ids_spec. split; [exact Hk | intros []]. }
  split.
  - intros k Hk. apply D4. apply Hall. exact Hk.
  - intros Hok. destruct l' as [|[k v] rest]; [reflexivity|]. exfalso.
    assert (Hin : In (k, v) ((k, v) :: rest)) by (left; reflexivity).
    pose proof (in_mem _ _ _ Hin) as Hm.
    pose proof (in_mem _ _ _ (D2 _ _ Hin)) as Hml.
    destruct (D4 k (Hall k Hml)) as (gid & _ & Hg).
    destruct (py_truthy gid).
    + destruct Hg as (ok & Hc & Hyes & _).
      rewrite (Hyes (deleted_call_succeeded _ _ _ _ Hc Hok)) in Hm. discriminate.
    + destruct Hg as [_ Hno]. rewrite Hno in Hm. discriminate.
Qed.

Lemma review_ledger_dicts : all_dicts Sim.review_ledger.
Proof. intros k v [E|[]]. inversion E; subst. unfold Sim.entry. eauto. Qed.

(** Outlook is closed while the ledger holds [sync_review] *)
Lemma outage_witness :
  exists l' w' tr,
    sync_cycle Feed.korean_search Sim.google false None (Sim.review_ledger, Sim.quiet)
    = (Ret tt, (l', w'), tr)
    /\ (forall k, Dict.mem k Sim.review_ledger = true ->
          exists gid, stored_google_event_id k Sim.review_ledger = Ret gid
            /\ if py_truthy gid
               then exists ok,
                      calls_about k tr = [DeleteEvent k gid ok]
                      /\ (ok = true -> Dict.mem k l' = false)
                      /\ (ok = false -> Dict.get k l' = Dict.get k Sim.review_ledger)
               else calls_about k tr = [] /\ Dict.mem k l' = false)
    /\ (Forall call_succeeded tr -> l' = []).
Proof.
  apply (outage_deletes_every_entry Feed.korean_search Sim.google false None
           Sim.review_ledger Sim.quiet review_ledger_dicts).
  left. reflexivity.
Defined.

Example outage_run :
  sync_cycle Feed.korean_search Sim.google false None (Sim.review_ledger, Sim.quiet)
  = (Ret tt, (Sim.review_ledger, Sim.quiet),
     [DeleteEvent "outlook-7308de134f927982" (JStr "g1") false;
      SaveState Sim.review_ledger]).
Proof. vm_compute. reflexivity. Qed.

(** ** What a cycle writes *)

(** X7: A cycle that returns either made lookups only, each of which found the
    event in the calendar, and saved nothing (whatever it changed in the
    ledger by migrating or recording what it found stays in memory), or its
    last call is [save_state] on the ledger it leaves. *)
Theorem cycle_saves_last_or_never {W : Type} `{Platform W}
  g events (l l' : ledger) (w w' : W) tr :
  sync_events g events (l, w) = (Ret tt, (l', w'), tr) ->
  (forall c, In c tr -> exists e x, c = CheckExists e x /\ truthy x = true)
  \/ (exists tr0, tr = (tr0 ++ [SaveState l'])%list).
Proof.
  intros E. apply sync_events_ret in E.
  destruct E as (Hd & ne & la & wa & tra & lb & wb & trb & trc & Ec & En & Ed & ->).
  pose proof (classify_facts _ _ _ _ _ _ _ _ Ec) as (_ & _ & _ & K4 & _).
  destruct (sync_new_eq g ne la wa) as (lb' & wb' & trc' & Ecl & En').
  unfold ledger in *. rewrite En in En'. inversion En' as [[Hlb Hwb Htrb]]. clear En'.
  subst lb' wb'. rewrite detect_deleted_eq in Ed.
  match type of Ed with
  | context [delete_loop g ?ids ?s] =>
      destruct (delete_loop g ids s) as [[o [l3 w3]] trd] eqn:Edl
  end.
  destruct o as [[]|x]; [|discriminate Ed].
  inversion Ed as [[Hl3 Hw3 Htrc]]. clear Ed.
  destruct (deleted_event_ids events lb) as [|k ids] eqn:Hids.
  - rewrite set_iter_nil in Edl. simpl in Edl. unfold ret in Edl.
    inversion Edl; subst l3 w3 trd. simpl. rewrite app_nil_r.
    destruct ne as [|e ne].
    + left. rewrite !app_nil_r. simpl in Ecl. unfold ret in Ecl.
      inversion Ecl; subst. rewrite app_nil_r. intros c Hin.
      destruct (K4 c Hin) as (e & x & -> & _ & _ & Hnew). exists e, x.
      split; [reflexivity|]. destruct (truthy x); [reflexivity|].
      destruct (Hnew eq_refl).
    + right. exists (tra ++ trc')%list. now rewrite <- app_assoc.
  - right.
    exists (tra ++ (trc' ++ match ne with [] => [] | _ :: _ => [SaveState lb] end)
              ++ trd)%list.
    now rewrite <- !app_assoc.
Qed.

(** the migration of [standup] changes the ledger and writes nothing *)
Lemma cycle_saves_witness :
  (forall c, In c (@nil call) -> exists e x, c = CheckExists e x /\ truthy x = true)
  \/ (exists tr0, @nil call = (tr0 ++ [SaveState Sim.migrated_ledger])%list).
Proof.
  apply (cycle_saves_last_or_never Sim.google [Sim.standup] Sim.legacy_ledger
           Sim.migrated_ledger Sim.quiet Sim.quiet []).
  vm_compute. reflexivity.
Defined.

(** ** What a cycle touches *)

(** X8: An entry of the ledger after a cycle was an entry before it, with the
    same value, or it is under the identifier of an event of the snapshot:
    a cycle rewrites no entry of an event that is not in the snapshot, it
    can only drop it. *)
Theorem cycle_touches_only_the_snapshot {W : Type} `{Platform W}
  g events (l l' : ledger) (w w' : W) tr :
  sync_events g events (l, w) = (Ret tt, (l', w'), tr) ->
  forall k v, In (k, v) l' -> In (k, v) l \/ In k (map event_id events).
Proof.
  intros E. now apply (sync_events_in g events l l' w w' tr).
Qed.

Example planning_cycle_run :
  sync_events Sim.google [Sim.sync_review] (Sim.deletion_ledger, Sim.deleting)
  = (Ret tt,
     ([("outlook-7308de134f927982",
        Sim.entry "2024-05-31T09:00:00" "2024-06-01T10:00:00" "Sync Review" (JStr "g1"));
       ("outlook-00000000000000cc",
        Sim.entry "2024-05-30T09:00:00" "2024-05-31T12:00:00" "Demo" (JStr "g9"))],
      Sim.quiet),
     [DeleteEvent "outlook-00000000000000aa" (JStr "g7") true;
      DeleteEvent "outlook-00000000000000cc" (JStr "g9") false;
      SaveState
        [("outlook-7308de134f927982",
          Sim.entry "2024-05-31T09:00:00" "2024-06-01T10:00:00" "Sync Review" (JStr "g1"));
         ("outlook-00000000000000cc",
          Sim.entry "2024-05-30T09:00:00" "2024-05-31T12:00:00" "Demo" (JStr "g9"))]]).
Proof. vm_compute. reflexivity. Qed.

(** the entry of an event that left Outlook, kept because its deletion
    failed, is the entry of before *)
Lemma cycle_touches_witness :
  In ("outlook-00000000000000cc",
      Sim.entry "2024-05-30T09:00:00" "2024-05-31T12:00:00" "Demo" (JStr "g9"))
     Sim.deletion_ledger
  \/ In "outlook-00000000000000cc" (map event_id [Sim.sync_review]).
Proof.
  apply (cycle_touches_only_the_snapshot Sim.google [Sim.sync_review]
           Sim.deletion_ledger _ Sim.deleting _ _ planning_cycle_run).
  right. left. reflexivity.
Defined.

(** ** From the creation of an event to its deletion *)

Section LifeCycle.

Context {W : Type} `{Platform W}.

Lemma creates_for_id_dec k (tr : list call) :
  (forall e x, In (CreateEvent e x) tr -> event_id e = k -> truthy x = false)
  \/ (exists e x, In (CreateEvent e x) tr /\ event_id e = k /\ truthy x = true).
Proof.
  induction tr as [|c tr IH].
  - left. intros e x [].
  - destruct IH as [IH|(e & x & Hin & Hk & Ht)].
    + destruct c as [e x|e x|k0 gid ok|s];
        try (left; intros e' x' [Eq|Hin] Hk;
             [discriminate Eq | now apply (IH e' x')]).
      destruct (String.eqb_spec (event_id e) k) as [Ek|Hne].
      * destruct (truthy x) eqn:Ht.
        -- right. exists e, x. split; [left; reflexivity | auto].
        -- left. intros e' x' [Eq|Hin] Hk;
             [inversion Eq; subst; exact Ht | now apply (IH e' x')].
      * left. intros e' x' [Eq|Hin] Hk;
          [inversion Eq; subst; contradiction | now apply (IH e' x')].
    + right. exists e, x. split; [right; exact Hin | auto].
Qed.

(** after the creation loop the ledger holds, for an identifier with a
    successful creation, the entry of such a creation *)
Lemma create_loop_last g ne : forall (l l' : ledger) (w w' : W) tr,
  create_loop g ne (l, w) = (Ret tt, (l', w'), tr) ->
  forall e x, In (CreateEvent e x) tr -> truthy x = true ->
  exists t e' x',
    In (CreateEvent e' x') tr /\ event_id e' = event_id e /\ truthy x' = true
    /\ Dict.get (event_id e) l' = Some (synced_entry t e' x').
Proof.
  induction ne as [|e0 ne IH]; intros l l' w w' tr E e x Hin Ht.
  - simpl in E. unfold ret in E. inversion E; subst. destruct Hin.
  - rewrite create_loop_cons, create_one_eq in E.
    destruct (create_event g e0 w) as [x0 w1]. simpl fst in E. simpl snd in E.
    cbv beta iota zeta in E.
    match type of E with
    | context [create_loop g ne ?s] => remember s as s1 eqn:Hs1
    end.
    destruct s1 as [la wa].
    destruct (create_loop g ne (la, wa)) as [[r [l2 w2]] tr2] eqn:E2.
    inversion E; subst r l2 w2 tr. clear E. simpl in Hin.
    destruct (creates_for_id_dec (event_id e) tr2) as [Hnone|(e1 & x1 & Hin1 & Hk1 & Ht1)].
    + destruct Hin as [Eq|Hin]; [|rewrite (Hnone e x Hin eq_refl) in Ht; discriminate].
      inversion Eq; subst e0 x0. rewrite Ht in Hs1. inversion Hs1; subst la wa.
      match type of E2 with
      | create_loop g ne (?la, ?wa) = _ =>
          destruct (create_loop_facts g ne la wa) as (l'' & w'' & tr'' & E'' & C1 & _)
      end.
      unfold ledger in *. rewrite E2 in E''. inversion E''; subst l'' w'' tr''.
      exists (fst (now w1)), e, x. split; [left; reflexivity|].
      split; [reflexivity|]. split; [exact Ht|].
      rewrite (C1 (event_id e) Hnone). apply DictFacts.get_set_same.
    + destruct (IH _ _ _ _ _ E2 e1 x1 Hin1 Ht1) as (t & e' & x' & Hin' & Hk' & Ht' & Hg).
      exists t, e', x'. split; [right; exact Hin'|]. split; [congruence|].
      split; [exact Ht'|]. rewrite <- Hk1. exact Hg.
Qed.

(** a creation that succeeded, seen from the whole cycle *)
Lemma created_entry g events (l l1 : ledger) (w w1 : W) tr E x :
  sync_events g events (l, w) = (Ret tt, (l1, w1), tr) ->
  In (CreateEvent E x) tr ->
  truthy x = true ->
  In E events /\ is_synced E l = false
  /\ (exists x0, In (CheckExists E x0) tr /\ truthy x0 = false)
  /\ exists t e' x',
       In (CreateEvent e' x') tr /\ event_id e' = event_id E /\ truthy x' = true
       /\ Dict.get (event_id E) l1 = Some (synced_entry t e' x').
Proof.
  intros Ecycle Hcall Ht. apply sync_events_ret in Ecycle.
  destruct Ecycle as (Hd & ne & la & wa & tra & lb & wb & trb & trc & Ec & En & Ed & ->).
  pose proof (classify_facts _ _ _ _ _ _ _ _ Ec) as (_ & _ & _ & K4 & K5 & _).
  pose proof (detect_deleted_facts _ _ _ _ _ _ _ Ed) as (D1 & _ & D3 & _).
  destruct (sync_new_eq g ne la wa) as (lb' & wb' & trc' & Ecl & En').
  unfold ledger in *. rewrite En in En'. inversion En' as [[Hlb Hwb Htrb]]. clear En'.
  subst lb' wb' trb.
  destruct (create_loop_facts g ne la wa) as (l'' & w'' & tr'' & E'' & _ & _ & C3 & _).
  unfold ledger in *. rewrite Ecl in E''. inversion E''; subst l'' w'' tr''. clear E''.
  assert (Hc : In (CreateEvent E x) trc').
  { apply in_app_or in Hcall. destruct Hcall as [Hc|Hc].
    - destruct (K4 _ Hc) as (e & x' & Eq & _). discriminate.
    - apply in_app_or in Hc. destruct Hc as [Hc|Hc].
      + apply in_app_or in Hc. destruct Hc as [Hc|Hc]; [exact Hc|].
        destruct ne; simpl in Hc; [destruct Hc | destruct Hc as [Eq|[]]; discriminate Eq].
      + destruct (D3 _ Hc) as [(k & gid & ok & Eq & _)|(s & Eq)]; discriminate. }
  assert (Hne : In E ne).
  { destruct (C3 _ Hc) as (e & x' & Eq & Hin). inversion Eq; subst. exact Hin. }
  destruct (K5 E Hne) as (Hev & Hs & x0 & Hx0 & Hf).
  split; [exact Hev|]. split; [exact Hs|]. split.
  { exists x0. split; [|exact Hf]. apply in_or_app. left. exact Hx0. }
  destruct (create_loop_last g ne _ _ _ _ _ Ecl E x Hc Ht)
    as (t & e' & x' & Hin' & Hk' & Ht' & Hg).
  exists t, e', x'. split.
  { apply in_or_app. right. apply in_or_app. left. apply in_or_app. left. exact Hin'. }
  split; [exact Hk'|]. split; [exact Ht'|].
  assert (Hno : ~ In (event_id E) (deleted_event_ids events lb)).
  { rewrite deleted_event_ids_spec. intros [_ Hn]. apply Hn. now apply in_map. }
  destruct (D1 _ Hno) as [-> _]. exact Hg.
Qed.

(** an entry of the current scheme whose event is not in the snapshot *)
Lemma gone_event_calls g events (l l' : ledger) (w w' : W) tr k v :
  sync_events g events (l, w) = (Ret tt, (l', w'), tr) ->
  Dict.get k l = Some v ->
  is_old_style_id k = false ->
  ~ In k (map event_id events) ->
  exists gid,
    json_get v "google_event_id" JNull = Ret gid
    /\ if py_truthy gid
       then exists ok,
              calls_about k tr = [DeleteEvent k gid ok]
              /\ (ok = true -> Dict.mem k l' = false)
              /\ (ok = false -> Dict.get k l' = Some v)
       else calls_about k tr = [] /\ Dict.mem k l' = false.
Proof.
  intros Ecycle Hg Hk Hgone. apply sync_events_ret in Ecycle.
  destruct Ecycle as (Hd & ne & la & wa & tra & lb & wb & trb & trc & Ec & En & Ed & ->).
  pose proof (classify_facts _ _ _ _ _ _ _ _ Ec) as (K1 & _ & _ & K4 & K5 & _).
  pose proof (sync_new_facts _ _ _ _ _ _ _ En) as (N1 & _ & N3 & _).
  pose proof (detect_deleted_facts _ _ _ _ _ _ _ Ed) as (_ & _ & _ & D4).
  assert (Hnew : forall e, In e ne -> event_id e <> k).
  { intros e Hin Ek. apply Hgone. rewrite <- Ek. apply in_map. apply (K5 e Hin). }
  assert (Hlb : Dict.get k lb = Some v).
  { rewrite N1; [now apply K1|]. intros e x Hin Ek.
    destruct (N3 _ Hin) as [(e2 & x2 & Eq & Hin2)|(s & Eq)]; [|discriminate].
    inversion Eq; subst e2 x2. destruct (Hnew e Hin2 Ek). }
  assert (Hta : calls_about k tra = []).
  { apply calls_about_nil. intros c Hin Hc.
    destruct (K4 _ Hin) as (e & x & -> & Hev & _). simpl in Hc.
    apply Hgone. apply (some_inj _ _ _) in Hc. rewrite <- Hc. now apply in_map. }
  assert (Htb : calls_about k trb = []).
  { apply calls_about_nil. intros c Hin Hc.
    destruct (N3 _ Hin) as [(e & x & -> & Hin2)|(s & ->)]; [|discriminate Hc].
    simpl in Hc. apply (some_inj _ _ _) in Hc. destruct (Hnew e Hin2 Hc). }
  assert (Hdel : In k (deleted_event_ids events lb)).
  { apply deleted_event_ids_spec. split; [|exact Hgone].
    apply DictFacts.mem_get. eauto. }
  destruct (D4 k Hdel) as (gid & Hgid & Hrest).
  unfold stored_google_event_id in Hgid. rewrite Hlb in Hgid.
  exists gid. split; [exact Hgid|].
  rewrite !calls_about_app, Hta, Htb. simpl.
  destruct (py_truthy gid); [|exact Hrest].
  destruct Hrest as (ok & Hc & Hyes & Hno). exists ok.
  split; [exact Hc|]. split; [exact Hyes|]. intros Hok. rewrite (Hno Hok). exact Hlb.
Qed.

End LifeCycle.

(** ** The deletion phase of a cycle *)

Section DeletionInCycle.

Context {W : Type} `{Platform W}.

(** a cycle that returns is its two first phases, which delete nothing and
    leave the ledger [lb], followed by the deletion phase on [lb] *)
Lemma deletion_phase_of_cycle g events (l l' : ledger) (w w' : W) tr :
  sync_events g events (l, w) = (Ret tt, (l', w'), tr) ->
  exists lb wb tr0 trd,
    tr = (tr0 ++ trd)%list
    /\ (forall c, In c tr0 ->
          (exists e x, (c = CheckExists e x \/ c = CreateEvent e x) /\ In e events)
          \/ exists s, c = SaveState s)
    /\ detect_deleted g events (lb, wb) = (Ret tt, (l', w'), trd)
    /\ (forall k v, In (k, v) lb -> In (k, v) l \/ In k (map event_id events))
    /\ (forall k v, Dict.get k l = Some v -> is_old_style_id k = false ->
          ~ In k (map event_id events) -> Dict.get k lb = Some v).
Proof.
  intros E. apply sync_events_ret in E.
  destruct E as (Hd & ne & la & wa & tra & lb & wb & trb & trc & Ec & En & Ed & ->).
  pose proof (classify_facts _ _ _ _ _ _ _ _ Ec) as (K1 & _ & _ & K4 & K5 & _).
  pose proof (sync_new_facts _ _ _ _ _ _ _ En) as (N1 & _ & N3 & _).
  destruct (sync_new_eq g ne la wa) as (lb' & wb' & trc' & Ecl & En').
  unfold ledger in *. rewrite En in En'. inversion En' as [[Hlb Hwb Htrb]]. clear En'.
  subst lb' wb'.
  exists lb, wb, (tra ++ trb)%list, trc.
  split; [rewrite ?Htrb; apply app_assoc|]. split; [|split; [exact Ed|split]].
  - intros c Hin. apply in_app_or in Hin. destruct Hin as [Hin|Hin].
    + destruct (K4 _ Hin) as (e & x & -> & Hev & _). left. exists e, x. auto.
    + destruct (N3 _ Hin) as [(e & x & -> & Hne)|Hs]; [|right; exact Hs].
      left. exists e, x. split; [auto | apply (K5 e Hne)].
  - intros k v Hin.
    destruct (create_loop_in _ _ _ _ _ _ _ Ecl k v Hin) as [Hin1|Hin1].
    + apply (classify_in _ _ _ _ _ _ _ _ Ec k v Hin1).
    + right. apply in_map_iff in Hin1. destruct Hin1 as (e & <- & Hne).
      apply in_map. apply (K5 e Hne).
  - intros k v Hg Hk Hgone. rewrite N1; [now apply K1|]. intros e x Hin Ek.
    destruct (N3 _ Hin) as [(e2 & x2 & Eq & Hin2)|(s & Eq)]; [|discriminate].
    inversion Eq; subst e2 x2. exfalso. apply Hgone. rewrite <- Ek.
    apply in_map. apply (K5 e Hin2).
Qed.

Lemma calls_about_in k c tr : In c (calls_about k tr) -> In c tr /\ call_id c = Some k.
Proof.
  unfold calls_about. intros Hin. apply filter_In in Hin. destruct Hin as [Hin Hc].
  split; [exact Hin|]. destruct (call_id c) as [k'|]; [|discriminate].
  apply String.eqb_eq in Hc. now subst.
Qed.

Lemma in_calls_about k c tr : In c tr -> call_id c = Some k -> In c (calls_about k tr).
Proof.
  intros Hin Hc. unfold calls_about. apply filter_In. split; [exact Hin|].
  rewrite Hc. apply String.eqb_refl.
Qed.

End DeletionInCycle.

(** C5, as stated, fails: the entry holds a remote identifier that is not
    null, the empty string; its event is not in the snapshot; the cycle
    makes no call of [delete_event] and drops the entry. *)
Lemma C5_blank_remote_id_is_not_deleted :
  stored_google_event_id "outlook-00000000000000dd" Cases.blank_id_ledger = Ret (JStr "")
  /\ JStr "" <> JNull
  /\ sync_events Sim.google [Sim.sync_review] (Cases.blank_id_ledger, Sim.listing)
     = (Ret tt, (Sim.found_ledger, Sim.quiet),
        [CheckExists Sim.sync_review (Some "g5"); SaveState Sim.found_ledger]).
Proof. split; [|split]; [reflexivity | discriminate | vm_compute; reflexivity]. Qed.

(** C5, amended: a cycle that returns ends with the deletion phase, run on the
    ledger [lb] that the classification and the creations leave: [lb] holds
    the entries of the current scheme that the cycle found and whose events
    are gone, and nothing that was not in the ledger or is not of the
    snapshot; before that phase the cycle has called [delete_event] for
    nothing.  The candidates are the keys of [lb] that are no identifier of
    the snapshot.  Each candidate whose entry holds a remote identifier that
    Python takes for true ([None], a missing entry and the empty string are
    not) gets exactly one call in the whole cycle, [delete_event] with that
    identifier; its entry is gone when the call reported success and is
    unchanged when it did not; a candidate without such an identifier is
    dropped without a call; every other key is left alone and no
    [delete_event] is called for it.  [delete_event] reports success on
    HTTP 404. *)
Theorem C5_deletion_detection {W : Type} `{Platform W}
  g events (l l' : ledger) (w w' : W) tr :
  sync_events g events (l, w) = (Ret tt, (l', w'), tr) ->
  (exists lb wb tr0 trd,
     tr = (tr0 ++ trd)%list
     /\ (forall c k gid ok, In c tr0 -> c <> DeleteEvent k gid ok)
     /\ detect_deleted g events (lb, wb) = (Ret tt, (l', w'), trd)
     /\ (forall k v, In (k, v) lb -> In (k, v) l \/ In k (map event_id events))
     /\ (forall k v, Dict.get k l = Some v -> is_old_style_id k = false ->
           ~ In k (map event_id events) -> Dict.get k lb = Some v)
     /\ (forall k, In k (deleted_event_ids events lb)
                   <-> Dict.mem k lb = true /\ ~ In k (map event_id events))
     /\ (forall k, In k (deleted_event_ids events lb) ->
           exists gid, stored_google_event_id k lb = Ret gid
             /\ if py_truthy gid
                then exists ok,
                       calls_about k tr = [DeleteEvent k gid ok]
                       /\ (ok = true -> Dict.mem k l' = false)
                       /\ (ok = false -> Dict.get k l' = Dict.get k lb)
                else calls_about k tr = [] /\ Dict.mem k l' = false)
     /\ (forall k, ~ In k (deleted_event_ids events lb) ->
           Dict.get k l' = Dict.get k lb
           /\ forall gid ok, ~ In (DeleteEvent k gid ok) tr))
  /\ (forall gid w0 w1,
        service g = true ->
        events_delete (calendar_id g) gid w0 = (HttpError 404, w1) ->
        delete_event g gid w0 = (true, w1)).
Proof.
  intros E. split.
  - destruct (deletion_phase_of_cycle g events l l' w w' tr E)
      as (lb & wb & tr0 & trd & -> & H0 & Ed & Hfoot & Hkeep).
    pose proof (detect_deleted_facts _ _ _ _ _ _ _ Ed) as (D1 & _ & _ & D4).
    assert (Hno : forall c k gid ok, In c tr0 -> c <> DeleteEvent k gid ok).
    { intros c k gid ok Hin Eq. subst c.
      destruct (H0 _ Hin) as [(e & x & [Eq|Eq] & _)|(s & Eq)]; discriminate Eq. }
    assert (Hpre : forall k, ~ In k (map event_id events) -> calls_about k tr0 = []).
    { intros k Hgone. apply calls_about_nil. intros c Hin Hc.
      destruct (H0 _ Hin) as [(e & x & [->| ->] & Hev)|(s & ->)];
        simpl in Hc; try discriminate Hc;
        apply Hgone; apply (some_inj _ _ _) in Hc; rewrite <- Hc; now apply in_map. }
    exists lb, wb, tr0, trd.
    refine (conj eq_refl (conj Hno (conj Ed (conj Hfoot (conj Hkeep (conj _ (conj _ _))))))).
    + intros k. apply deleted_event_ids_spec.
    + intros k Hk. destruct (D4 k Hk) as (gid & Hgid & Hrest).
      exists gid. split; [exact Hgid|].
      apply deleted_event_ids_spec in Hk. destruct Hk as [_ Hgone].
      rewrite calls_about_app, (Hpre k Hgone). exact Hrest.
    + intros k Hk. destruct (D1 k Hk) as [Hg Hc]. split; [exact Hg|].
      intros gid ok Hin. apply in_app_or in Hin. destruct Hin as [Hin|Hin].
      * apply (Hno _ k gid ok Hin). reflexivity.
      * apply (in_calls_about k) in Hin; [|reflexivity].
        rewrite Hc in Hin. destruct Hin.
  - intros gid w0 w1 Hs He. unfold delete_event. rewrite Hs, He. reflexivity.
Qed.

Example deletion_cycle_run :
  sync_events Sim.google [Sim.sync_review] (Sim.deletion_ledger, Sim.deleting)
  = (Ret tt,
     ([("outlook-7308de134f927982",
        Sim.entry "2024-05-31T09:00:00" "2024-06-01T10:00:00" "Sync Review" (JStr "g1"));
       ("outlook-00000000000000cc",
        Sim.entry "2024-05-30T09:00:00" "2024-05-31T12:00:00" "Demo" (JStr "g9"))],
      Sim.quiet),
     [DeleteEvent "outlook-00000000000000aa" (JStr "g7") true;
      DeleteEvent "outlook-00000000000000cc" (JStr "g9") false;
      SaveState
        [("outlook-7308de134f927982",
          Sim.entry "2024-05-31T09:00:00" "2024-06-01T10:00:00" "Sync Review" (JStr "g1"));
         ("outlook-00000000000000cc",
          Sim.entry "2024-05-30T09:00:00" "2024-05-31T12:00:00" "Demo" (JStr "g9"))]]).
Proof. vm_compute. reflexivity. Qed.

(** three events are gone from the snapshot; the first deletion is answered
    with 404, the second with 500 *)
Lemma C5_deletion_witness :
  exists lb,
    (exists gid,
       stored_google_event_id "outlook-00000000000000aa" lb = Ret gid
       /\ if py_truthy gid
          then exists ok,
                 calls_about "outlook-00000000000000aa"
                   [DeleteEvent "outlook-00000000000000aa" (JStr "g7") true;
                    DeleteEvent "outlook-00000000000000cc" (JStr "g9") false;
                    SaveState
                      [("outlook-7308de134f927982",
                        Sim.entry "2024-05-31T09:00:00" "2024-06-01T10:00:00"
                          "Sync Review" (JStr "g1"));
                       ("outlook-00000000000000cc",
                        Sim.entry "2024-05-30T09:00:00" "2024-05-31T12:00:00" "Demo"
                          (JStr "g9"))]]
                 = [DeleteEvent "outlook-00000000000000aa" gid ok]
          else True)
    /\ Dict.get "outlook-00000000000000aa" lb
       = Dict.get "outlook-00000000000000aa" Sim.deletion_ledger.
Proof.
  destruct (C5_deletion_detection Sim.google [Sim.sync_review] Sim.deletion_ledger _
              Sim.deleting _ _ deletion_cycle_run)
    as [(lb & wb & tr0 & trd & Htr & _ & _ & _ & Hkeep & Hspec & Hcand & _) _].
  assert (Hg : Dict.get "outlook-00000000000000aa" lb
               = Dict.get "outlook-00000000000000aa" Sim.deletion_ledger).
  { apply (Hkeep "outlook-00000000000000aa"
             (Sim.entry "2024-05-30T09:00:00" "2024-05-31T10:00:00" "Planning" (JStr "g7"))).
    - reflexivity.
    - reflexivity.
    - vm_compute. intros [E'|[]]. discriminate E'. }
  exists lb. split; [|exact Hg].
  assert (Hk : In "outlook-00000000000000aa" (deleted_event_ids [Sim.sync_review] lb)).
  { apply (proj2 (Hspec _)). split.
    - apply DictFacts.mem_get. rewrite Hg. eexists. reflexivity.
    - vm_compute. intros [E'|[]]. discriminate E'. }
  destruct (Hcand _ Hk) as (gid & Hgid & Hrest). exists gid. split; [exact Hgid|].
  destruct (py_truthy gid); [|exact I].
  destruct Hrest as (ok & Hc & _). exists ok. exact Hc.
Defined.

(** X9: A creation that succeeded in a cycle was made for an event of the
    snapshot that was not in the ledger and that the lookup had not found,
    and after the cycle the ledger holds, under the identifier of the
    event, the entry of a successful creation for that identifier, the
    identifier the service returned in it. *)
Theorem created_event_is_recorded {W : Type} `{Platform W}
  g events (l l1 : ledger) (w w1 : W) tr E x :
  sync_events g events (l, w) = (Ret tt, (l1, w1), tr) ->
  In (CreateEvent E x) tr ->
  truthy x = true ->
  In E events /\ is_synced E l = false
  /\ (exists x0, In (CheckExists E x0) tr /\ truthy x0 = false)
  /\ exists t e' x',
       In (CreateEvent e' x') tr /\ event_id e' = event_id E /\ truthy x' = true
       /\ Dict.get (event_id E) l1 = Some (synced_entry t e' x')
       /\ stored_google_event_id (event_id E) l1 = Ret (json_of_id x').
Proof.
  intros Ecycle Hcall Ht.
  destruct (created_entry g events l l1 w w1 tr E x Ecycle Hcall Ht)
    as (Hev & Hs & Hlook & t & e' & x' & Hin' & Hk' & Ht' & Hg).
  split; [exact Hev|]. split; [exact Hs|]. split; [exact Hlook|].
  exists t, e', x'. split; [exact Hin'|]. split; [exact Hk'|]. split; [exact Ht'|].
  split; [exact Hg|]. unfold stored_google_event_id. rewrite Hg. reflexivity.
Qed.

(** [sync_review] is created as [g1] *)
Lemma created_event_witness :
  exists t e' x',
    In (CreateEvent e' x')
       [CheckExists Sim.sync_review None; CreateEvent Sim.sync_review (Some "g1");
        SaveState Sim.review_ledger]
    /\ event_id e' = event_id Sim.sync_review /\ truthy x' = true
    /\ Dict.get (event_id Sim.sync_review) Sim.review_ledger = Some (synced_entry t e' x')
    /\ stored_google_event_id (event_id Sim.sync_review) Sim.review_ledger
       = Ret (json_of_id x').
Proof.
  apply (created_event_is_recorded Sim.google [Sim.sync_review] [] Sim.review_ledger
           Sim.accepting Sim.quiet _ Sim.sync_review (Some "g1")).
  - vm_compute. reflexivity.
  - right. left. reflexivity.
  - reflexivity.
Defined.

(** X10: The identifier a creation returned is the one a later cycle deletes:
    when every successful creation of a cycle for the identifier of [E]
    returned [s], a following cycle over a snapshot without that identifier
    makes one call about it, [delete_event] with [s]; the entry is gone when
    the call reports success and is kept as it was when it does not. *)
Theorem created_event_is_deleted_by_its_id {W : Type} `{Platform W}
  g events (l l1 : ledger) (w w1 : W) tr1 E s
  g2 events2 (l2 : ledger) (w2 w2' : W) tr2 :
  sync_events g events (l, w) = (Ret tt, (l1, w1), tr1) ->
  In (CreateEvent E (Some s)) tr1 ->
  s <> "" ->
  (forall e x, In (CreateEvent e x) tr1 -> event_id e = event_id E ->
               truthy x = true -> x = Some s) ->
  sync_events g2 events2 (l1, w2) = (Ret tt, (l2, w2'), tr2) ->
  ~ In (event_id E) (map event_id events2) ->
  exists ok,
    calls_about (event_id E) tr2 = [DeleteEvent (event_id E) (JStr s) ok]
    /\ (ok = true -> is_synced E l2 = false)
    /\ (ok = false -> Dict.get (event_id E) l2 = Dict.get (event_id E) l1).
Proof.
  intros E1 Hcall Hs Hsame E2 Hgone.
  assert (Ht : truthy (Some s) = true).
  { simpl. destruct (String.eqb_spec s ""); [contradiction | reflexivity]. }
  destruct (created_entry g events l l1 w w1 tr1 E (Some s) E1 Hcall Ht)
    as (_ & _ & _ & t & e' & x' & Hin' & Hk' & Ht' & Hg).
  rewrite (Hsame e' x' Hin' Hk' Ht') in Hg.
  destruct (gone_event_calls g2 events2 l1 l2 w2 w2' tr2 (event_id E) _ E2 Hg
              (event_id_not_old_style E) Hgone) as (gid & Hgid & Hrest).
  simpl in Hgid. inversion Hgid; subst gid. clear Hgid.
  simpl in Ht. simpl in Hrest. rewrite Ht in Hrest.
  destruct Hrest as (ok & Hc & Hyes & Hno). exists ok.
  split; [exact Hc|]. split; [exact Hyes|]. intros Hok. rewrite (Hno Hok).
  symmetry. exact Hg.
Qed.

Example review_deleted_run :
  sync_events Sim.google [] (Sim.review_ledger, Sim.deleting)
  = (Ret tt, ([], Sim.mk_world Sim.june_1st [] [] [HttpError 500]),
     [DeleteEvent "outlook-7308de134f927982" (JStr "g1") true; SaveState []]).
Proof. vm_compute. reflexivity. Qed.

(** [sync_review], created as [g1], is gone from the next snapshot *)
Lemma created_then_deleted_witness :
  exists ok,
    calls_about (event_id Sim.sync_review)
      [DeleteEvent "outlook-7308de134f927982" (JStr "g1") true; SaveState []]
    = [DeleteEvent (event_id Sim.sync_review) (JStr "g1") ok]
    /\ (ok = true -> is_synced Sim.sync_review [] = false)
    /\ (ok = false ->
        Dict.get (event_id Sim.sync_review) []
        = Dict.get (event_id Sim.sync_review) Sim.review_ledger).
Proof.
  apply (created_event_is_deleted_by_its_id Sim.google [Sim.sync_review] []
           Sim.review_ledger Sim.accepting Sim.quiet
           [CheckExists Sim.sync_review None; CreateEvent Sim.sync_review (Some "g1");
            SaveState Sim.review_ledger]
           Sim.sync_review "g1" Sim.google [] [] Sim.deleting
           (Sim.mk_world Sim.june_1st [] [] [HttpError 500])).
  - vm_compute. reflexivity.
  - right. left. reflexivity.
  - discriminate.
  - intros e x [Eq|[Eq|[Eq|[]]]] _ _; try discriminate Eq.
    inversion Eq. reflexivity.
  - vm_compute. reflexivity.
  - intros [].
Defined.

(** ** The ledger as a table *)

(** X11: What [mark_synced] records is what the other methods read back: the
    event is synced, its remote identifier is the one given, no other
    identifier changes state, [remove_synced_event] takes the entry out
    again and does nothing for an identifier that is not in the ledger, and
    [get_synced_event_ids] lists the identifier with those that were
    there. *)
Theorem ledger_records_what_was_marked {W : Type} `{Platform W}
  e x (l : ledger) (w : W) :
  is_synced e (fst (mark_synced e x l w)) = true
  /\ stored_google_event_id (event_id e) (fst (mark_synced e x l w)) = Ret (json_of_id x)
  /\ (forall e', event_id e' <> event_id e ->
        is_synced e' (fst (mark_synced e x l w)) = is_synced e' l)
  /\ is_synced e (remove_synced_event (event_id e) (fst (mark_synced e x l w))) = false
  /\ (forall k, Dict.mem k l = false -> remove_synced_event k l = l)
  /\ (forall k, In k (get_synced_event_ids (fst (mark_synced e x l w)))
                <-> k = event_id e \/ In k (get_synced_event_ids l)).
Proof.
  rewrite mark_synced_eq. cbn [fst].
  set (v := synced_entry (fst (now w)) e x).
  assert (Hget : Dict.get (event_id e) (Dict.set (event_id e) v l) = Some v)
    by apply DictFacts.get_set_same.
  refine (conj _ (conj _ (conj _ (conj _ (conj _ _))))).
  - unfold is_synced. apply DictFacts.mem_get. eauto.
  - unfold stored_google_event_id. rewrite Hget. reflexivity.
  - intros e' Hne. unfold is_synced.
    destruct (Dict.mem (event_id e') l) eqn:Hm.
    + apply DictFacts.mem_get. apply DictFacts.mem_get in Hm.
      rewrite DictFacts.get_set_other by congruence. exact Hm.
    + apply DictFacts.get_none_mem. apply DictFacts.get_none_mem in Hm.
      rewrite DictFacts.get_set_other by congruence. exact Hm.
  - unfold is_synced. apply DictFacts.get_none_mem. rewrite get_remove.
    now rewrite String.eqb_refl.
  - intros k Hk. unfold remove_synced_event. now rewrite Hk.
  - intros k. unfold get_synced_event_ids. rewrite !nodup_In.
    apply DictFacts.keys_set.
Qed.

(** ** The search for an old entry *)

(** X12: [find_matching_old_event] compares the stripped title and the start of
    the event and nothing else: two events that agree on these, whatever
    their organizers, are given the same old entry. *)
Theorem old_entry_search_ignores_organizer (l : ledger) e e' :
  Str.strip (title e) = Str.strip (title e') ->
  start_date e = start_date e' ->
  find_matching_old_event l e = find_matching_old_event l e'.
Proof.
  intros Ht Hs. induction l as [|[k v] l IH]; [reflexivity|].
  cbn [find_matching_old_event]. rewrite IH.
  assert (Hm : old_entry_matches v e = old_entry_matches v e').
  { unfold old_entry_matches. now rewrite Ht, Hs. }
  now rewrite Hm.
Qed.

(** [standup] as sent by another organizer is given the entry of [standup] *)
Lemma old_entry_search_witness :
  find_matching_old_event Sim.legacy_ledger Sim.standup
  = find_matching_old_event Sim.legacy_ledger
      (mk_event " Standup " (mk_datetime 2024 6 3 9 30 0 0)
         (mk_datetime 2024 6 3 10 0 0 0) "Room" "Other" "carol" "" "" "" "").
Proof.
  apply (old_entry_search_ignores_organizer Sim.legacy_ledger); reflexivity.
Defined.

(** a title between ideographic spaces is the title of the old entry *)
Example old_entry_found_through_wide_spaces :
  find_matching_old_event Sim.legacy_ledger
    (mk_event (Text.of_bytes [227; 128; 128] ++ "Standup" ++ Text.of_bytes [227; 128; 128])
       (mk_datetime 2024 6 3 9 30 0 0) (mk_datetime 2024 6 3 9 45 0 0)
       "" "Calendar" "bob" "" "" "" "")
  = Ret (Some "outlook--123456").
Proof. vm_compute. reflexivity. Qed.

(** ** The mirror of an event in the calendar *)

Section Mirror.

Lemma startswith_app p t : Str.startswith p (p ++ t) = true.
Proof.
  induction p as [|a p IH]; [reflexivity|]. simpl.
  now rewrite Ascii.eqb_refl, IH.
Qed.

Lemma remove_skip old p t :
  Str.remove_all_from old (String.length p) (p ++ t) = Str.remove_all_from old 0 t.
Proof.
  induction p as [|a p IH]; [reflexivity|]. simpl. exact IH.
Qed.

Lemma remove_prefix a old t :
  Str.remove_all_from (String a old) 0 (String a old ++ t)
  = Str.remove_all_from (String a old) 0 t.
Proof.
  change (String a old ++ t) with (String a (old ++ t)).
  cbn [Str.remove_all_from].
  change (String a (old ++ t)) with (String a old ++ t).
  rewrite startswith_app.
  change (String.length (String a old) - 1)%nat with (S (String.length old) - 1)%nat.
  rewrite Nat.sub_succ, Nat.sub_0_r. apply remove_skip.
Qed.

Lemma remove_absent a old s :
  Text.contains (String a old) s = false ->
  Str.remove_all_from (String a old) 0 s = s.
Proof.
  induction s as [|b s IH]; [reflexivity|].
  cbn [Text.contains Str.remove_all_from]. intros Hc.
  apply Bool.orb_false_iff in Hc. destruct Hc as [Hs Hc].
  rewrite Hs. f_equal. apply IH. exact Hc.
Qed.

Lemma remove_length old s : forall k,
  (String.length (Str.remove_all_from old k s) <= String.length s)%nat.
Proof.
  induction s as [|b s IH]; intros k; [simpl; lia|].
  cbn [Str.remove_all_from]. destruct k as [|k].
  - destruct (Str.startswith old (String b s)).
    + specialize (IH (String.length old - 1)%nat). simpl. lia.
    + specialize (IH 0%nat). simpl. lia.
  - specialize (IH k). simpl. lia.
Qed.

Lemma remove_present a old s :
  Text.contains (String a old) s = true ->
  (String.length (Str.remove_all_from (String a old) 0 s) < String.length s)%nat.
Proof.
  induction s as [|b s IH]; [discriminate|].
  cbn [Text.contains Str.remove_all_from]. intros Hc.
  destruct (Str.startswith (String a old) (String b s)) eqn:Hs.
  - pose proof (remove_length (String a old) s (String.length (String a old) - 1)).
    change (String.length (String b s)) with (S (String.length s)). lia.
  - simpl in Hc. specialize (IH Hc).
    change (String.length (String b s)) with (S (String.length s)).
    change (String.length (String b (Str.remove_all_from (String a old) 0 s)))
      with (S (String.length (Str.remove_all_from (String a old) 0 s))). lia.
Qed.

End Mirror.

(** X13: The event [create_event] writes is recognised by the lookup of
    [check_event_exists] exactly when the title of the Outlook event does
    not contain the prefix that [create_event] puts before it: listed
    first, it answers the lookup with its identifier; for a title that
    contains the prefix it is passed over. *)
Theorem mirror_is_recognised_unless_title_has_prefix
  (e : Event) (id : option string) (rest : list calendar_item) :
  first_same_title (title e)
    (mk_item (Some (summary (build_google_event e))) id :: rest)
  = if Text.contains envelope (title e)
    then first_same_title (title e) rest
    else id.
Proof.
  cbn [first_same_title item_summary item_id build_google_event summary].
  unfold Str.remove_all, envelope.
  rewrite remove_prefix.
  match goal with
  | |- context [Text.contains ?p (title e)] =>
      destruct (Text.contains p (title e)) eqn:Hc
  end.
  - apply remove_present in Hc.
    match goal with
    | |- context [String.eqb ?a ?b] => destruct (String.eqb_spec a b) as [Eq|Hne]
    end; [|reflexivity].
    rewrite Eq in Hc. lia.
  - rewrite (remove_absent _ _ _ Hc). now rewrite String.eqb_refl.
Qed.

Example mirror_found :
  check_event_exists Sim.google Sim.sync_review Sim.listing = (Some "g5", Sim.quiet).
Proof. vm_compute. reflexivity. Qed.

(** the title of the event has the prefix in it: the mirror is not found *)
Example mirror_missed :
  first_same_title ("Re: " ++ envelope ++ "Review")
    [mk_item (Some (envelope ++ "Re: " ++ envelope ++ "Review")) (Some "g5")] = None.
Proof. vm_compute. reflexivity. Qed.

(** ** The dates of Outlook *)

Example am_is_not_pm : (am =? pm)%string = false.
Proof. vm_compute. reflexivity. Qed.

Example pm_is_not_am : (pm =? am)%string = false.
Proof. vm_compute. reflexivity. Qed.

Lemma constructible_hour y mo d h h' mi s us :
  constructible (mk_datetime y mo d h mi s us) = true ->
  0 <= h' <= 23 ->
  constructible (mk_datetime y mo d h' mi s us) = true.
Proof.
  unfold constructible. cbn [year month day hour minute second microsecond].
  intros Hc Hh. rewrite !Bool.andb_true_iff in *. rewrite !Z.leb_le in *.
  intuition lia.
Qed.

Lemma not_constructible_hour y mo d h mi s us :
  24 <= h -> constructible (mk_datetime y mo d h mi s us) = false.
Proof.
  intros Hh. destruct (constructible (mk_datetime y mo d h mi s us)) eqn:Hc;
    [|reflexivity].
  unfold constructible in Hc. cbn [year month day hour minute second microsecond] in Hc.
  rewrite !Bool.andb_true_iff in Hc. rewrite !Z.leb_le in Hc. intuition lia.
Qed.

(** X14: [parse_date] reads the twelve-hour clock: between 1 and 12 the hour
    becomes [hour mod 12], plus 12 in the afternoon, so that 12 in the
    morning is midnight and 12 in the afternoon is noon.  An afternoon hour
    above 12 gives a date the constructor refuses, and [parse_date] answers
    with the current time, as it does for a string the pattern does not
    match. *)
Theorem parse_date_reads_the_twelve_hour_clock {W : Type} `{Platform W}
  (korean_search : string -> option korean_date) s (w : W) :
  (forall m,
     korean_search s = Some m ->
     k_am_pm m = am \/ k_am_pm m = pm ->
     1 <= k_hour m <= 12 ->
     constructible (mk_datetime (k_year m) (k_month m) (k_day m) 0
                      (k_minute m) (k_second m) 0) = true ->
     parse_date korean_search s w
     = (mk_datetime (k_year m) (k_month m) (k_day m)
          (k_hour m mod 12 + (if (k_am_pm m =? pm)%string then 12 else 0))
          (k_minute m) (k_second m) 0, w))
  /\ (forall m,
        korean_search s = Some m -> k_am_pm m = pm -> 13 <= k_hour m ->
        parse_date korean_search s w = now w)
  /\ (korean_search s = None -> parse_date korean_search s w = now w).
Proof.
  refine (conj _ (conj _ _)).
  - intros m Hm Hap Hh Hc. unfold parse_date. rewrite Hm.
    assert (Eh : to_24_hour (k_am_pm m) (k_hour m)
                 = k_hour m mod 12 + (if (k_am_pm m =? pm)%string then 12 else 0)).
    { unfold to_24_hour. destruct Hap as [-> | ->].
      - rewrite am_is_not_pm, String.eqb_refl. simpl andb.
        destruct (Z.eqb_spec (k_hour m) 12) as [->|Hne]; [reflexivity|].
        rewrite Z.mod_small by lia. lia.
      - rewrite String.eqb_refl, pm_is_not_am. simpl andb.
        destruct (Z.eqb_spec (k_hour m) 12) as [->|Hne]; [reflexivity|].
        simpl negb. cbv iota. rewrite Z.mod_small by lia. reflexivity. }
    rewrite Eh.
    rewrite (constructible_hour _ _ _ 0 _ _ _ _ Hc); [reflexivity|].
    pose proof (Z.mod_pos_bound (k_hour m) 12 ltac:(lia)).
    destruct (k_am_pm m =? pm)%string; lia.
  - intros m Hm Hap Hh. unfold parse_date. rewrite Hm.
    unfold to_24_hour. rewrite Hap, String.eqb_refl.
    destruct (Z.eqb_spec (k_hour m) 12) as [E|Hne]; [lia|]. simpl andb. cbv iota.
    rewrite not_constructible_hour by lia. reflexivity.
  - intros Hm. unfold parse_date. now rewrite Hm.
Qed.

(** [Feed.ten] is read as ten in the morning; thirteen in the afternoon is
    answered with the clock *)
Lemma parse_date_witness :
  parse_date Feed.korean_search Feed.ten Sim.quiet
  = (mk_datetime 2024 6 1 10 0 0 0, Sim.quiet)
  /\ parse_date Feed.korean_search Feed.thirteen_pm Sim.quiet = now Sim.quiet.
Proof.
  split.
  - apply (proj1 (parse_date_reads_the_twelve_hour_clock Feed.korean_search
                    Feed.ten Sim.quiet) (mk_korean_date 2024 6 1 am 10 0 0)).
    + vm_compute. reflexivity.
    + left. reflexivity.
    + simpl. lia.
    + vm_compute. reflexivity.
  - apply (proj1 (proj2 (parse_date_reads_the_twelve_hour_clock Feed.korean_search
                           Feed.thirteen_pm Sim.quiet))
             (mk_korean_date 2024 6 1 pm 13 0 0)).
    + vm_compute. reflexivity.
    + reflexivity.
    + simpl. lia.
Defined.

(** ** The output of the script *)

Section Rows.

Lemma occurs_app c s t : occurs c (s ++ t) = (occurs c s || occurs c t)%bool.
Proof.
  induction s as [|a s IH]; [reflexivity|]. simpl. rewrite IH.
  now rewrite Bool.orb_assoc.
Qed.

Lemma split_skip sep p t :
  Text.split_from sep (String.length p) (p ++ t) = Text.split_from sep 0 t.
Proof.
  induction p as [|a p IH]; [reflexivity|]. simpl. exact IH.
Qed.

Lemma split_from_nonempty sep s : forall k, Text.split_from sep k s <> [].
Proof.
  induction s as [|a s IH]; intros k; [discriminate|].
  cbn [Text.split_from]. destruct k as [|k]; [|apply IH].
  destruct (Str.startswith sep (String a s)); [discriminate|].
  destruct (Text.split_from sep 0 s); discriminate.
Qed.

(** a piece without the first character of the separator is not cut *)
Lemma split_piece c sep f :
  occurs c f = false -> Text.split_from (String c sep) 0 f = [f].
Proof.
  induction f as [|a f IH]; [reflexivity|]. simpl occurs. intros Ho.
  apply Bool.orb_false_iff in Ho. destruct Ho as [Ha Ho].
  cbn [Text.split_from Str.startswith]. rewrite Ascii.eqb_sym, Ha. cbn [andb].
  now rewrite (IH Ho).
Qed.

Lemma split_first c sep f t :
  occurs c f = false ->
  Text.split_from (String c sep) 0 (f ++ String c sep ++ t)
  = f :: Text.split_from (String c sep) 0 t.
Proof.
  induction f as [|a f IH]; intros Ho.
  - change ("" ++ String c sep ++ t) with (String c (sep ++ t)).
    cbn [Text.split_from].
    change (String c (sep ++ t)) with (String c sep ++ t).
    rewrite startswith_app.
    change (String.length (String c sep) - 1)%nat with (S (String.length sep) - 1)%nat.
    rewrite Nat.sub_succ, Nat.sub_0_r. now rewrite split_skip.
  - simpl occurs in Ho. apply Bool.orb_false_iff in Ho. destruct Ho as [Ha Ho].
    change (String a f ++ String c sep ++ t) with (String a (f ++ String c sep ++ t)).
    cbn [Text.split_from Str.startswith]. rewrite Ascii.eqb_sym, Ha. cbn [andb].
    now rewrite (IH Ho).
Qed.

(** [split] undoes [join] on pieces without the first character of the
    separator *)
Lemma split_join c sep fs :
  fs <> [] ->
  (forall f, In f fs -> occurs c f = false) ->
  Text.split (String c sep) (Text.join (String c sep) fs) = fs.
Proof.
  unfold Text.split. induction fs as [|f fs IH]; intros Hne Hall; [contradiction|].
  destruct fs as [|g fs].
  - simpl. apply split_piece. apply Hall. left. reflexivity.
  - change (Text.join (String c sep) (f :: g :: fs))
      with (f ++ String c sep ++ Text.join (String c sep) (g :: fs)).
    rewrite split_first by (apply Hall; left; reflexivity).
    f_equal. apply IH; [discriminate|].
    intros f' Hin. apply Hall. right. exact Hin.
Qed.

Lemma occurs_join c sep fs :
  occurs c sep = false ->
  (forall f, In f fs -> occurs c f = false) ->
  occurs c (Text.join sep fs) = false.
Proof.
  intros Hs. induction fs as [|f fs IH]; intros Hall; [reflexivity|].
  destruct fs as [|g fs].
  - simpl. apply Hall. left. reflexivity.
  - change (Text.join sep (f :: g :: fs)) with (f ++ sep ++ Text.join sep (g :: fs)).
    rewrite !occurs_app, Hs, (Hall f (or_introl eq_refl)). simpl.
    apply IH. intros f' Hin. apply Hall. right. exact Hin.
Qed.

Lemma join_nonempty sep ls l :
  In l ls -> l <> "" -> Text.join sep ls <> "".
Proof.
  induction ls as [|a ls IH]; intros Hin Hl; [destruct Hin|].
  destruct ls as [|b ls].
  - destruct Hin as [->|[]]. exact Hl.
  - change (Text.join sep (a :: b :: ls)) with (a ++ sep ++ Text.join sep (b :: ls)).
    destruct Hin as [->|Hin].
    + destruct l; [contradiction | discriminate].
    + destruct a; [|discriminate]. simpl. destruct sep; [|discriminate].
      simpl. apply IH; assumption.
Qed.

Lemma continuation_is_no_bar b y :
  Utf8.continuation b = Some y -> Ascii.eqb b "|" = false.
Proof.
  intros Hc. destruct (Ascii.eqb_spec b "|"%char) as [->|]; [|reflexivity].
  discriminate Hc.
Qed.

(** a bar in a text is its first code point or is in what follows it *)
Lemma head_bar s c rest :
  Utf8.head s = Some (c, rest) -> occurs "|" s = true ->
  c = 124 \/ occurs "|" rest = true.
Proof.
  destruct s as [|a s1]; [discriminate|].
  destruct (Ascii.eqb_spec a "|"%char) as [->|Ha].
  - intros E _. left. inversion E. reflexivity.
  - intros E Ho. right. simpl in Ho.
    destruct (Ascii.eqb_spec a "|"%char) as [|_]; [contradiction|]. simpl in Ho.
    unfold Utf8.head in E.
    destruct (Utf8.byte a <? 128); [inversion E; subst; exact Ho|].
    destruct ((194 <=? Utf8.byte a) && (Utf8.byte a <=? 223))%bool.
    { destruct s1 as [|b s2]; [discriminate E|].
      destruct (Utf8.continuation b) as [y|] eqn:Hb; [|discriminate E].
      inversion E; subst. simpl in Ho.
      now rewrite (continuation_is_no_bar b y Hb) in Ho. }
    destruct ((224 <=? Utf8.byte a) && (Utf8.byte a <=? 239))%bool.
    { destruct s1 as [|b [|c0 s3]]; try discriminate E.
      destruct (Utf8.continuation b) as [y|] eqn:Hb; [|discriminate E].
      destruct (Utf8.continuation c0) as [z|] eqn:Hc; [|discriminate E].
      inversion E; subst. simpl in Ho.
      now rewrite (continuation_is_no_bar b y Hb),
                  (continuation_is_no_bar c0 z Hc) in Ho. }
    destruct ((240 <=? Utf8.byte a) && (Utf8.byte a <=? 244))%bool; [|discriminate E].
    destruct s1 as [|b [|c0 [|d s4]]]; try discriminate E.
    destruct (Utf8.continuation b) as [y|] eqn:Hb; [|discriminate E].
    destruct (Utf8.continuation c0) as [z|] eqn:Hc; [|discriminate E].
    destruct (Utf8.continuation d) as [u|] eqn:Hd; [|discriminate E].
    inversion E; subst. simpl in Ho.
    now rewrite (continuation_is_no_bar b y Hb), (continuation_is_no_bar c0 z Hc),
                (continuation_is_no_bar d u Hd) in Ho.
Qed.

Lemma blank_has_no_bar n : forall s,
  Utf8.all Utf8.is_space n s = true -> occurs "|" s = false.
Proof.
  induction n as [|n IH]; intros s Hall.
  - destruct s; [reflexivity | discriminate Hall].
  - destruct s as [|a s1]; [reflexivity|]. cbn [Utf8.all] in Hall.
    destruct (Utf8.head (String a s1)) as [[c rest]|] eqn:Hh; [|discriminate Hall].
    apply Bool.andb_true_iff in Hall. destruct Hall as [Hsp Hrest].
    destruct (occurs "|" (String a s1)) eqn:Ho; [|reflexivity].
    destruct (head_bar _ _ _ Hh Ho) as [->|Hr].
    + discriminate Hsp.
    + rewrite (IH rest Hrest) in Hr. discriminate Hr.
Qed.

Lemma lstrip_keeps_bar n : forall s,
  occurs "|" s = true -> occurs "|" (Str.lstrip_upto n s) = true.
Proof.
  induction n as [|n IH]; intros s Ho; [exact Ho|]. cbn [Str.lstrip_upto].
  destruct (Utf8.head s) as [[c rest]|] eqn:Hh; [|exact Ho].
  destruct (Utf8.is_space c) eqn:Hsp; [|exact Ho].
  apply IH. destruct (head_bar _ _ _ Hh Ho) as [->|Hr]; [discriminate Hsp | exact Hr].
Qed.

Lemma rstrip_keeps_bar s : occurs "|" s = true -> Str.rstrip s <> "".
Proof.
  intros Ho. destruct s as [|a s1]; [discriminate Ho|]. cbn [Str.rstrip].
  destruct (Str.blank (String a s1)) eqn:Hb; [|discriminate].
  unfold Str.blank in Hb. apply blank_has_no_bar in Hb. congruence.
Qed.

(** a text with a bar in it is not blank *)
Lemma strip_keeps_bar s : occurs "|" s = true -> Str.strip s <> "".
Proof.
  intros Ho. unfold Str.strip, Str.lstrip. apply rstrip_keeps_bar.
  now apply lstrip_keeps_bar.
Qed.

Lemma line_has_bar f g row : occurs "|" (line_of (f :: g :: row)) = true.
Proof.
  unfold line_of.
  change (Text.join field_separator (f :: g :: row))
    with (f ++ field_separator ++ Text.join field_separator (g :: row)).
  rewrite !occurs_app. simpl. apply Bool.orb_true_r.
Qed.

End Rows.

Section Read.

Context {W : Type} `{Platform W}.

Variable korean_search : string -> option korean_date.

Lemma plain_spec f :
  plain f = true -> occurs "|" f = false /\ occurs (ascii_of_nat 10) f = false.
Proof.
  unfold plain. intros Hp. apply Bool.andb_true_iff in Hp. destruct Hp as [Hb Hn].
  apply Bool.negb_true_iff in Hb. apply Bool.negb_true_iff in Hn. auto.
Qed.

Lemma parts_of_row row :
  (forall f, In f row -> plain f = true) ->
  Text.split field_separator (line_of row)
  = match row with [] => [""] | _ => row end.
Proof.
  intros Hp. destruct row as [|f row]; [reflexivity|].
  unfold line_of, field_separator. apply split_join; [discriminate|].
  intros f' Hin. apply (plain_spec f' (Hp f' Hin)).
Qed.

Lemma event_of_line_short row (w : W) :
  (forall f, In f row -> plain f = true) ->
  (4 <=? List.length row)%nat = false ->
  event_of_line korean_search (line_of row) w = (None, w).
Proof.
  intros Hp Hlen. unfold event_of_line. rewrite (parts_of_row row Hp).
  destruct row as [|f row]; [reflexivity|]. now rewrite Hlen.
Qed.

Lemma event_of_line_long row (w : W) :
  (forall f, In f row -> plain f = true) ->
  (4 <=? List.length row)%nat = true ->
  exists e w',
    event_of_line korean_search (line_of row) w = (Some e, w')
    /\ reads korean_search row e.
Proof.
  intros Hp Hlen. unfold event_of_line. rewrite (parts_of_row row Hp).
  destruct row as [|f row]; [discriminate|]. rewrite Hlen.
  destruct (parse_date korean_search (nth 1 (f :: row) "") w) as [sd w1] eqn:E1.
  destruct (parse_date korean_search (nth 2 (f :: row) "") w1) as [ed w2] eqn:E2.
  destruct (now w2) as [t w3].
  eexists. exists w3. split; [reflexivity|].
  unfold reads. cbn [title raw_start raw_end calendar_title location organizer
                       content importance start_date end_date].
  repeat (split; [reflexivity|]). split.
  - exists w. now rewrite E1.
  - exists w1. now rewrite E2.
Qed.

Lemma events_of_lines_rows rows : forall (w : W),
  (forall row f, In row rows -> In f row -> plain f = true) ->
  exists events w',
    events_of_lines korean_search (map line_of rows) w = (events, w')
    /\ Forall2 (reads korean_search)
         (filter (fun row => (4 <=? List.length row)%nat) rows) events.
Proof.
  induction rows as [|row rows IH]; intros w Hp.
  - exists [], w. split; [reflexivity | constructor].
  - assert (Hrow : forall f, In f row -> plain f = true)
      by (intros f Hin; apply (Hp row f); [left; reflexivity | exact Hin]).
    assert (Hrest : forall r f, In r rows -> In f r -> plain f = true)
      by (intros r f Hr Hin; apply (Hp r f); [right; exact Hr | exact Hin]).
    cbn [map events_of_lines filter].
    destruct (4 <=? List.length row)%nat eqn:Hlen.
    + assert (Hline : Str.strip (line_of row) <> "").
      { destruct row as [|f [|g row']]; try discriminate Hlen.
        apply strip_keeps_bar. apply line_has_bar. }
      destruct (String.eqb_spec (Str.strip (line_of row)) "") as [E|_]; [contradiction|].
      destruct (event_of_line_long row w Hrow Hlen) as (e & w1 & -> & Hr).
      destruct (IH w1 Hrest) as (events & w' & -> & Hall).
      exists (e :: events), w'. split; [reflexivity | now constructor].
    + destruct (Str.strip (line_of row) =? "")%string.
      * apply IH. exact Hrest.
      * rewrite (event_of_line_short row w Hrow Hlen). apply IH. exact Hrest.
Qed.

End Read.

(** X15: [get_events] undoes what the script does: when the output of the
    script, stripped as [run_applescript] returns it, is the rows joined,
    and no field holds the bar of the separator or a line feed, there is one
    event for each row of at least four fields, in order, with the fields
    of the row (a missing one empty) and the dates [parse_date] reads from
    the second and third; rows of fewer fields give nothing. *)
Theorem get_events_reads_the_rows {W : Type} `{Platform W}
  (korean_search : string -> option korean_date) rows stdout (w : W) :
  Str.strip stdout = output_of rows ->
  (forall row f, In row rows -> In f row -> plain f = true) ->
  exists events w',
    get_events korean_search true (run_applescript (Some (0, stdout))) w = (events, w')
    /\ Forall2 (reads korean_search)
         (filter (fun row => (4 <=? List.length row)%nat) rows) events.
Proof.
  intros Hstrip Hp. unfold get_events, run_applescript. cbn [negb Z.eqb].
  rewrite Hstrip.
  destruct (String.eqb_spec (output_of rows) "") as [Hout|Hout].
  - exists [], w. split; [reflexivity|].
    destruct (filter (fun row => (4 <=? List.length row)%nat) rows) as [|row rest] eqn:Hf;
      [constructor|]. exfalso.
    assert (Hin : In row (filter (fun row => (4 <=? List.length row)%nat) rows))
      by (rewrite Hf; left; reflexivity).
    apply filter_In in Hin. destruct Hin as [Hin Hlen].
    apply (join_nonempty newline (map line_of rows) (line_of row)).
    + now apply in_map.
    + destruct row as [|f [|g row']]; try discriminate Hlen.
      intros E. pose proof (line_has_bar f g row') as Hb. rewrite E in Hb. discriminate.
    + exact Hout.
  - assert (Hlines : Text.split newline (output_of rows) = map line_of rows).
    { unfold output_of, newline. apply split_join.
      - destruct rows; [contradiction Hout; reflexivity | discriminate].
      - intros l Hin. apply in_map_iff in Hin. destruct Hin as (row & <- & Hin).
        unfold line_of. apply occurs_join; [reflexivity|].
        intros f Hf. apply (plain_spec f (Hp row f Hin Hf)). }
    rewrite Hlines. now apply events_of_lines_rows.
Qed.

(** the output of the script for a row whose title the script indents, a
    row of one field, and the line feed that ends the output *)
Lemma get_events_witness :
  exists events w',
    get_events Feed.korean_search true
      (run_applescript
         (Some (0, "  " ++ output_of [Feed.review_fields; ["Agenda"]] ++ newline)))
      Sim.quiet = (events, w')
    /\ Forall2 (reads Feed.korean_search) [Feed.review_fields] events.
Proof.
  apply (get_events_reads_the_rows Feed.korean_search
           [Feed.review_fields; ["Agenda"]]
           ("  " ++ output_of [Feed.review_fields; ["Agenda"]] ++ newline) Sim.quiet).
  - vm_compute. reflexivity.
  - intros row f Hrow Hf.
    assert (Hall : forallb (forallb plain) [Feed.review_fields; ["Agenda"]] = true)
      by (vm_compute; reflexivity).
    rewrite forallb_forall in Hall. specialize (Hall row Hrow).
    rewrite forallb_forall in Hall. exact (Hall f Hf).
Defined.

(** ** The results the calls of a cycle record *)

Section Answers.

Context {W : Type} `{Platform W}.

Lemma classify_answered g es : forall (l l' : ledger) (w w' : W) ne tr,
  classify g es (l, w) = (Ret ne, (l', w'), tr) -> Forall (answered g) tr.
Proof.
  induction es as [|e es IH]; intros l l' w w' ne tr E.
  - simpl in E. unfold ret in E. inversion E; subst. constructor.
  - apply classify_cons_ret in E.
    destruct E as (b & l1 & w1 & tr1 & ne1 & tr2 & E1 & E2 & _ & ->).
    apply Forall_app. split; [|apply (IH _ _ _ _ _ _ E2)].
    apply classify_one_ret in E1.
    destruct E1 as [(_ & _ & _ & _ & ->)
                   |[(_ & _ & -> & _)
                    |(_ & _ & x & w2 & Hx & -> & _)]]; try constructor; [|constructor].
    exists w. now rewrite Hx.
Qed.

Lemma create_loop_answered g ne : forall (l l' : ledger) (w w' : W) tr,
  create_loop g ne (l, w) = (Ret tt, (l', w'), tr) -> Forall (answered g) tr.
Proof.
  induction ne as [|e ne IH]; intros l l' w w' tr E.
  - simpl in E. unfold ret in E. inversion E; subst. constructor.
  - rewrite create_loop_cons, create_one_eq in E.
    match type of E with
    | context [create_loop g ne ?s] => remember s as s1 eqn:Hs1
    end.
    destruct s1 as [la wa].
    destruct (create_loop g ne (la, wa)) as [[r [l2 w2]] tr2] eqn:E2.
    inversion E; subst r l2 w2 tr. clear E.
    constructor; [exists w; reflexivity | apply (IH _ _ _ _ _ E2)].
Qed.

Lemma delete_loop_answered g ks : forall (l l' : ledger) (w w' : W) tr,
  delete_loop g ks (l, w) = (Ret tt, (l', w'), tr) -> Forall (answered g) tr.
Proof.
  induction ks as [|k ks IH]; intros l l' w w' tr E.
  - simpl in E. unfold ret in E. inversion E; subst. constructor.
  - rewrite delete_loop_cons, delete_one_eq in E.
    destruct (stored_google_event_id k l) as [gid|x]; [|discriminate E].
    destruct (py_truthy gid).
    + match type of E with
      | context [delete_loop g ks ?s] =>
          destruct (delete_loop g ks s) as [[r [l2 w2]] tr2] eqn:E2
      end.
      inversion E; subst r l2 w2 tr. clear E.
      constructor; [exists w; reflexivity|].
      match type of E2 with
      | delete_loop g ks (?la, ?wa) = _ => apply (IH la _ wa _ _ E2)
      end.
    + destruct (delete_loop g ks (remove_synced_event k l, w))
        as [[r [l2 w2]] tr2] eqn:E2.
      inversion E; subst r l2 w2 tr. clear E. apply (IH _ _ _ _ _ E2).
Qed.

(** every call of a cycle records the answer of its method *)
Lemma sync_events_answered g events (l l' : ledger) (w w' : W) tr :
  sync_events g events (l, w) = (Ret tt, (l', w'), tr) -> Forall (answered g) tr.
Proof.
  intros E. apply sync_events_ret in E.
  destruct E as (Hd & ne & la & wa & tra & lb & wb & trb & trc & Ec & En & Ed & ->).
  destruct (sync_new_eq g ne la wa) as (lb' & wb' & trc' & Ecl & En').
  unfold ledger in *. rewrite En in En'. inversion En' as [[Hlb Hwb Htrb]]. clear En'.
  subst lb' wb' trb. rewrite detect_deleted_eq in Ed.
  match type of Ed with
  | context [delete_loop g ?ids ?s] =>
      destruct (delete_loop g ids s) as [[o [l3 w3]] trd] eqn:Edl
  end.
  destruct o as [[]|x]; [|discriminate Ed].
  inversion Ed as [[Hl3 Hw3 Htrc]]. clear Ed.
  apply Forall_app. split; [apply (classify_answered _ _ _ _ _ _ _ _ Ec)|].
  apply Forall_app. split.
  - apply Forall_app. split; [apply (create_loop_answered _ _ _ _ _ _ _ Ecl)|].
    destruct ne; repeat constructor.
  - apply Forall_app. split; [apply (delete_loop_answered _ _ _ _ _ _ _ Edl)|].
    destruct (deleted_event_ids events lb); repeat constructor.
Qed.

End Answers.

(** X16: Without a service (the authentication did not give one) no request is
    sent: in a cycle every lookup finds nothing, every creation and every
    deletion fails. *)
Theorem without_service_every_call_fails {W : Type} `{Platform W}
  g events (l l' : ledger) (w w' : W) tr :
  service g = false ->
  sync_events g events (l, w) = (Ret tt, (l', w'), tr) ->
  Forall call_failed tr.
Proof.
  intros Hs E. apply sync_events_answered in E.
  apply Forall_forall. intros c Hin. rewrite Forall_forall in E.
  specialize (E c Hin). destruct c as [e x|e x|k gid ok|s]; simpl in *.
  - destruct E as [w0 ->]. unfold check_event_exists. now rewrite Hs.
  - destruct E as [w0 ->]. unfold create_event. now rewrite Hs.
  - destruct E as [w0 ->]. unfold delete_event. now rewrite Hs.
  - exact I.
Qed.

Example no_service_run :
  sync_events (mk_google false "primary") [Sim.standup]
    (Sim.review_ledger, Sim.accepting)
  = (Ret tt, (Sim.review_ledger, Sim.accepting),
     [CheckExists Sim.standup None; CreateEvent Sim.standup None;
      SaveState Sim.review_ledger;
      DeleteEvent "outlook-7308de134f927982" (JStr "g1") false;
      SaveState Sim.review_ledger]).
Proof. vm_compute. reflexivity. Qed.

(** a cycle without service over [standup], the ledger holding [sync_review] *)
Lemma without_service_witness :
  Forall call_failed
    [CheckExists Sim.standup None; CreateEvent Sim.standup None;
     SaveState Sim.review_ledger;
     DeleteEvent "outlook-7308de134f927982" (JStr "g1") false;
     SaveState Sim.review_ledger].
Proof.
  apply (without_service_every_call_fails (mk_google false "primary") [Sim.standup]
           Sim.review_ledger Sim.review_ledger Sim.accepting Sim.accepting).
  - reflexivity.
  - vm_compute. reflexivity.
Defined.

(** ** Monitoring a calendar that does not change *)

Section Idle.

Context {W : Type} `{Platform W}.

Variable korean_search : string -> option korean_date.

Variable sleep : W -> W.

Lemma idle_turns g running result events (l : ledger) :
  all_dicts l ->
  Forall (fun e => is_synced e l = true) events ->
  deleted_event_ids events l = [] ->
  (forall w, fst (get_events korean_search running result w) = events) ->
  forall n (w : W), exists w',
    monitor_loop korean_search sleep g (repeat (running, result) n) (l, w)
    = (Ret tt, (l, w'), []).
Proof.
  intros Hd Hs Hdel Hev. induction n as [|n IH]; intros w.
  - exists w. reflexivity.
  - cbn [repeat monitor_loop]. rewrite sync_cycle_eq, Hev.
    rewrite (settled_cycle g events l _ Hd Hs Hdel).
    destruct (IH (sleep (snd (get_events korean_search running result (snd (now w))))))
      as [w' E].
    unfold ledger in *. rewrite E. exists w'. reflexivity.
Qed.

End Idle.

(** X17: Once a cycle has brought a snapshot to the calendar with every creation
    and deletion succeeding, the monitoring loop does nothing for as long as
    Outlook gives that snapshot: whatever the number of turns, it makes no
    call and leaves the ledger as it is. *)
Theorem monitoring_an_unchanged_calendar_is_idle {W : Type} `{Platform W}
  (korean_search : string -> option korean_date) (sleep : W -> W)
  g events (l l1 : ledger) (w w1 : W) tr1 running result :
  sync_events g events (l, w) = (Ret tt, (l1, w1), tr1) ->
  Forall call_succeeded tr1 ->
  (forall w0, fst (get_events korean_search running result w0) = events) ->
  forall n w2, exists w',
    monitor_loop korean_search sleep g (repeat (running, result) n) (l1, w2)
    = (Ret tt, (l1, w'), []).
Proof.
  intros E Hok Hev.
  destruct (successful_cycle_ledger g events l l1 w w1 tr1 E Hok) as (Hd & Hs & Hdel).
  now apply idle_turns with (events := events).
Qed.

Example review_event_run :
  sync_events Sim.google [Feed.review_event] ([], Sim.accepting)
  = (Ret tt, (Sim.review_ledger, Sim.quiet),
     [CheckExists Feed.review_event None;
      CreateEvent Feed.review_event (Some "g1");
      SaveState Sim.review_ledger]).
Proof. vm_compute. reflexivity. Qed.

(** three turns after [review_line] was brought to the calendar *)
Lemma monitoring_idle_witness :
  exists w',
    monitor_loop Feed.korean_search Feed.sleep Sim.google
      (repeat (true, Some Feed.review_line) 3) (Sim.review_ledger, Sim.deleting)
    = (Ret tt, (Sim.review_ledger, w'), []).
Proof.
  apply (monitoring_an_unchanged_calendar_is_idle Feed.korean_search Feed.sleep
           Sim.google [Feed.review_event] [] Sim.review_ledger Sim.accepting Sim.quiet
           [CheckExists Feed.review_event None;
            CreateEvent Feed.review_event (Some "g1");
            SaveState Sim.review_ledger]
           true (Some Feed.review_line)).
  - vm_compute. reflexivity.
  - repeat constructor.
  - intros w0. destruct w0 as [c i ls d]. vm_compute. reflexivity.
Defined.

(** ** Which identifiers count as old *)

Section OldIds.

Lemma uint_digits d : Str.all_digits (NilEmpty.string_of_uint d) = true.
Proof. induction d; simpl; auto. Qed.

Lemma decimal_digits n :
  exists a r, Str.decimal n = String a r
              /\ Str.is_digit a = true /\ Str.all_digits r = true.
Proof.
  unfold Str.decimal. destruct (N.to_uint (Z.to_N n)) as [|d|d|d|d|d|d|d|d|d|d];
    cbn [NilZero.string_of_uint NilEmpty.string_of_uint];
    eexists; eexists; (split; [reflexivity|]); (split; [reflexivity|]);
    try reflexivity; apply uint_digits.
Qed.

Lemma digit_is_no_dash a : Str.is_digit a = true -> Ascii.eqb "-" a = false.
Proof.
  intros Hd. destruct (Ascii.eqb_spec "-"%char a) as [<-|]; [|reflexivity].
  discriminate Hd.
Qed.

(** a digit of [0-9] is the code point of a digit *)
Lemma ascii_digit a r :
  Str.is_digit a = true ->
  Utf8.head (String a r) = Some (Utf8.byte a, r)
  /\ Utf8.is_digit (Utf8.byte a) = true.
Proof.
  destruct a as [b0 b1 b2 b3 b4 b5 b6 b7].
  destruct b0, b1, b2, b3, b4, b5, b6, b7; intros Hd; try discriminate Hd;
    split; reflexivity.
Qed.

Lemma ascii_digits r : forall n,
  Str.all_digits r = true -> (String.length r <= n)%nat ->
  Utf8.all Utf8.is_digit n r = true.
Proof.
  induction r as [|a r IH]; intros n Hall Hlen; [destruct n; reflexivity|].
  simpl in Hall. apply Bool.andb_true_iff in Hall. destruct Hall as [Ha Hr].
  destruct n as [|n]; [simpl in Hlen; lia|]. cbn [Utf8.all].
  destruct (ascii_digit a r Ha) as [-> ->]. cbn [andb].
  apply IH; [exact Hr | simpl in Hlen; lia].
Qed.

Lemma isdigit_ascii a r :
  Str.is_digit a = true -> Str.all_digits r = true -> Str.isdigit (String a r) = true.
Proof.
  intros Ha Hr. unfold Str.isdigit. apply ascii_digits; [|lia].
  simpl. now rewrite Ha, Hr.
Qed.

Lemma startswith_common p q s :
  Str.startswith (p ++ q) (p ++ s) = Str.startswith q s.
Proof.
  induction p as [|a p IH]; [reflexivity|]. simpl. now rewrite Ascii.eqb_refl, IH.
Qed.

Lemma old_style_after_prefix s :
  is_old_style_id ("outlook--" ++ s) = Str.isdigit (Str.lstrip_char "-" s).
Proof.
  unfold is_old_style_id. rewrite startswith_app.
  change (Str.drop 9 ("outlook--" ++ s)) with s. reflexivity.
Qed.

End OldIds.

(** X18: Among the identifiers [outlook-<n>] for an integer [n], the ones that
    [migrate_old_ids] and [find_matching_old_event] take for identifiers of
    the old scheme are those of the negative numbers. *)
Theorem old_identifiers_are_the_negative_numbers (n : Z) :
  is_old_style_id ("outlook-" ++ py_str n) = (n <? 0).
Proof.
  unfold py_str. destruct (n <? 0).
  - destruct (decimal_digits (- n)) as (a & r & -> & Ha & Hr).
    change ("outlook-" ++ "-" ++ String a r) with ("outlook--" ++ String a r).
    rewrite old_style_after_prefix. cbn [Str.lstrip_char].
    rewrite Ascii.eqb_sym, (digit_is_no_dash a Ha).
    now apply isdigit_ascii.
  - destruct (decimal_digits n) as (a & r & -> & Ha & Hr).
    unfold is_old_style_id.
    change "outlook--" with ("outlook-" ++ "-").
    rewrite startswith_common. cbn [Str.startswith].
    rewrite (digit_is_no_dash a Ha). reflexivity.
Qed.

(** ** What the lookup in the calendar tells apart *)

(** X19: [check_event_exists] asks for the day of the start of the event and
    compares titles: two events with the same title that start on the same
    day, at whatever time, get the same answer in the same state of the
    calendar. *)
Theorem lookup_sees_title_and_day {W : Type} `{Platform W} g e e' (w : W) :
  title e = title e' ->
  year (start_date e) = year (start_date e') ->
  month (start_date e) = month (start_date e') ->
  day (start_date e) = day (start_date e') ->
  check_event_exists g e w = check_event_exists g e' w.
Proof.
  intros Ht Hy Hm Hd. unfold check_event_exists. now rewrite Ht, Hy, Hm, Hd.
Qed.

(** a second review in the afternoon is taken for the one of the morning *)
Lemma lookup_witness :
  check_event_exists Sim.google Sim.sync_review Sim.listing
  = check_event_exists Sim.google
      (mk_event "Sync Review" (mk_datetime 2024 6 1 15 0 0 0)
         (mk_datetime 2024 6 1 16 0 0 0) "Room 2" "Calendar" "dave" "" "" "" "")
      Sim.listing.
Proof.
  apply (lookup_sees_title_and_day Sim.google Sim.sync_review); reflexivity.
Defined.

(** ** The sixtieth day *)

Lemma lex_lt_irrefl a : lex_lt a a = false.
Proof.
  induction a as [|x a IH]; [reflexivity|]. simpl.
  now rewrite Z.ltb_irrefl, Z.eqb_refl, IH.
Qed.

(** X20: [cleanup_old_events] compares strictly: an entry whose [synced_date] is
    sixty days before the clock reading, to the microsecond, is kept. *)
Theorem cleanup_keeps_the_sixtieth_day {W : Type} `{Platform W}
  (l : ledger) (w : W) k v s :
  all_dicts l ->
  NoDup (Dict.keys l) ->
  Dict.get k l = Some v ->
  json_get v "synced_date" (JStr "") = Ret (JStr s) ->
  fromisoformat s = Some (Naive (minus_days (fst (now w)) 60)) ->
  exists l',
    cleanup_old_events l w = (Ret l', snd (now w)) /\ Dict.get k l' = Some v.
Proof.
  intros Hd Hnd Hg Hs Hp. destruct (cleanup_total l w Hd) as [l' E].
  exists l'. split; [exact E|].
  apply cleanup_ret in E. destruct E as (_ & _ & _ & ->).
  rewrite stale_filter_nodup by exact Hnd.
  apply get_filter; [exact Hg|]. simpl.
  unfold stale, is_old_event. rewrite Hs, Hp.
  unfold datetime_lt. now rewrite lex_lt_irrefl.
Qed.

(** an entry of the second of April, read on the first of June *)
Lemma sixtieth_day_witness :
  exists l',
    cleanup_old_events
      [("outlook-7308de134f927982",
        Sim.entry "2024-04-02T09:00:00" "2024-06-01T10:00:00" "Sync Review" (JStr "g1"))]
      Sim.quiet = (Ret l', snd (now Sim.quiet))
    /\ Dict.get "outlook-7308de134f927982" l'
       = Some (Sim.entry "2024-04-02T09:00:00" "2024-06-01T10:00:00" "Sync Review"
                 (JStr "g1")).
Proof.
  apply (cleanup_keeps_the_sixtieth_day _ Sim.quiet "outlook-7308de134f927982" _
           "2024-04-02T09:00:00").
  - intros k v [E|[]]. inversion E; subst. unfold Sim.entry. eauto.
  - repeat constructor. intros [].
  - reflexivity.
  - reflexivity.
  - vm_compute. reflexivity.
Defined.
